(** * Sequencing-Data-Manager: the portable scanner, embedded and verified

    A shallow embedding of [portable_seqmanager3/app/backend/scanner.py]
    (class [SequencingFileScanner]) and of the sampled hash of the legacy
    [code/file_scanner.py], followed by the properties of the report that
    [scan_directory] builds.

    Conventions of the embedding:
    - Python [str] values are [string]s of 8-bit characters; [upper] and
      [lower] act on the ASCII letters.
    - File contents and read buffers are [list byte].
    - [int] values are [Z]; the [float]s of the statistics block are [Q].
    - A [dict] that is iterated is an association list in insertion order.
    - Every file-system call is an observation of a [World]; a call that
      raises is the observation [None].
    - A read is asked for a length: [f.read(n)] raises for [n < -1] and
      for a length above the longest read that the [World] serves.
    - [hashlib] is a pair of functions from the hashed bytes to the
      hexadecimal digest.

    Left out: the progress callback, on which no field of the report
    depends; symbolic links; a cancel request that arrives while the scan
    runs ([_cancel] is read as it stands when the scan starts). *)

From Stdlib Require Import List String Ascii ZArith QArith Bool Lia.
From Stdlib.Strings Require Import Byte.
From Stdlib Require Import Permutation PeanoNat DecimalString Sorted Lqa.
Import ListNotations.
Close Scope Q_scope.
Open Scope string_scope.
Open Scope list_scope.

Set Implicit Arguments.
Set Warnings "-register-all,-abstract-large-number".

Infix "+++" := String.append (right associativity, at level 60).

(** ** Strings *)

Module Str.

Definition is_lower (c : ascii) : bool :=
  let n := nat_of_ascii c in (97 <=? n)%nat && (n <=? 122)%nat.

Definition is_upper (c : ascii) : bool :=
  let n := nat_of_ascii c in (65 <=? n)%nat && (n <=? 90)%nat.

Definition is_digit (c : ascii) : bool :=
  let n := nat_of_ascii c in (48 <=? n)%nat && (n <=? 57)%nat.

Definition upper_char (c : ascii) : ascii :=
  if is_lower c then ascii_of_nat (nat_of_ascii c - 32) else c.

Definition lower_char (c : ascii) : ascii :=
  if is_upper c then ascii_of_nat (nat_of_ascii c + 32) else c.

Fixpoint map_chars (f : ascii -> ascii) (s : string) : string :=
  match s with
  | EmptyString => EmptyString
  | String c s' => String (f c) (map_chars f s')
  end.

(** [s.upper()] and [s.lower()]. *)
Definition upper : string -> string := map_chars upper_char.
Definition lower : string -> string := map_chars lower_char.

(** [s.startswith(pre)]. *)
Definition startswith (pre s : string) : bool := String.prefix pre s.

(** [s.endswith(suf)]. *)
Definition endswith (suf s : string) : bool :=
  String.eqb (substring (String.length s - String.length suf)
                        (String.length suf) s) suf.

(** [sub in s]. *)
Fixpoint contains (sub s : string) : bool :=
  String.prefix sub s ||
  match s with
  | EmptyString => false
  | String _ s' => contains sub s'
  end.

(** [s.lstrip(c)] for a single character [c]. *)
Fixpoint lstrip (c : ascii) (s : string) : string :=
  match s with
  | String c' s' => if Ascii.eqb c' c then lstrip c s' else s
  | EmptyString => EmptyString
  end.

(** [s.split(c)] for a single character [c]: never the empty list. *)
Fixpoint split (c : ascii) (s : string) : list string :=
  match s with
  | EmptyString => [EmptyString]
  | String c' s' =>
      if Ascii.eqb c' c then EmptyString :: split c s'
      else match split c s' with
           | w :: ws => String c' w :: ws
           | [] => [String c' EmptyString]
           end
  end.

(** [sep.join(ws)]. *)
Fixpoint join (sep : string) (ws : list string) : string :=
  match ws with
  | [] => EmptyString
  | [w] => w
  | w :: ws' => w +++ sep +++ join sep ws'
  end.

(** [s[:-n]] for [n > 0]. *)
Definition drop_last (n : nat) (s : string) : string :=
  substring 0 (String.length s - n) s.

Definition mem (s : string) (l : list string) : bool :=
  existsb (String.eqb s) l.

(** [str(n)] for a non-negative integer. *)
Definition of_Z (n : Z) : string :=
  NilZero.string_of_uint (N.to_uint (Z.to_N n)).

End Str.

(** ** Byte buffers *)

Module Bytes.

Definition eqb (a b : list byte) : bool :=
  if list_eq_dec Byte.byte_eq_dec a b then true else false.

Fixpoint startswith (pre b : list byte) : bool :=
  match pre, b with
  | [], _ => true
  | x :: pre', y :: b' => Byte.eqb x y && startswith pre' b'
  | _ :: _, [] => false
  end.

(** [needle in b]. *)
Fixpoint contains (needle b : list byte) : bool :=
  startswith needle b ||
  match b with
  | [] => false
  | _ :: b' => contains needle b'
  end.

(** [b[:n]] and [b[n:]] for an integer [n]; a negative [n] counts as 0. *)
Fixpoint take (n : Z) (b : list byte) : list byte :=
  match b with
  | [] => []
  | x :: b' => if (n <=? 0)%Z then [] else x :: take (n - 1) b'
  end.

Fixpoint drop (n : Z) (b : list byte) : list byte :=
  match b with
  | [] => []
  | _ :: b' => if (n <=? 0)%Z then b else drop (n - 1) b'
  end.

(** [b[lo:lo+n]]. *)
Definition slice (lo n : Z) (b : list byte) : list byte :=
  take n (drop lo b).

Definition of_string (s : string) : list byte := list_byte_of_string s.

End Bytes.

(** ** Paths ([pathlib], [os.path]) *)

Module Path.

(** [os.path.join(d, n)] for a relative component [n]. *)
Definition join (d n : string) : string :=
  if Str.endswith "/" d then d +++ n else d +++ "/" +++ n.

(** [Path(p).name]: the final component. *)
Definition name (p : string) : string :=
  last (Str.split "/" p) EmptyString.

(** [Path(p).suffixes]: every suffix keeps its leading dot. *)
Definition suffixes (p : string) : list string :=
  let n := name p in
  if Str.endswith "." n then []
  else map (fun w => "." +++ w) (tl (Str.split "." (Str.lstrip "." n))).

End Path.

(** ** Normalization and bio sets *)

Definition BIO_CONTAINERS : list string := ["GZIP"; "BGZF"].
Definition BIO_LOGICAL : list string :=
  ["BAM"; "CRAM"; "BCF"; "VCF"; "SAM"; "FASTQ"; "FASTA"].

(** [d.get(k, default)] on a literal [dict] of strings. *)
Definition dict_get (d : list (string * string)) (k default : string) : string :=
  match find (fun kv => String.eqb (fst kv) k) d with
  | Some kv => snd kv
  | None => default
  end.

Definition _norm_container (s : string) : string :=
  let s := Str.upper s in
  dict_get [("GZ", "GZIP"); ("GZIP", "GZIP"); ("BGZ", "BGZF"); ("BGZF", "BGZF")] s s.

(** ** Policy knobs *)

Definition PREFER_SRA_OVER_FASTQ : bool := false.
Definition ALLOW_SAM_REGEN : bool := true.

(** ** Data classes *)

Record FileMeta := mkFileMeta {
  path : string;
  size : Z;
  mtime_ns : Z;
  header_type : string;
  ext_full : string;
  ext_container : string;
  ext_logical : string
}.

Record ScanStats := mkScanStats {
  wall_clock_s : Q;
  cpu_avg : option Q;
  cpu_peak : option Q;
  peak_rss_mb : option Z
}.

(** ** Extension parsing *)

Definition logical_map : list (string * string) :=
  [("bam", "BAM"); ("cram", "CRAM"); ("bcf", "BCF"); ("vcf", "VCF");
   ("sam", "SAM"); ("fastq", "FASTQ"); ("fq", "FASTQ");
   ("fasta", "FASTA"); ("fa", "FASTA")].

(** [suffixes[-1]] and [suffixes[-2]]. *)
Definition last_suffix (l : list string) : string := last l EmptyString.
Definition prev_suffix (l : list string) : string :=
  last (removelast l) EmptyString.

(** Returns [(ext_full, ext_container, ext_logical)]. *)
Definition _normalize_extensions (p : string) : string * string * string :=
  let suffixes := map (fun s => Str.lower (Str.lstrip "." s)) (Path.suffixes p) in
  let ext_full := Str.join "." suffixes in
  let '(container, logical) :=
    match suffixes with
    | [] => (EmptyString, EmptyString)
    | _ :: _ =>
        let last := last_suffix suffixes in
        let '(container, logical) :=
          if Str.mem last ["gz"; "gzip"] then ("GZIP", EmptyString)
          else if Str.mem last ["bgz"; "bgzf"] then ("BGZF", EmptyString)
          else if Str.mem last ["bam"; "cram"; "bcf"; "vcf"; "sam";
                                "fastq"; "fq"; "fasta"; "fa"]
               then (EmptyString, dict_get logical_map last (Str.upper last))
               else (EmptyString, EmptyString) in
        if negb (String.eqb container EmptyString) && (2 <=? List.length suffixes)%nat
        then (container, dict_get logical_map (prev_suffix suffixes) logical)
        else (container, logical)
    end in
  (ext_full, _norm_container container, logical).

(** ** Header sniffer *)

Definition magic_gzip : list byte := [x1f; x8b; x08].
Definition magic_bam : list byte := [x42; x41; x4d; x01].
Definition tab_byte : byte := x09.

(** The cascade of [sniff_header] on the buffer returned by [f.read(1024)]. *)
Definition sniff_bytes (head : list byte) : string :=
  if (3 <=? List.length head)%nat && Bytes.startswith magic_gzip head then "GZIP"
  else if Bytes.eqb (firstn 4 head) magic_bam then "BAM"
  else if Bytes.eqb (firstn 4 head) (Bytes.of_string "CRAM") then "CRAM"
  else if Bytes.eqb (firstn 3 head) (Bytes.of_string "BCF") then "BCF"
  else if Bytes.contains (Bytes.of_string "##fileformat=VCF") (firstn 256 head) then "VCF"
  else if Bytes.startswith (Bytes.of_string "@HD" ++ [tab_byte]) head then "SAM"
  else if Bytes.eqb (firstn 1 head) (Bytes.of_string "@") then "FASTQ"
  else if Bytes.eqb (firstn 1 head) (Bytes.of_string ">") then "FASTA"
  else "UNKNOWN".

(** ** The file system as the scanner observes it *)

(** What [os.walk] sees below a path. *)
Inductive tree : Type :=
| File : tree
| Dir : list (string * tree) -> tree.

(** The three passes of [scan_directory] that touch files. *)
Inductive phase : Type := Classify | Tier1 | Tier2.

(** [w_tree root] is [None] when the root does not exist.  [w_stat] gives
    [(st_size, st_mtime_ns)], [w_read] the content seen through
    [open("rb")]; [None] is a raised exception.  No symbolic links: a path
    below a canonical root is canonical, [resolve] is the identity.
    [w_read_max] is the longest read that the platform serves: above it
    [f.read(n)] raises [OverflowError] (beyond [ssize_t]) or [MemoryError];
    the fixed lengths of the sniffer and of the sampled fingerprint, 1024
    and 65536 bytes, are within it. *)
Record World := mkWorld {
  w_tree : string -> option tree;
  w_stat : phase -> string -> option (Z * Z);
  w_read : phase -> string -> option (list byte);
  w_read_max : Z
}.

Record Hashlib := mkHashlib {
  md5_hexdigest : list byte -> string;
  sha256_hexdigest : list byte -> string
}.

(** The fields of [SequencingFileScanner] that the scan reads.  [_cancel]
    is read as it stands when the scan starts. *)
Record Scanner := mkScanner {
  strict : bool;
  chunk : Z;
  _cancel : bool;
  include_non_bio_mismatches : bool
}.

(** [SequencingFileScanner()] with the defaults of [__init__]. *)
Definition default_scanner : Scanner :=
  mkScanner true (4 * 1024 * 1024)%Z false false.

Definition dirnames (es : list (string * tree)) : list string :=
  map fst (filter (fun e => match snd e with Dir _ => true | File => false end) es).

Definition filenames (es : list (string * tree)) : list string :=
  map fst (filter (fun e => match snd e with Dir _ => false | File => true end) es).

(** [os.walk(top)], top-down; a [top] that is not a directory yields nothing. *)
Fixpoint os_walk (top : string) (t : tree) : list (string * list string * list string) :=
  match t with
  | File => []
  | Dir es =>
      (top, dirnames es, filenames es)
      :: (fix below (l : list (string * tree)) :=
            match l with
            | [] => []
            | (n, c) :: l' => os_walk (Path.join top n) c ++ below l'
            end) es
  end.

Definition sniff_header (w : World) (p : string) : string :=
  match w_read w Classify p with
  | Some content => sniff_bytes (firstn 1024 content)
  | None => "UNKNOWN"
  end.

(** ** Fingerprints *)

(** [f.seek(lo); f.read(n)] on the content [b]. *)
Definition window (lo n : Z) (b : list byte) : list byte :=
  Bytes.slice lo n b.

(** The bytes that [sampled_fingerprint] feeds to [h.update], in order. *)
Definition sampled_input (S : Z) (content : list byte) : list byte :=
  window 0 65536 content
  ++ (if (196608 <=? S)%Z
      then window (Z.max 0 (S / 2 - 32768)) 65536 content else [])
  ++ (if (65536 <=? S)%Z
      then window (Z.max 0 (S - 65536)) 65536 content else []).

Definition sampled_fingerprint (H : Hashlib) (w : World) (p : string) : option string :=
  match w_stat w Tier1 p with
  | None => None
  | Some (st_size, _) =>
      match w_read w Tier1 p with
      | None => None
      | Some content => Some (md5_hexdigest H (sampled_input st_size content))
      end
  end.

(** [f.read(n)] on a buffered binary file: all that is left for [n = -1],
    at most [n] bytes for [0 <= n]; [None] when it raises, [ValueError]
    for [n < -1], [OverflowError] or [MemoryError] for a length above
    [limit]. *)
Definition f_read (limit n : Z) (rest : list byte) : option (list byte) :=
  if (n =? -1)%Z then Some rest
  else if (n <? 0)%Z || (limit <? n)%Z then None
  else Some (Bytes.take n rest).

(** The [while True] loop of [stream_hash]: the bytes fed to [h.update],
    or [None] when a read raises. *)
Fixpoint read_loop (fuel : nat) (limit n : Z) (rest : list byte) : option (list byte) :=
  match fuel with
  | O => Some []
  | Datatypes.S fuel' =>
      match f_read limit n rest with
      | None => None
      | Some [] => Some []
      | Some (b :: bs) =>
          option_map (app (b :: bs))
                     (read_loop fuel' limit n (skipn (List.length (b :: bs)) rest))
      end
  end.

Definition stream_input (limit n : Z) (content : list byte) : option (list byte) :=
  read_loop (Datatypes.S (List.length content)) limit n content.

(** [stream_hash(p)]; [None] when [open] or a read raises. *)
Definition stream_hash (sc : Scanner) (H : Hashlib) (w : World) (p : string) : option string :=
  match w_read w Tier2 p with
  | None => None
  | Some content =>
      option_map (sha256_hexdigest H) (stream_input (w_read_max w) (chunk sc) content)
  end.

(** ** Dictionaries of lists, in insertion order *)

Section Dict.

Variables (K V : Type) (keqb : K -> K -> bool).

(** [d.setdefault(k, []).append(v)]. *)
Fixpoint setdefault_append (k : K) (v : V) (d : list (K * list V)) : list (K * list V) :=
  match d with
  | [] => [(k, [v])]
  | (k', vs) :: d' =>
      if keqb k k' then (k', vs ++ [v]) :: d'
      else (k', vs) :: setdefault_append k v d'
  end.

(** Every value stored in the dictionary, bucket after bucket. *)
Definition members (d : list (K * list V)) : list V := List.concat (map snd d).

(** Every stored value satisfies [P] for the key of its bucket. *)
Definition buckets_sat (P : K -> V -> Prop) (d : list (K * list V)) : Prop :=
  forall k vs, In (k, vs) d -> forall v, In v vs -> P k v.

(** The value [v] is stored under the key [k]. *)
Definition holds (d : list (K * list V)) (k : K) (v : V) : Prop :=
  exists vs, In (k, vs) d /\ In v vs.

(** A bucket that survives a tier: two files or more. *)
Definition big (b : K * list V) : bool :=
  negb (List.length (snd b) <? 2)%nat.

(** The number of files that sit in surviving buckets. *)
Definition files_in (d : list (K * list V)) : nat :=
  List.length (members (filter big d)).

(** The number of surviving buckets. *)
Definition partitions_in (d : list (K * list V)) : nat :=
  List.length (filter big d).

End Dict.

Definition key2_eqb (a b : Z * string) : bool :=
  (fst a =? fst b)%Z && String.eqb (snd a) (snd b).

(** ** Sorting *)

(** [sorted(paths)]: strings in code-point order. *)
Fixpoint insert_path (x : string) (l : list string) : list string :=
  match l with
  | [] => [x]
  | y :: l' => if String.leb x y then x :: l else y :: insert_path x l'
  end.

Definition sorted (l : list string) : list string :=
  fold_right insert_path [] l.

(** ** Records of the report *)

Module FileRec.
Record t := mk {
  path : string;
  size : Z;
  header_type : string;
  extension : string;
  extension_container : string;
  extension_logical : string
}.
End FileRec.

Module Mismatch.
Record t := mk {
  path : string;
  extension : string;
  extension_container : string;
  extension_logical : string;
  header_type : string
}.
End Mismatch.

Module DupGroup.
Record t := mk {
  sha256 : string;
  total_size : Z;
  count : nat;
  files : list string
}.
End DupGroup.

Module Candidate.
Record t := mk {
  path : string;
  reason : string;
  fidelity : string;
  depends_on : list string;
  regen_cmd : string
}.
End Candidate.

Record Report := mkReport {
  n_files : nat;
  stats : ScanStats;
  mismatches : list Mismatch.t;
  files : list FileRec.t;
  duplicate_groups : list DupGroup.t;
  erasable_candidates : list Candidate.t
}.

(** ** The walk: one [FileMeta] per file whose [stat] succeeds *)

(** The body of the [try] for one file; [None] when [p.stat()] raises. *)
Definition classify (w : World) (p : string) : option FileMeta :=
  match w_stat w Classify p with
  | None => None
  | Some (st_size, st_mtime_ns) =>
      let header := sniff_header w p in
      let '(ext_full, ext_container, ext_logical) := _normalize_extensions p in
      Some (mkFileMeta p st_size st_mtime_ns header
                       (Str.upper ext_full) ext_container ext_logical)
  end.

Definition opt_list {A : Type} (o : option A) : list A :=
  match o with Some a => [a] | None => [] end.

Definition walk_dir (w : World) (step : string * list string * list string) : list FileMeta :=
  let '(dirpath, _, fns) := step in
  flat_map (fun fn => opt_list (classify w (Path.join dirpath fn))) fns.

(** The classification loop.  With [_cancel] set the inner loop breaks at
    the first file and the outer loop after the first directory. *)
Definition collect_metas (sc : Scanner) (w : World) (rootp : string) (t : tree) : list FileMeta :=
  if _cancel sc then [] else flat_map (walk_dir w) (os_walk rootp t).

(** ** Duplicates: size, sampled fingerprint, streaming digest *)

Section Dedup.

Variables (sc : Scanner) (H : Hashlib) (w : World).

Definition tier0 (metas : list FileMeta) : list (Z * list FileMeta) :=
  fold_left (fun by_size m =>
               if (0 <? size m)%Z then setdefault_append Z.eqb (size m) m by_size
               else by_size)
            metas [].

(** The fingerprint key of a file: the digest, or the sentinel. *)
Definition fp_key (m : FileMeta) : string :=
  match sampled_fingerprint H w (path m) with
  | Some fp => fp
  | None => "ERR"
  end.

Definition tier1 (by_size : list (Z * list FileMeta)) : list (Z * string * list FileMeta) :=
  fold_left (fun by_fp '(sz, group) =>
               if (List.length group <? 2)%nat then by_fp
               else fold_left (fun by_fp m =>
                                 setdefault_append key2_eqb (sz, fp_key m) m by_fp)
                              group by_fp)
            by_size [].

Definition tier2_add (groups : list (string * list FileMeta)) (m : FileMeta) :=
  match stream_hash sc H w (path m) with
  | None => groups
  | Some sha => setdefault_append String.eqb sha m groups
  end.

Definition tier2 (by_fp : list (Z * string * list FileMeta)) : list (string * list FileMeta) :=
  fold_left (fun groups '(_, bucket) =>
               if (List.length bucket <? 2)%nat then groups
               else fold_left tier2_add bucket groups)
            by_fp [].

Definition dup_entry (g : string * list FileMeta) : list DupGroup.t :=
  let '(sha, group) := g in
  if (List.length group <? 2)%nat then []
  else match group with
       | g0 :: _ =>
           [DupGroup.mk sha (size g0 * Z.of_nat (List.length group))%Z
                        (List.length group) (sorted (map path group))]
       | [] => []
       end.

(** [a] sorts strictly before [b] under [key=(total_size, count), reverse=True]. *)
Definition dup_before (a b : DupGroup.t) : bool :=
  (DupGroup.total_size b <? DupGroup.total_size a)%Z
  || ((DupGroup.total_size b =? DupGroup.total_size a)%Z
      && (DupGroup.count b <? DupGroup.count a)%nat).

(** Stable insertion: [x] goes after every entry that does not sort after it. *)
Fixpoint insert_dup (x : DupGroup.t) (l : list DupGroup.t) : list DupGroup.t :=
  match l with
  | [] => [x]
  | y :: l' => if dup_before x y then x :: l else y :: insert_dup x l'
  end.

Definition sort_dups (l : list DupGroup.t) : list DupGroup.t :=
  fold_left (fun acc x => insert_dup x acc) l [].

Definition groups_of (metas : list FileMeta) : list (string * list FileMeta) :=
  tier2 (tier1 (tier0 metas)).

Definition dup_out (metas : list FileMeta) : list DupGroup.t :=
  sort_dups (flat_map dup_entry (groups_of metas)).

End Dedup.

(** ** Mismatches *)

Definition is_mismatch (header ext_container ext_logical : string) : bool :=
  if Str.mem header BIO_CONTAINERS then negb (Str.mem ext_container BIO_CONTAINERS)
  else if Str.mem ext_container BIO_CONTAINERS then true
  else if String.eqb header EmptyString then false
  else negb (String.eqb header ext_logical).

Definition mismatch_of (sc : Scanner) (m : FileMeta) : list Mismatch.t :=
  let header := Str.upper (header_type m) in
  let ext_container := _norm_container (ext_container m) in
  let ext_logical := Str.upper (ext_logical m) in
  if Str.mem header ["UNKNOWN"; EmptyString] then []
  else
    let header_is_bio := Str.mem header BIO_LOGICAL || Str.mem header BIO_CONTAINERS in
    let name_is_bio := Str.mem ext_logical BIO_LOGICAL
                       || Str.mem ext_container BIO_CONTAINERS in
    if negb (include_non_bio_mismatches sc) && negb (header_is_bio || name_is_bio) then []
    else if is_mismatch header ext_container ext_logical
         then [Mismatch.mk (path m) (ext_full m) ext_container ext_logical header]
         else [].

Definition mismatches_of (sc : Scanner) (metas : list FileMeta) : list Mismatch.t :=
  flat_map (mismatch_of sc) metas.

(** ** Sample keys *)

Definition processing_tokens : list string :=
  ["r1"; "r2"; "read1"; "read2"; "paired"; "unpaired"; "trimmed";
   "sorted"; "unsorted"; "collated"].

Definition newline : string := String (ascii_of_nat 10) EmptyString.

(** [_TOKEN_RE.match(w)] on a word without separators: the whole word is a
    token in any case; [$] also accepts one final newline. *)
Definition token_match (w : string) : bool :=
  let lw := Str.lower w in
  Str.mem lw processing_tokens
  || Str.mem lw (map (fun t => t +++ newline) processing_tokens).

Definition is_sep (c : ascii) : bool :=
  Ascii.eqb c "." || Ascii.eqb c "-" || Ascii.eqb c "_".

(** [re.split(r"[\.\-_]+", s)]: [cur] is the word under construction,
    reversed; [in_run] tells that the previous character was a separator. *)
Fixpoint re_split_from (cur : list ascii) (in_run : bool) (s : string) : list string :=
  match s with
  | EmptyString => [string_of_list_ascii (rev cur)]
  | String c s' =>
      if is_sep c then
        if in_run then re_split_from cur true s'
        else string_of_list_ascii (rev cur) :: re_split_from [] true s'
      else re_split_from (c :: cur) false s'
  end.

Definition re_split (s : string) : list string := re_split_from [] false s.

Definition nonempty (s : string) : bool := negb (String.eqb s EmptyString).

Definition _base_stem (p : string) (ext_full_upper : string) : string :=
  let name :=
    fold_left (fun name suf =>
                 if nonempty suf then Str.drop_last (String.length suf) name else name)
              (rev (Path.suffixes p)) (Path.name p) in
  let parts := filter (fun w => nonempty w && negb (token_match w)) (re_split name) in
  Str.lower (Str.join "." parts).

Definition _has (m : FileRec.t) (kind : string) : bool :=
  String.eqb (FileRec.header_type m) kind
  || String.eqb (FileRec.extension_logical m) kind.

Definition _is_container (m : FileRec.t) (kinds : list string) : bool :=
  Str.mem (Str.upper (FileRec.extension_container m)) kinds.

(** ** Shell quoting ([shlex.quote]) *)

Definition dq : ascii := ascii_of_nat 34.

Definition is_safe_char (c : ascii) : bool :=
  Str.is_lower c || Str.is_upper c || Str.is_digit c
  || existsb (Ascii.eqb c) (list_ascii_of_string "_@%+=:,./-").

Fixpoint all_safe (s : string) : bool :=
  match s with
  | EmptyString => true
  | String c s' => is_safe_char c && all_safe s'
  end.

(** [s.replace("'", ...)] with a quote, a double-quoted quote, a quote. *)
Fixpoint escape_quotes (s : string) : string :=
  match s with
  | EmptyString => EmptyString
  | String c s' =>
      if Ascii.eqb c "'"
      then String "'" (String dq (String "'" (String dq (String "'" (escape_quotes s')))))
      else String c (escape_quotes s')
  end.

Definition shlex_quote (s : string) : string :=
  if negb (nonempty s) then "''"
  else if all_safe s then s
  else "'" +++ escape_quotes s +++ "'".

(** ** Erasable intermediates *)

Definition is_sra (x : FileRec.t) : bool :=
  Str.endswith "SRA" (Str.upper (FileRec.extension x)).

Definition is_plain_bam (x : FileRec.t) : bool :=
  _has x "BAM" && negb (_is_container x ["GZIP"; "BGZF"]).

Definition is_trimmed (x : FileRec.t) : bool :=
  Str.contains "trimmed" (Str.lower (Path.name (FileRec.path x))).

(** Rule 1: every SAM, when a BAM or a CRAM is in the group. *)
Definition rule_sam (items : list FileRec.t) : list Candidate.t :=
  let has_cram := existsb (fun x => _has x "CRAM") items in
  let has_bam_any := existsb (fun x => _has x "BAM") items in
  let has_sam := existsb (fun x => _has x "SAM") items in
  if ALLOW_SAM_REGEN && has_sam && (has_bam_any || has_cram) then
    flat_map (fun x =>
      if _has x "SAM" then
        if has_bam_any then
          match find (fun y => _has y "BAM") items with
          | Some bam =>
              [Candidate.mk (FileRec.path x)
                 "SAM is an intermediate; re-emit from BAM"
                 "content-equivalent (order may differ)"
                 [FileRec.path bam]
                 ("samtools view -h " +++ shlex_quote (FileRec.path bam)
                    +++ " > " +++ shlex_quote (FileRec.path x))]
          | None => []
          end
        else
          match find (fun y => _has y "CRAM") items with
          | Some cram =>
              [Candidate.mk (FileRec.path x)
                 "SAM is an intermediate; re-emit from CRAM"
                 "content-equivalent (requires reference)"
                 [FileRec.path cram; "<ref.fa>"]
                 ("samtools view -h -T <ref.fa> " +++ shlex_quote (FileRec.path cram)
                    +++ " > " +++ shlex_quote (FileRec.path x))]
          | None => []
          end
      else []) items
  else [].

(** Rule 2: every BAM outside a compression container, when a CRAM is in the group. *)
Definition rule_bam (items : list FileRec.t) : list Candidate.t :=
  let has_cram := existsb (fun x => _has x "CRAM") items in
  let has_bam := existsb is_plain_bam items in
  if has_bam && has_cram then
    match find (fun y => _has y "CRAM") items with
    | Some cram =>
        map (fun b =>
               Candidate.mk (FileRec.path b)
                 "BAM superseded by CRAM; reconstructable from CRAM"
                 "content-equivalent (coordinate order preserved if CRAM is sorted)"
                 [FileRec.path cram; "<ref.fa>"]
                 ("samtools view -b -T <ref.fa> -o " +++ shlex_quote (FileRec.path b)
                    +++ " " +++ shlex_quote (FileRec.path cram)))
            (filter is_plain_bam items)
    | None => []
    end
  else [].

Definition fastqs_of (items : list FileRec.t) : list FileRec.t :=
  filter (fun x => _has x "FASTQ") items.

(** Rule 3: SRA against FASTQ, by [PREFER_SRA_OVER_FASTQ]. *)
Definition rule_sra (items : list FileRec.t) : list Candidate.t :=
  let fastqs := fastqs_of items in
  let has_sra := existsb is_sra items in
  if has_sra && (0 <? List.length fastqs)%nat then
    if PREFER_SRA_OVER_FASTQ then
      map (fun fq =>
             Candidate.mk (FileRec.path fq)
               "FASTQ re-derivable from retained SRA"
               "tool-deterministic (fasterq-dump + pigz)"
               ["<SRA_ACCESSION>"]
               "fasterq-dump --split-files SRRXXXXXX && pigz -p N *.fastq")
          fastqs
    else
      match find is_sra items with
      | Some sra =>
          [Candidate.mk (FileRec.path sra)
             "SRA redundant when gzipped FASTQ is retained locally"
             "content-equivalent (tool-dependent container)"
             (map FileRec.path fastqs)
             "n/a (keep FASTQ as canonical raw layer)"]
      | None => []
      end
  else [].

(** Rule 4: every trimmed FASTQ, when a raw FASTQ is in the group. *)
Definition rule_trimmed (items : list FileRec.t) : list Candidate.t :=
  let fastqs := fastqs_of items in
  let raw_fq := filter (fun fq => negb (is_trimmed fq)) fastqs in
  let trimmed_fq := filter is_trimmed fastqs in
  match raw_fq, trimmed_fq with
  | raw0 :: _, _ :: _ =>
      let manifest :=
        find (fun c => Str.endswith ".manifest.json" (Str.lower (FileRec.path c))) items in
      let extra :=
        match manifest with
        | Some c => if nonempty (FileRec.path c) then [FileRec.path c] else []
        | None => []
        end in
      map (fun tfq =>
             Candidate.mk (FileRec.path tfq)
               "Trimmed FASTQ is re-derivable from raw FASTQ with recorded parameters"
               "content-equivalent given pinned tool and params"
               (FileRec.path raw0 :: extra)
               "cutadapt <params_from_manifest> -o out.fq.gz raw.fq.gz")
          trimmed_fq
  | _, _ => []
  end.

Definition group_candidates (items : list FileRec.t) : list Candidate.t :=
  rule_sam items ++ rule_bam items ++ rule_sra items ++ rule_trimmed items.

Definition file_rec (m : FileMeta) : FileRec.t :=
  FileRec.mk (path m) (size m) (header_type m) (ext_full m)
             (ext_container m) (ext_logical m).

Definition by_sample (files_out : list FileRec.t) : list (string * list FileRec.t) :=
  fold_left (fun d rec =>
               setdefault_append String.eqb
                 (_base_stem (FileRec.path rec) (FileRec.extension rec)) rec d)
            files_out [].

Definition erasable_of (files_out : list FileRec.t) : list Candidate.t :=
  flat_map (fun g => group_candidates (snd g)) (by_sample files_out).

(** ** Statistics *)

(** One round of [proc.cpu_percent] and [proc.memory_info] after a
    directory: both may raise, the second after the first has succeeded. *)
Inductive psample : Type :=
| SampleRaises : psample
| SampleCpu : Q -> psample
| SampleCpuRss : Q -> Z -> psample.

(** The readings of [time.perf_counter] and, when [psutil] is importable,
    the samples of the process, one per directory. *)
Record Meter := mkMeter {
  perf_start : Q;
  perf_end : Q;
  proc : option (nat -> psample)
}.

Definition cpu_of (s : psample) : list Q :=
  match s with
  | SampleRaises => []
  | SampleCpu c => [c]
  | SampleCpuRss c _ => [c]
  end.

Definition rss_step (peak : option Z) (s : psample) : option Z :=
  match s with
  | SampleCpuRss _ rss_bytes =>
      let rss := (rss_bytes / (1024 * 1024))%Z in
      match peak with
      | None => Some rss
      | Some pk => if (pk <? rss)%Z then Some rss else Some pk
      end
  | _ => peak
  end.

(** The directories after which a sample is taken. *)
Definition rounds (sc : Scanner) (steps : nat) : nat :=
  if _cancel sc then Nat.min 1 steps else steps.

Definition samples_of (sc : Scanner) (mt : Meter) (steps : nat) : list psample :=
  match proc mt with
  | Some sample => map sample (seq 0 (rounds sc steps))
  | None => []
  end.

(** [max(xs)]: the first of the largest. *)
Definition qmax_list (x : Q) (xs : list Q) : Q :=
  fold_left (fun acc y => if Qle_bool y acc then acc else y) xs x.

Definition scan_stats (sc : Scanner) (mt : Meter) (steps : nat) : ScanStats :=
  let samples := samples_of sc mt steps in
  let cpu_samples := flat_map cpu_of samples in
  let elapsed := (perf_end mt - perf_start mt)%Q in
  mkScanStats
    (if Qle_bool elapsed 0 then 0%Q else elapsed)
    (match cpu_samples with
     | [] => None
     | _ :: _ =>
         Some (fold_left Qplus cpu_samples 0%Q
               / inject_Z (Z.max 1 (Z.of_nat (List.length cpu_samples))))%Q
     end)
    (match cpu_samples with
     | [] => None
     | c :: cs => Some (qmax_list c cs)
     end)
    (fold_left rss_step samples None).

(** ** The scan *)

Inductive scan_result : Type :=
| Returned : Report -> scan_result
| FileNotFoundError : string -> scan_result.

(** [scan_directory(root)] for a canonical [root] ([expanduser] and
    [resolve] leave it as it is). *)
Definition scan_directory (sc : Scanner) (H : Hashlib) (w : World) (mt : Meter)
    (root : string) : scan_result :=
  match w_tree w root with
  | None => FileNotFoundError ("Scan root does not exist: " +++ root)
  | Some t =>
      let metas := collect_metas sc w root t in
      let files_out := map file_rec metas in
      Returned
        (mkReport (List.length metas)
                  (scan_stats sc mt (List.length (os_walk root t)))
                  (mismatches_of sc metas)
                  files_out
                  (dup_out sc H w metas)
                  (erasable_of files_out))
  end.

Definition report_of (r : scan_result) : option Report :=
  match r with
  | Returned rep => Some rep
  | FileNotFoundError _ => None
  end.

(** ** The sampled hash of the legacy scanner ([code/file_scanner.py]) *)

Module Legacy.

(** [f.seek(lo); f.read(n)]. *)
Definition read_at (lo n : Z) (b : list byte) : list byte :=
  Bytes.slice lo n b.

(** [while chunk := f.read(chunk_size)] for a length [chunk_size > 0] that
    the platform serves: the chunks, one after the other. *)
Fixpoint read_chunks (fuel : nat) (chunk_size : Z) (rest : list byte) : list byte :=
  match fuel with
  | O => []
  | Datatypes.S fuel' =>
      match Bytes.take chunk_size rest with
      | [] => []
      | b :: bs =>
          (b :: bs) ++ read_chunks fuel' chunk_size (skipn (List.length (b :: bs)) rest)
      end
  end.

(** The bytes that [get_file_hash] feeds to [hasher.update], in order, for
    a file of [file_size] bytes read in chunks of [chunk_size > 0] (the
    scanner passes 65536); [None] when [f.seek(-chunk_size, 2)] would land
    before the start of the file. *)
Definition hash_input (file_size chunk_size : Z) (content : list byte) : option (list byte) :=
  let prefix := Bytes.of_string (Str.of_Z file_size) in
  if (file_size <=? chunk_size * 2)%Z
  then Some (prefix ++ read_chunks (Datatypes.S (List.length content)) chunk_size content)
  else
    let first_chunk := read_at 0 chunk_size content in
    let middle_pos := (file_size / 2)%Z in
    let middle_chunk :=
      read_at middle_pos (Z.min chunk_size (file_size - middle_pos)) content in
    if (chunk_size <? file_size)%Z then
      if (Z.of_nat (List.length content) <? chunk_size)%Z then None
      else Some (prefix ++ first_chunk ++ middle_chunk
                 ++ read_at (Z.of_nat (List.length content) - chunk_size)
                            chunk_size content)
    else Some (prefix ++ first_chunk ++ middle_chunk).

Definition get_file_hash (H : Hashlib) (w : World) (filepath : string) : option string :=
  match w_stat w Classify filepath with
  | None => None
  | Some (file_size, _) =>
      match w_read w Classify filepath with
      | None => None
      | Some content =>
          option_map (md5_hexdigest H) (hash_input file_size 65536 content)
      end
  end.

End Legacy.

(** ** Concrete worlds for the examples *)

Module Examples.

(** The longest read on a 64-bit platform with memory to spare. *)
Definition PY_SSIZE_T_MAX : Z := 9223372036854775807%Z.

(** A digest without collisions: the hashed bytes, as a string. *)
Definition ideal : Hashlib := mkHashlib string_of_list_byte string_of_list_byte.

Definition lookup {A : Type} (l : list (string * A)) (p : string) : option A :=
  option_map snd (find (fun kv => String.eqb (fst kv) p) l).

(** A quiet world: [root] names [t], every listed file can be read at
    every phase and its size is the length of its content. *)
Definition quiet (root : string) (t : tree) (contents : list (string * list byte)) : World :=
  mkWorld
    (fun r => if String.eqb r root then Some t else None)
    (fun _ p => option_map (fun c => (Z.of_nat (List.length c), 0%Z)) (lookup contents p))
    (fun _ p => lookup contents p)
    PY_SSIZE_T_MAX.

(** Text content. *)
Definition txt (s : string) : list byte := Bytes.of_string s.

Definition still : Meter := mkMeter 0 0 None.

Definition gzip_stream : list byte := [x1f; x8b; x08; x00].

(** Raw and trimmed reads of one sample. *)
Definition reads_tree : tree :=
  Dir [("raw", Dir [("s1_R1.fastq.gz", File); ("s1_R2.fastq.gz", File);
                    ("s1_trimmed_R1.fastq.gz", File)])].

Definition reads : World :=
  quiet "/data" reads_tree
    [("/data/raw/s1_R1.fastq.gz", gzip_stream ++ txt "1");
     ("/data/raw/s1_R2.fastq.gz", gzip_stream ++ txt "22");
     ("/data/raw/s1_trimmed_R1.fastq.gz", gzip_stream ++ txt "333")].

(** Alignments of one sample, and FASTA text under the name y.bam. *)
Definition alignments_tree : tree :=
  Dir [("sample.bam", File); ("sample.cram", File); ("y.bam", File); ("sample.sam", File)].

Definition alignments : World :=
  quiet "/data" alignments_tree
    [("/data/sample.bam", txt "BAM" ++ [x01]);
     ("/data/sample.cram", txt "CRAM3");
     ("/data/y.bam", txt ">seq");
     ("/data/sample.sam", txt "@HD" ++ [x09] ++ txt "VN:1.6")].

(** An archive, uncompressed reads under a compressed name, and a copy of
    the reads: a scan with mismatches, a duplicate group and a candidate. *)
Definition lab_tree : tree :=
  Dir [("sample.sra", File); ("sample.fastq.gz", File);
       ("copy", Dir [("sample.fastq.gz", File)])].

Definition lab : World :=
  quiet "/data" lab_tree
    [("/data/sample.sra", txt "NCBI.sra"); ("/data/sample.fastq.gz", txt "@r1");
     ("/data/copy/sample.fastq.gz", txt "@r1")].

Definition lab_report : Report :=
  mkReport 3 (mkScanStats 0 None None None)
    [Mismatch.mk "/data/sample.fastq.gz" "FASTQ.GZ" "GZIP" "FASTQ" "FASTQ";
     Mismatch.mk "/data/copy/sample.fastq.gz" "FASTQ.GZ" "GZIP" "FASTQ" "FASTQ"]
    [FileRec.mk "/data/sample.sra" 8 "UNKNOWN" "SRA" EmptyString EmptyString;
     FileRec.mk "/data/sample.fastq.gz" 3 "FASTQ" "FASTQ.GZ" "GZIP" "FASTQ";
     FileRec.mk "/data/copy/sample.fastq.gz" 3 "FASTQ" "FASTQ.GZ" "GZIP" "FASTQ"]
    [DupGroup.mk "@r1" 6 2 ["/data/copy/sample.fastq.gz"; "/data/sample.fastq.gz"]]
    [Candidate.mk "/data/sample.sra"
       "SRA redundant when gzipped FASTQ is retained locally"
       "content-equivalent (tool-dependent container)"
       ["/data/sample.fastq.gz"; "/data/copy/sample.fastq.gz"]
       "n/a (keep FASTQ as canonical raw layer)"].

(** Four files of one byte, equal two by two. *)
Definition four_tree : tree :=
  Dir [("a1.txt", File); ("a2.txt", File); ("b1.txt", File); ("b2.txt", File)].

Definition four_files : World :=
  quiet "/data" four_tree
    [("/data/a1.txt", txt "A"); ("/data/a2.txt", txt "A");
     ("/data/b1.txt", txt "B"); ("/data/b2.txt", txt "B")].

Definition four_metas : list FileMeta :=
  collect_metas default_scanner four_files "/data" four_tree.

(** A file of 196609 bytes, all zero but the one at offset 131072, which
    no sampled window covers. *)
Definition long (b : byte) : list byte :=
  repeat x00 131072 ++ [b] ++ repeat x00 65536.

Definition four_long_files : World :=
  quiet "/data" four_tree
    [("/data/a1.txt", long x01); ("/data/a2.txt", long x01);
     ("/data/b1.txt", long x02); ("/data/b2.txt", long x02)].

Definition four_long_metas : list FileMeta :=
  collect_metas default_scanner four_long_files "/data" four_tree.

(** Two pairs of equal files, of one byte and of two bytes. *)
Definition mixed_files : World :=
  quiet "/data" four_tree
    [("/data/a1.txt", txt "A"); ("/data/a2.txt", txt "A");
     ("/data/b1.txt", txt "BB"); ("/data/b2.txt", txt "BB")].

(** [SequencingFileScanner(chunk_size_bytes=0)]. *)
Definition zero_chunk : Scanner := mkScanner true 0 false false.

(** The one group that the scan of [mixed_files] reports with a chunk of
    zero bytes; its key is the digest of the empty input. *)
Definition mixed_group : DupGroup.t :=
  DupGroup.mk EmptyString 4 4
    ["/data/a1.txt"; "/data/a2.txt"; "/data/b1.txt"; "/data/b2.txt"].

Definition mixed_report : Report :=
  mkReport 4 (mkScanStats 0 None None None) []
    [FileRec.mk "/data/a1.txt" 1 "UNKNOWN" "TXT" EmptyString EmptyString;
     FileRec.mk "/data/a2.txt" 1 "UNKNOWN" "TXT" EmptyString EmptyString;
     FileRec.mk "/data/b1.txt" 2 "UNKNOWN" "TXT" EmptyString EmptyString;
     FileRec.mk "/data/b2.txt" 2 "UNKNOWN" "TXT" EmptyString EmptyString]
    [mixed_group] [].

(** Two equal files that cannot be opened while Tier 1 runs and can be
    opened before and after. *)
Definition pair_tree : tree := Dir [("x1.dat", File); ("x2.dat", File)].

Definition flaky : World :=
  mkWorld
    (fun r => if String.eqb r "/data" then Some pair_tree else None)
    (fun _ p => if Str.mem p ["/data/x1.dat"; "/data/x2.dat"] then Some (3%Z, 0%Z) else None)
    (fun ph p =>
       match ph with
       | Tier1 => None
       | _ => if Str.mem p ["/data/x1.dat"; "/data/x2.dat"] then Some (txt "abc") else None
       end)
    PY_SSIZE_T_MAX.

Definition flaky_metas : list FileMeta :=
  collect_metas default_scanner flaky "/data" pair_tree.

(** The same two files in a quiet world, and the report of their scan. *)
Definition twins : World :=
  quiet "/data" pair_tree [("/data/x1.dat", txt "abc"); ("/data/x2.dat", txt "abc")].

Definition twins_group : DupGroup.t :=
  DupGroup.mk "abc" 6 2 ["/data/x1.dat"; "/data/x2.dat"].

Definition twins_report : Report :=
  mkReport 2 (mkScanStats 0 None None None) []
    [FileRec.mk "/data/x1.dat" 3 "UNKNOWN" "DAT" EmptyString EmptyString;
     FileRec.mk "/data/x2.dat" 3 "UNKNOWN" "DAT" EmptyString EmptyString]
    [twins_group] [].


(** A directory with one file that [stat] sees and [open] refuses. *)
Definition locked_tree : tree := Dir [("locked.bam", File)].

Definition locked : World :=
  mkWorld
    (fun r => if String.eqb r "/data" then Some locked_tree else None)
    (fun _ p => if String.eqb p "/data/locked.bam" then Some (4%Z, 0%Z) else None)
    (fun _ _ => None)
    PY_SSIZE_T_MAX.

Definition locked_report : Report :=
  mkReport 1 (mkScanStats 0 None None None) []
    [FileRec.mk "/data/locked.bam" 4 "UNKNOWN" "BAM" EmptyString "BAM"]
    [] [].

(** A gzip stream under a name without a bio or container extension. *)
Definition archive_tree : tree := Dir [("notes.txt", File)].

Definition archive : World :=
  quiet "/data" archive_tree [("/data/notes.txt", gzip_stream)].

Definition archive_metas : list FileMeta :=
  collect_metas default_scanner archive "/data" archive_tree.

(** A clock that runs for one second. *)
Definition one_second : Meter := mkMeter 0 1 None.

(** A sample with gzipped reads and FASTQ text stored under the name
    sample.sra. *)
Definition mislabeled_tree : tree :=
  Dir [("sample.sra", File); ("sample.fastq.gz", File)].

Definition mislabeled : World :=
  quiet "/data" mislabeled_tree
    [("/data/sample.sra", txt "@SRR1 1"); ("/data/sample.fastq.gz", gzip_stream)].

Definition mislabeled_group : list FileRec.t :=
  [FileRec.mk "/data/sample.sra" 7 "FASTQ" "SRA" EmptyString EmptyString;
   FileRec.mk "/data/sample.fastq.gz" 4 "GZIP" "FASTQ.GZ" "GZIP" "FASTQ"].

Definition mislabeled_candidate : Candidate.t :=
  Candidate.mk "/data/sample.sra"
    "SRA redundant when gzipped FASTQ is retained locally"
    "content-equivalent (tool-dependent container)"
    ["/data/sample.sra"; "/data/sample.fastq.gz"]
    "n/a (keep FASTQ as canonical raw layer)".

Definition mislabeled_report : Report :=
  mkReport 2 (mkScanStats 0 None None None)
    [Mismatch.mk "/data/sample.sra" "SRA" EmptyString EmptyString "FASTQ"]
    mislabeled_group [] [mislabeled_candidate].

End Examples.

(** * The statements of the specification, as written *)

Module Stated.


(** C2 as written: a listed file on which [stat], [open] or [read] fails
    is not in [files]. *)
Definition unreadable_excluded (sc : Scanner) (H : Hashlib) (w : World) (mt : Meter)
    (root : string) : Prop :=
  forall t rep dirpath ds fns fn,
    w_tree w root = Some t ->
    scan_directory sc H w mt root = Returned rep ->
    In (dirpath, ds, fns) (os_walk root t) -> In fn fns ->
    w_stat w Classify (Path.join dirpath fn) = None
    \/ w_read w Classify (Path.join dirpath fn) = None ->
    forall f, In f (files rep) -> FileRec.path f <> Path.join dirpath fn.

(** C3 as written: the surviving partitions do not grow from tier to tier. *)
Definition cascade_monotone_in_partitions (sc : Scanner) (H : Hashlib) (w : World)
    (metas : list FileMeta) : Prop :=
  let t0 := tier0 metas in
  let t1 := tier1 H w t0 in
  let t2 := tier2 sc H w t1 in
  (partitions_in t2 <= partitions_in t1)%nat /\ (partitions_in t1 <= partitions_in t0)%nat.

(** C4 as written: a file whose sampled fingerprint fails is keyed by the
    sentinel in Tier 1 and is listed in no duplicate group. *)
Definition failed_sample_dropped (sc : Scanner) (H : Hashlib) (w : World)
    (metas : list FileMeta) : Prop :=
  forall m, In m metas -> sampled_fingerprint H w (path m) = None ->
    (forall k bucket, In (k, bucket) (tier1 H w (tier0 metas)) -> In m bucket ->
                      k = (size m, "ERR")) /\
    (forall g, In g (dup_out sc H w metas) -> ~ In (path m) (DupGroup.files g)).

(** C5 as written, for one group [g] of the report [rep]: two members or
    more, one streaming digest, one size, and a total of one member's size
    times the count. *)
Definition dup_group_ok (sc : Scanner) (H : Hashlib) (w : World)
    (rep : Report) (g : DupGroup.t) : Prop :=
  (2 <= DupGroup.count g)%nat /\
  DupGroup.count g = List.length (DupGroup.files g) /\
  (forall p, In p (DupGroup.files g) ->
             stream_hash sc H w p = Some (DupGroup.sha256 g)) /\
  (forall f f', In f (files rep) -> In f' (files rep) ->
                In (FileRec.path f) (DupGroup.files g) ->
                In (FileRec.path f') (DupGroup.files g) ->
                FileRec.size f = FileRec.size f') /\
  (exists f, In f (files rep) /\ In (FileRec.path f) (DupGroup.files g) /\
             DupGroup.total_size g = (FileRec.size f * Z.of_nat (DupGroup.count g))%Z).

Definition duplicate_groups_ok (sc : Scanner) (H : Hashlib) (w : World) (mt : Meter)
    (root : string) : Prop :=
  forall rep, scan_directory sc H w mt root = Returned rep ->
  forall g, In g (duplicate_groups rep) -> dup_group_ok sc H w rep g.

(** C6 as written: a record passes the bio filter by a bio header, a bio
    logical extension or a compression container extension. *)
Definition mismatch_is_bio (r : Mismatch.t) : Prop :=
  Str.mem (Mismatch.header_type r) BIO_LOGICAL = true
  \/ Str.mem (Mismatch.extension_logical r) BIO_LOGICAL = true
  \/ Str.mem (Mismatch.extension_container r) BIO_CONTAINERS = true.

Definition bio_filter (sc : Scanner) (metas : list FileMeta) : Prop :=
  include_non_bio_mismatches sc = false ->
  (forall r, In r (mismatches_of sc metas) -> mismatch_is_bio r) /\
  (forall m, In m metas ->
     Str.upper (header_type m) = "GZIP" ->
     Str.mem (Str.upper (ext_logical m)) BIO_LOGICAL = false ->
     Str.mem (_norm_container (ext_container m)) BIO_CONTAINERS = false ->
     mismatch_of sc m = []).

(** C7 as written: two runs over one world return the same value. *)
Definition runs_equal (sc : Scanner) (H : Hashlib) (w : World) (root : string) : Prop :=
  forall mt1 mt2, scan_directory sc H w mt1 root = scan_directory sc H w mt2 root.

(** C8 as written, for the files [items] of one sample group: with an SRA
    and a FASTQ in the group, rule 3 emits one candidate, for the SRA,
    that depends on the FASTQ paths, and proposes no FASTQ of the group. *)
Definition rule_sra_keeps_fastq (items : list FileRec.t) : Prop :=
  existsb is_sra items = true -> fastqs_of items <> [] ->
  exists sra c,
    find is_sra items = Some sra /\ rule_sra items = [c] /\
    Candidate.path c = FileRec.path sra /\
    Candidate.depends_on c = map FileRec.path (fastqs_of items) /\
    (forall fq, In fq (fastqs_of items) -> FileRec.path fq <> Candidate.path c).

(** C9 as written: the sampled hash input starts with the size of the
    file, and Tier 1 keys its buckets by size and fingerprint. *)
Definition sampled_hash_prepends_size : Prop :=
  (forall (st_size : Z) (content : list byte),
     exists rest, sampled_input st_size content
                  = Bytes.of_string (Str.of_Z st_size) ++ rest) /\
  (forall H w metas k bucket m,
     In (k, bucket) (tier1 H w (tier0 metas)) -> In m bucket ->
     k = (size m, fp_key H w m)).

(** C10 as written: the derived outputs name files of [files] only. *)
Definition report_closed (rep : Report) : Prop :=
  (forall r, In r (mismatches rep) ->
     exists f, In f (files rep) /\ FileRec.path f = Mismatch.path r) /\
  (forall g p, In g (duplicate_groups rep) -> In p (DupGroup.files g) ->
     exists f, In f (files rep) /\ FileRec.path f = p) /\
  (forall c, In c (erasable_candidates rep) ->
     exists f, In f (files rep) /\ FileRec.path f = Candidate.path c).

End Stated.

(** ** Notions used by the amended statements *)

(** Files of different recorded sizes never receive the same streaming digest. *)
Definition digest_separates_sizes (sc : Scanner) (H : Hashlib) (w : World)
    (rep : Report) : Prop :=
  forall f f' h, In f (files rep) -> In f' (files rep) ->
    stream_hash sc H w (FileRec.path f) = Some h ->
    stream_hash sc H w (FileRec.path f') = Some h ->
    FileRec.size f = FileRec.size f'.

(** The candidate of rule 3 under the default policy. *)
Definition sra_candidate (sra : FileRec.t) (fastqs : list FileRec.t) : Candidate.t :=
  Candidate.mk (FileRec.path sra)
    "SRA redundant when gzipped FASTQ is retained locally"
    "content-equivalent (tool-dependent container)"
    (map FileRec.path fastqs)
    "n/a (keep FASTQ as canonical raw layer)".

(** Two results that differ in the statistics block at most. *)
Definition same_but_stats (a b : scan_result) : Prop :=
  match a, b with
  | Returned r1, Returned r2 =>
      n_files r1 = n_files r2 /\ mismatches r1 = mismatches r2 /\
      files r1 = files r2 /\ duplicate_groups r1 = duplicate_groups r2 /\
      erasable_candidates r1 = erasable_candidates r2
  | FileNotFoundError m1, FileNotFoundError m2 => m1 = m2
  | _, _ => False
  end.

(** The record that [mismatch_of] emits for [m]. *)
Definition mismatch_record (m : FileMeta) : Mismatch.t :=
  Mismatch.mk (path m) (ext_full m) (_norm_container (ext_container m))
              (Str.upper (ext_logical m)) (Str.upper (header_type m)).

(** What becomes of the files that fail while the table is built, in the
    report [rep] of a scan of [root]: a path on which [stat] fails is in
    no output; a path that cannot be read has the header UNKNOWN wherever
    it is listed and is no mismatch; without cancellation every listed
    file on which [stat] succeeds is in [files]. *)
Definition unreadable_fate (sc : Scanner) (w : World) (root : string) (rep : Report) : Prop :=
  (forall p, w_stat w Classify p = None ->
     (forall f, In f (files rep) -> FileRec.path f <> p) /\
     (forall r, In r (mismatches rep) -> Mismatch.path r <> p) /\
     (forall g, In g (duplicate_groups rep) -> ~ In p (DupGroup.files g)) /\
     (forall c, In c (erasable_candidates rep) -> Candidate.path c <> p)) /\
  (forall p, w_read w Classify p = None ->
     (forall f, In f (files rep) -> FileRec.path f = p ->
                FileRec.header_type f = "UNKNOWN") /\
     (forall r, In r (mismatches rep) -> Mismatch.path r <> p)) /\
  (_cancel sc = false ->
   forall t dirpath ds fns fn,
     w_tree w root = Some t ->
     In (dirpath, ds, fns) (os_walk root t) -> In fn fns ->
     w_stat w Classify (Path.join dirpath fn) <> None ->
     exists f, In f (files rep) /\ FileRec.path f = Path.join dirpath fn).

(** What becomes of a file [m] whose sampled fingerprint fails: out of a
    size bucket of two files or more it goes under the sentinel key, and
    under no other key; it is listed in a duplicate group only with a computed
    streaming digest and out of a sentinel bucket of two files or more; it
    is listed in none when its streaming digest fails too. *)
Definition failed_sample_fate (sc : Scanner) (H : Hashlib) (w : World)
    (metas : list FileMeta) (m : FileMeta) : Prop :=
  (forall group, In (size m, group) (tier0 metas) -> In m group ->
                 (2 <= List.length group)%nat ->
                 holds (tier1 H w (tier0 metas)) (size m, "ERR") m) /\
  (forall k bucket, In (k, bucket) (tier1 H w (tier0 metas)) -> In m bucket ->
                    k = (size m, "ERR")) /\
  (forall g, In g (dup_out sc H w metas) -> In (path m) (DupGroup.files g) ->
     stream_hash sc H w (path m) = Some (DupGroup.sha256 g) /\
     exists sz bucket,
       In (sz, "ERR", bucket) (tier1 H w (tier0 metas)) /\
       (2 <= List.length bucket)%nat /\
       exists m', In m' bucket /\ path m' = path m) /\
  (stream_hash sc H w (path m) = None ->
   forall g, In g (dup_out sc H w metas) -> ~ In (path m) (DupGroup.files g)).


(** Two runs make the same observations below [root]: the same listing,
    in the same order, the same longest read, and for every listed file
    the same results of [stat] and the same bytes, in each pass. *)
Definition same_observations (w1 w2 : World) (root : string) : Prop :=
  w_tree w1 root = w_tree w2 root /\
  w_read_max w1 = w_read_max w2 /\
  forall t dirpath ds fns fn,
    w_tree w1 root = Some t ->
    In (dirpath, ds, fns) (os_walk root t) -> In fn fns ->
    forall ph,
      w_stat w1 ph (Path.join dirpath fn) = w_stat w2 ph (Path.join dirpath fn) /\
      w_read w1 ph (Path.join dirpath fn) = w_read w2 ph (Path.join dirpath fn).

(** The byte at offset [i] of [b]. *)
Fixpoint byte_at (i : Z) (b : list byte) : option byte :=
  match b with
  | [] => None
  | x :: b' =>
      if (i <? 0)%Z then None
      else if (i =? 0)%Z then Some x else byte_at (i - 1) b'
  end.

(** [win] is the stretch of [content] that starts at offset [lo] and is
    [n] bytes long, or shorter where the content ends: its length, and
    each of its bytes. *)
Definition is_slice (lo n : Z) (content win : list byte) : Prop :=
  Z.of_nat (List.length win)
  = Z.max 0 (Z.min n (Z.of_nat (List.length content) - lo)) /\
  forall i, (0 <= i < Z.of_nat (List.length win))%Z ->
            byte_at i win = byte_at (lo + i) content.

(** [x] is the head window of [content], then the middle window for a
    size of 192 KiB or more, then the tail window for a size of 64 KiB or
    more, and nothing else. *)
Definition sampled_windows (st_size : Z) (content x : list byte) : Prop :=
  exists head middle tail,
    x = head ++ middle ++ tail /\
    is_slice 0 65536 content head /\
    (if (196608 <=? st_size)%Z
     then is_slice (st_size / 2 - 32768) 65536 content middle
     else middle = []) /\
    (if (65536 <=? st_size)%Z
     then is_slice (st_size - 65536) 65536 content tail
     else tail = []).

(** * Notions used by the further properties *)

(** The keys of a dictionary, in insertion order. *)
Definition keys (K V : Type) (d : list (K * list V)) : list K := map fst d.

(** [a] does not come after [b] under the order of the report: a greater
    total, or the same total and a count that is not smaller. *)
Definition dup_ge (a b : DupGroup.t) : Prop :=
  (DupGroup.total_size b < DupGroup.total_size a)%Z
  \/ (DupGroup.total_size b = DupGroup.total_size a
      /\ (DupGroup.count b <= DupGroup.count a)%nat).

(** Code-point order of paths. *)
Definition path_le (a b : string) : Prop := String.leb a b = true.

(** Grouping by a key, as the loops over [setdefault(...).append] do. *)
Definition group_by (A K : Type) (keqb : K -> K -> bool) (key : A -> K) (l : list A)
  : list (K * list A) :=
  fold_left (fun d x => setdefault_append keqb (key x) x d) l [].

(** The files of a report that have the size [s]. *)
Definition same_size (s : Z) (l : list FileRec.t) : list FileRec.t :=
  filter (fun f => (FileRec.size f =? s)%Z) l.

(** The state of a grouping loop after the elements [done]: one bucket per
    key met, holding the elements with that key in their order. *)
Definition grouped (A K : Type) (keqb : K -> K -> bool) (key : A -> K)
    (done : list A) (d : list (K * list A)) : Prop :=
  NoDup (keys d) /\
  forall k vs, In (k, vs) d <->
               (vs = filter (fun x => keqb (key x) k) done /\ vs <> []).

(** ** Further scenarios *)

Module Cases.

(** The report of [Examples.mixed_files] under the default scanner: the
    pair of two-byte files comes first. *)
Definition sized_report : Report :=
  mkReport 4 (mkScanStats 0 None None None) []
    [FileRec.mk "/data/a1.txt" 1 "UNKNOWN" "TXT" EmptyString EmptyString;
     FileRec.mk "/data/a2.txt" 1 "UNKNOWN" "TXT" EmptyString EmptyString;
     FileRec.mk "/data/b1.txt" 2 "UNKNOWN" "TXT" EmptyString EmptyString;
     FileRec.mk "/data/b2.txt" 2 "UNKNOWN" "TXT" EmptyString EmptyString]
    [DupGroup.mk "BB" 4 2 ["/data/b1.txt"; "/data/b2.txt"];
     DupGroup.mk "A" 2 2 ["/data/a1.txt"; "/data/a2.txt"]]
    [].

Definition x1 : FileRec.t :=
  FileRec.mk "/data/x1.dat" 3 "UNKNOWN" "DAT" EmptyString EmptyString.
Definition x2 : FileRec.t :=
  FileRec.mk "/data/x2.dat" 3 "UNKNOWN" "DAT" EmptyString EmptyString.

(** The entries of the sample of [Examples.alignments]. *)
Definition alignment_group : list FileRec.t :=
  [FileRec.mk "/data/sample.bam" 4 "BAM" "BAM" EmptyString "BAM";
   FileRec.mk "/data/sample.cram" 5 "CRAM" "CRAM" EmptyString "CRAM";
   FileRec.mk "/data/sample.sam" 10 "SAM" "SAM" EmptyString "SAM"].

(** The entries of the sample of [Examples.reads]. *)
Definition reads_group : list FileRec.t :=
  [FileRec.mk "/data/raw/s1_R1.fastq.gz" 5 "GZIP" "FASTQ.GZ" "GZIP" "FASTQ";
   FileRec.mk "/data/raw/s1_R2.fastq.gz" 6 "GZIP" "FASTQ.GZ" "GZIP" "FASTQ";
   FileRec.mk "/data/raw/s1_trimmed_R1.fastq.gz" 7 "GZIP" "FASTQ.GZ" "GZIP" "FASTQ"].

(** The candidate of [Examples.lab_report]. *)
Definition lab_candidate : Candidate.t :=
  Candidate.mk "/data/sample.sra"
    "SRA redundant when gzipped FASTQ is retained locally"
    "content-equivalent (tool-dependent container)"
    ["/data/sample.fastq.gz"; "/data/copy/sample.fastq.gz"]
    "n/a (keep FASTQ as canonical raw layer)".

(** The world of [Examples.twins] a moment later: the tree is as it was,
    and a file has appeared outside it. *)
Definition twins_later : World :=
  mkWorld
    (w_tree Examples.twins)
    (fun ph p => if String.eqb p "/elsewhere/new.dat" then Some (3%Z, 1%Z)
                 else w_stat Examples.twins ph p)
    (fun ph p => if String.eqb p "/elsewhere/new.dat" then Some (Examples.txt "new")
                 else w_read Examples.twins ph p)
    Examples.PY_SSIZE_T_MAX.

End Cases.

(** The answers of [sniff_header]. *)
Definition HEADER_KINDS : list string :=
  ["GZIP"; "BAM"; "CRAM"; "BCF"; "VCF"; "SAM"; "FASTQ"; "FASTA"; "UNKNOWN"].

(** The name and the header of [m] agree: both show a compression
    container, or neither does and the header is the logical extension. *)
Definition consistent (m : FileMeta) : Prop :=
  let header := Str.upper (header_type m) in
  let ext_container := _norm_container (ext_container m) in
  (Str.mem header BIO_CONTAINERS = true /\ Str.mem ext_container BIO_CONTAINERS = true)
  \/ (Str.mem header BIO_CONTAINERS = false /\
      Str.mem ext_container BIO_CONTAINERS = false /\
      header = Str.upper (ext_logical m)).

(** The name of [m] shows a compression container and its header is known
    and is not one. *)
Definition plain_under_compressed_name (m : FileMeta) : Prop :=
  let header := Str.upper (header_type m) in
  Str.mem header ["UNKNOWN"; EmptyString] = false /\
  Str.mem header BIO_CONTAINERS = false /\
  Str.mem (_norm_container (ext_container m)) BIO_CONTAINERS = true.

(** The sample key of a file entry. *)
Definition sample_of (f : FileRec.t) : string :=
  _base_stem (FileRec.path f) (FileRec.extension f).

(** The entry [x] is the first of [items] that satisfies [p]. *)
Definition first_with (p : FileRec.t -> bool) (items : list FileRec.t) (x : FileRec.t)
  : Prop := find p items = Some x.

(** The raw and the trimmed FASTQ entries of a group, as rule 4 sees them. *)
Definition raw_fq (items : list FileRec.t) : list FileRec.t :=
  filter (fun fq => negb (is_trimmed fq)) (fastqs_of items).

Definition trimmed_fq (items : list FileRec.t) : list FileRec.t :=
  filter is_trimmed (fastqs_of items).

(** [d] is the placeholder of the reference or the path of an entry of [items]. *)
Definition dep_in (items : list FileRec.t) (d : string) : Prop :=
  d = "<ref.fa>" \/ exists y, In y items /\ FileRec.path y = d.

(** * The legacy scanner ([code/file_scanner.py]) *)

Module FileScanner.

(** [os.path.basename(p)]: what follows the last slash. *)
Definition basename (p : string) : string := last (Str.split "/" p) EmptyString.

(** [self.file_patterns], in the order of the literal: category,
    extensions, patterns. *)
Definition file_patterns : list (string * (list string * list string)) :=
  [("raw_sequencing",
    ([".fastq"; ".fq"; ".fastq.gz"; ".fq.gz"; ".sra"; ".cram"],
     [".*\.f(ast)?q(\.gz)?$"; ".*\.sra$"; ".*\.cram$";
      ".*_R[12]_.*\.f(ast)?q(\.gz)?$"]));
   ("aligned_data",
    ([".bam"; ".sam"; ".sorted.bam"; ".markdup.bam"],
     [".*\.bam$"; ".*\.sam$"; ".*sorted.*\.bam$"; ".*markdup.*\.bam$";
      ".*aligned.*\.bam$"]));
   ("intermediate_files",
    ([".bai"; ".csi"; ".fai"; ".dict"; ".idx"; ".bed"; ".vcf.gz"; ".vcf";
      ".gvcf"; ".gvcf.gz"],
     [".*\.bai$"; ".*\.csi$"; ".*\.fai$"; ".*\.dict$"; ".*\.idx$"; ".*\.bed$";
      ".*\.vcf(\.gz)?$"; ".*\.gvcf(\.gz)?$"; ".*\.metrics$"; ".*\.log$";
      ".*\.tmp$"]));
   ("final_outputs",
    ([".vcf.gz"; ".vcf"; ".tsv"; ".csv"; ".xlsx"; ".pdf"; ".html"],
     [".*final.*\.vcf(\.gz)?$"; ".*report.*\.(pdf|html)$";
      ".*summary.*\.(tsv|csv|xlsx)$"; ".*results.*\.(tsv|csv|xlsx)$";
      ".*annotation.*\.(tsv|csv|xlsx)$"]))].

(** The keys of [self.scan_results]. *)
Definition categories : list string :=
  ["raw_sequencing"; "aligned_data"; "intermediate_files"; "final_outputs";
   "unclassified"].

Section Classify.

(** [re.match(pattern, filename, re.IGNORECASE)] as a truth value; the
    regular-expression engine is not modelled. *)
Variable re_match : string -> string -> bool.

(** A category claims [filename] by one of its extensions or, failing
    that, by one of its patterns. *)
Definition claims (filename : string) (entry : string * (list string * list string))
  : bool :=
  let '(_, (extensions, patterns)) := entry in
  existsb (fun ext => Str.endswith (Str.lower ext) filename) extensions
  || existsb (fun pattern => re_match pattern filename) patterns.

Definition classify_file (filepath : string) : string :=
  let filename := Str.lower (basename filepath) in
  match find (claims filename) file_patterns with
  | Some (category, _) => category
  | None => "unclassified"
  end.

End Classify.

(** ** Deleting files *)

(** What a path names.  A regular file has a size.  A directory reports
    a size too, and the file system may change it when entries are
    removed: [size_after removed] is the size reported once the paths
    [removed] are gone, the earliest first. *)
Inductive Entry : Type :=
| Regular (size : Z)
| Directory (size_after : list string -> Z).

(** The disk as [delete_files] observes it: [entries p] is what [p] names,
    [None] for a path that does not exist; [locked p] tells that
    [os.remove(p)] raises on the regular file [p].  No symbolic links:
    no two paths name one file. *)
Record Disk := mkDisk {
  entries : string -> option Entry;
  locked : string -> bool
}.

(** [os.path.getsize(p)]; [None] when it raises. *)
Definition sizes (disk : Disk) (p : string) : option Z :=
  match entries disk p with
  | Some (Regular size) => Some size
  | Some (Directory size_after) => Some (size_after [])
  | None => None
  end.

Definition regular (disk : Disk) (p : string) : bool :=
  match entries disk p with
  | Some (Regular _) => true
  | _ => false
  end.

Definition directory (disk : Disk) (p : string) : bool :=
  match entries disk p with
  | Some (Directory _) => true
  | _ => false
  end.

(** [os.remove(p)]: the disk without the regular file [p], or [None] when
    it raises: [p] does not exist, is a directory or is locked.  Every
    other regular file stays as it is; every directory stays and reports
    the size that the file system gives it after the removal. *)
Definition os_remove (disk : Disk) (p : string) : option Disk :=
  match entries disk p with
  | Some (Regular _) =>
      if locked disk p then None
      else Some (mkDisk
                   (fun q =>
                      if String.eqb q p then None
                      else match entries disk q with
                           | Some (Directory size_after) =>
                               Some (Directory (fun later => size_after (p :: later)))
                           | e => e
                           end)
                   (locked disk))
  | _ => None
  end.

(** The dictionary that [delete_files] returns; the message of a failure
    and the rounded [size_freed_gb] are left out. *)
Record Deletion := mkDeletion {
  deleted : list (string * Z);
  failed : list string;
  total_deleted : nat;
  total_failed : nat;
  size_freed : Z
}.

(** The loop variables of [delete_files], and the disk. *)
Record DeleteState := mkDeleteState {
  st_disk : Disk;
  st_deleted : list (string * Z);
  st_failed : list string;
  st_freed : Z
}.

(** One turn of the loop: the body of the [try], or the [except]. *)
Definition delete_step (st : DeleteState) (filepath : string) : DeleteState :=
  match sizes (st_disk st) filepath with
  | None => mkDeleteState (st_disk st) (st_deleted st) (st_failed st ++ [filepath])
                          (st_freed st)
  | Some file_size =>
      match os_remove (st_disk st) filepath with
      | None => mkDeleteState (st_disk st) (st_deleted st) (st_failed st ++ [filepath])
                              (st_freed st)
      | Some disk' =>
          mkDeleteState disk' (st_deleted st ++ [(filepath, file_size)]) (st_failed st)
                        (st_freed st + file_size)
      end
  end.

Definition delete_loop (disk : Disk) (file_paths : list string) : DeleteState :=
  fold_left delete_step file_paths (mkDeleteState disk [] [] 0%Z).

(** [delete_files(file_paths)]: the disk afterwards and the result. *)
Definition delete_files (disk : Disk) (file_paths : list string) : Disk * Deletion :=
  let st := delete_loop disk file_paths in
  (st_disk st,
   mkDeletion (st_deleted st) (st_failed st)
              (List.length (st_deleted st)) (List.length (st_failed st))
              (st_freed st)).

(** The sum of the sizes of deleted entries. *)
Definition sum_sizes (l : list (string * Z)) : Z :=
  fold_right (fun e acc => (snd e + acc)%Z) 0%Z l.

(** The state of the loop of [delete_files] after the paths [done], from
    the disk [disk0]. *)
Definition deleting (disk0 : Disk) (done : list string) (st : DeleteState) : Prop :=
  locked (st_disk st) = locked disk0 /\
  (forall p, match entries disk0 p with
             | Some (Regular size) =>
                 entries (st_disk st) p
                 = (if Str.mem p (map fst (st_deleted st)) then None
                    else Some (Regular size))
             | Some (Directory _) => directory (st_disk st) p = true
             | None => entries (st_disk st) p = None
             end) /\
  (forall p s, In (p, s) (st_deleted st) ->
     entries disk0 p = Some (Regular s) /\ locked disk0 p = false /\ In p done) /\
  NoDup (map fst (st_deleted st)) /\
  Permutation (map fst (st_deleted st) ++ st_failed st) done /\
  st_freed st = sum_sizes (st_deleted st) /\
  (forall p, In p done -> regular disk0 p = true -> locked disk0 p = false ->
     In p (map fst (st_deleted st))).

(** ** The scan of the legacy scanner *)

(** The [file_info] dictionary; [relative_path] and the rounded [size_mb]
    are left out. *)
Module FileInfo.
Record t := mk {
  name : string;
  path : string;
  size : Z;
  directory : string
}.
End FileInfo.

(** A duplicate group. *)
Module Duplicate.
Record t := mk {
  hash : string;
  files : list FileInfo.t;
  total_size : Z;
  duplicate_size : Z
}.
End Duplicate.

(** [sum(f['size'] for f in files)]. *)
Definition sum_of (files : list FileInfo.t) : Z :=
  fold_right (fun f acc => (FileInfo.size f + acc)%Z) 0%Z files.

(** [d[k] += n] and [d[k]] on a dictionary of integers; a missing key
    counts as 0 (the keys of [file_sizes] are fixed, none is missing). *)
Fixpoint add_size (k : string) (n : Z) (d : list (string * Z)) : list (string * Z) :=
  match d with
  | [] => []
  | (k', v) :: d' =>
      if String.eqb k k' then (k', (v + n)%Z) :: d' else (k', v) :: add_size k n d'
  end.

Definition get_size (k : string) (d : list (string * Z)) : Z :=
  match find (fun kv => String.eqb (fst kv) k) d with
  | Some kv => snd kv
  | None => 0%Z
  end.

(** [l.sort(key=..., reverse=True)]: stable, the largest key first. *)
Fixpoint insert_desc (A : Type) (key : A -> Z) (x : A) (l : list A) : list A :=
  match l with
  | [] => [x]
  | y :: l' => if (key y <? key x)%Z then x :: l else y :: insert_desc key x l'
  end.

Definition sort_desc (A : Type) (key : A -> Z) (l : list A) : list A :=
  fold_left (fun acc x => insert_desc key x acc) l [].

(** What the analysis loop updates; [self.file_hashes], which no result
    reads, is left out. *)
Record ScanState := mkScanState {
  scan_results : list (string * list FileInfo.t);
  file_sizes : list (string * Z);
  hash_to_files : list (string * list FileInfo.t)
}.

Definition initial : ScanState :=
  mkScanState (map (fun c => (c, [])) categories) (map (fun c => (c, 0%Z)) categories) [].

(** One category of the summary; the rounded [size_gb] and [percentage]
    are left out. *)
Record CategorySummary := mkCategorySummary {
  count : nat;
  cat_total_size : Z;
  cat_files : list FileInfo.t
}.

(** The summary; the rounded sizes in GB are left out. *)
Record Summary := mkSummary {
  summary_categories : list (string * CategorySummary);
  dup_count : nat;
  total_duplicate_size : Z;
  groups : list Duplicate.t;
  total_size : Z
}.

Section Scan.

Variables (re_match : string -> string -> bool) (H : Hashlib) (w : World).

(** The body of the loop over the files of one directory; a failing
    [os.path.getsize] skips the file. *)
Definition analyze (root : string) (st : ScanState) (file : string) : ScanState :=
  let filepath := Path.join root file in
  match w_stat w Classify filepath with
  | None => st
  | Some (file_size, _) =>
      let category := classify_file re_match filepath in
      let file_info := FileInfo.mk file filepath file_size root in
      let results := setdefault_append String.eqb category file_info (scan_results st) in
      let sizes := add_size category file_size (file_sizes st) in
      let hashed :=
        if (1024 <? file_size)%Z then
          match Legacy.get_file_hash H w filepath with
          | Some file_hash =>
              if nonempty file_hash
              then setdefault_append String.eqb file_hash file_info (hash_to_files st)
              else hash_to_files st
          | None => hash_to_files st
          end
        else hash_to_files st in
      mkScanState results sizes hashed
  end.

Definition analyze_dir (st : ScanState) (step : string * list string * list string)
  : ScanState :=
  let '(root, _, files) := step in fold_left (analyze root) files st.

(** [os.walk(root_path)]: nothing for a root that does not exist. *)
Definition walk (root_path : string) : list (string * list string * list string) :=
  match w_tree w root_path with
  | Some t => os_walk root_path t
  | None => []
  end.

Definition analysis (root_path : string) : ScanState :=
  fold_left analyze_dir (walk root_path) initial.

(** The group of one bucket of [hash_to_files]. *)
Definition duplicate_group (b : string * list FileInfo.t) : list Duplicate.t :=
  let '(file_hash, files) := b in
  if (1 <? List.length files)%nat
  then [Duplicate.mk file_hash files (sum_of files) (sum_of (tl files))]
  else [].

Definition duplicates (st : ScanState) : list Duplicate.t :=
  sort_desc Duplicate.duplicate_size (flat_map duplicate_group (hash_to_files st)).

Definition sorted_results (st : ScanState) : list (string * list FileInfo.t) :=
  map (fun e => (fst e, sort_desc FileInfo.size (snd e))) (scan_results st).

(** [get_summary()] on the state that [scan_directory] leaves. *)
Definition get_summary (st : ScanState) : Summary :=
  let dups := duplicates st in
  mkSummary
    (map (fun e => (fst e, mkCategorySummary (List.length (snd e))
                             (get_size (fst e) (file_sizes st)) (snd e)))
         (sorted_results st))
    (List.length dups)
    (fold_right (fun d acc => (Duplicate.duplicate_size d + acc)%Z) 0%Z dups)
    dups
    (fold_right (fun kv acc => (snd kv + acc)%Z) 0%Z (file_sizes st)).

(** [scan_directory(root_path)]; the progress reports and the printed
    lines are left out. *)
Definition scan_directory (root_path : string) : Summary :=
  get_summary (analysis root_path).

(** The files that the analysis loop records, in the order of the walk. *)
Definition info_of (root file : string) : list FileInfo.t :=
  match w_stat w Classify (Path.join root file) with
  | None => []
  | Some (file_size, _) => [FileInfo.mk file (Path.join root file) file_size root]
  end.

Definition recorded (root_path : string) : list FileInfo.t :=
  flat_map (fun step : string * list string * list string =>
              let '(root, _, files) := step in flat_map (info_of root) files)
           (walk root_path).

(** The digest under which a file enters [hash_to_files], if it does. *)
Definition hash_key (f : FileInfo.t) : option string :=
  if (1024 <? FileInfo.size f)%Z then
    match Legacy.get_file_hash H w (FileInfo.path f) with
    | Some file_hash => if nonempty file_hash then Some file_hash else None
    | None => None
    end
  else None.

(** What the loop does with one recorded file. *)
Definition record (st : ScanState) (f : FileInfo.t) : ScanState :=
  let category := classify_file re_match (FileInfo.path f) in
  mkScanState
    (setdefault_append String.eqb category f (scan_results st))
    (add_size category (FileInfo.size f) (file_sizes st))
    (match hash_key f with
     | Some file_hash => setdefault_append String.eqb file_hash f (hash_to_files st)
     | None => hash_to_files st
     end).

(** The recorded files that enter [hash_to_files], and their keys. *)
Definition hashed (f : FileInfo.t) : bool :=
  match hash_key f with Some _ => true | None => false end.

Definition hash_of (f : FileInfo.t) : string :=
  match hash_key f with Some file_hash => file_hash | None => EmptyString end.

(** The recorded files of the category [c]. *)
Definition in_category (c : string) (l : list FileInfo.t) : list FileInfo.t :=
  filter (fun f => String.eqb (classify_file re_match (FileInfo.path f)) c) l.

End Scan.

(** [a] comes before [b] in a list sorted by decreasing [key]. *)
Definition desc (A : Type) (key : A -> Z) (a b : A) : Prop := (key b <= key a)%Z.

End FileScanner.

(** ** Scenarios of the legacy scanner *)

Module LegacyCases.

(** Two equal files of 1025 bytes. *)
Definition big : list byte := repeat x41 1025.

Definition big_twins : World :=
  Examples.quiet "/data" Examples.pair_tree
    [("/data/x1.dat", big); ("/data/x2.dat", big)].

Definition x1 : FileScanner.FileInfo.t :=
  FileScanner.FileInfo.mk "x1.dat" "/data/x1.dat" 1025 "/data".
Definition x2 : FileScanner.FileInfo.t :=
  FileScanner.FileInfo.mk "x2.dat" "/data/x2.dat" 1025 "/data".

(** Their digest under [Examples.ideal]: the decimal size, then the content. *)
Definition big_digest : string :=
  string_of_list_byte (Bytes.of_string "1025" ++ big).

(** No pattern matches. *)
Definition no_match : string -> string -> bool := fun _ _ => false.

(** A directory that reports 1000 bytes less for each entry removed, with
    a regular file, a locked one, and nothing at /d/c. *)
Definition shrinking : FileScanner.Disk :=
  FileScanner.mkDisk
    (fun p =>
       if String.eqb p "/d"
       then Some (FileScanner.Directory
                    (fun removed => (4040 - 1000 * Z.of_nat (List.length removed))%Z))
       else if String.eqb p "/d/a" then Some (FileScanner.Regular 10)
       else if String.eqb p "/d/b" then Some (FileScanner.Regular 20)
       else None)
    (fun p => String.eqb p "/d/b").

Definition requests : list string := ["/d/a"; "/d/b"; "/d/a"; "/d"; "/d/c"].

End LegacyCases.
(** * Facts about the embedding *)

(** ** The embedding on the scenarios of the specification *)

Example normalize_vcf_gz :
  _normalize_extensions "/data/sample.vcf.gz" = ("vcf.gz", "GZIP", "VCF").
Proof. vm_compute. reflexivity. Qed.

Example normalize_fq : _normalize_extensions "/data/s.FQ" = ("fq", EmptyString, "FASTQ").
Proof. vm_compute. reflexivity. Qed.

Example sniff_sam_before_fastq :
  sniff_bytes (Bytes.of_string "@HD" ++ [tab_byte]) = "SAM" /\
  sniff_bytes (Bytes.of_string "@read") = "FASTQ" /\
  sniff_bytes [] = "UNKNOWN".
Proof. vm_compute. auto. Qed.

Example stem_drops_tokens :
  _base_stem "/data/raw/s1_trimmed_R1.fastq.gz" "FASTQ.GZ" = "s1".
Proof. vm_compute. reflexivity. Qed.

(** The trimmed reads are erasable given the raw reads. *)
Example scenario_trimmed :
  option_map (fun rep => map Candidate.path (erasable_candidates rep))
    (report_of (scan_directory default_scanner Examples.ideal Examples.reads
                  Examples.still "/data"))
  = Some ["/data/raw/s1_trimmed_R1.fastq.gz"].
Proof. vm_compute. reflexivity. Qed.

(** FASTA text named y.bam is the one mismatch; the SAM is erasable given
    the BAM, the BAM given the CRAM. *)
Example scenario_alignments :
  option_map (fun rep => (mismatches rep,
                          map (fun c => (Candidate.path c, Candidate.depends_on c))
                              (erasable_candidates rep)))
    (report_of (scan_directory default_scanner Examples.ideal Examples.alignments
                  Examples.still "/data"))
  = Some ([Mismatch.mk "/data/y.bam" "BAM" EmptyString "BAM" "FASTA"],
          [("/data/sample.sam", ["/data/sample.bam"]);
           ("/data/sample.bam", ["/data/sample.cram"; "<ref.fa>"])]).
Proof. vm_compute. reflexivity. Qed.

(** ** Byte buffers and the streaming loop *)

Lemma take_incl (n : Z) (l : list byte) (b : byte) :
  In b (Bytes.take n l) -> In b l.
Proof.
  revert n. induction l as [|x l IH]; intros n Hin; simpl in Hin; [destruct Hin|].
  destruct (n <=? 0)%Z; [destruct Hin|].
  destruct Hin as [<-|Hin]; [now left | right; eauto].
Qed.

Lemma drop_incl (n : Z) (l : list byte) (b : byte) :
  In b (Bytes.drop n l) -> In b l.
Proof.
  revert n. induction l as [|x l IH]; intros n Hin; simpl in Hin; [destruct Hin|].
  destruct (n <=? 0)%Z; [exact Hin | right; eauto].
Qed.

Lemma take_all (n : Z) (l : list byte) :
  (Z.of_nat (List.length l) <= n)%Z -> Bytes.take n l = l.
Proof.
  revert n. induction l as [|x l IH]; intros n Hlen; simpl; [reflexivity|].
  simpl List.length in Hlen.
  destruct (n <=? 0)%Z eqn:E; [apply Z.leb_le in E; lia|].
  f_equal. apply IH. lia.
Qed.

Lemma drop_zero (l : list byte) : Bytes.drop 0 l = l.
Proof. destruct l; reflexivity. Qed.

Lemma take_skipn (n : Z) (l : list byte) :
  Bytes.take n l ++ skipn (List.length (Bytes.take n l)) l = l.
Proof.
  revert n. induction l as [|x l IH]; intros n; simpl; [reflexivity|].
  destruct (n <=? 0)%Z; simpl; [reflexivity|]. now rewrite IH.
Qed.

Lemma in_window (lo n : Z) (content : list byte) (b : byte) :
  In b (window lo n content) -> In b content.
Proof.
  unfold window, Bytes.slice. intros Hin.
  eapply drop_incl, take_incl, Hin.
Qed.

Lemma window_all (n : Z) (content : list byte) :
  (Z.of_nat (List.length content) <= n)%Z -> window 0 n content = content.
Proof.
  intros Hlen. unfold window, Bytes.slice.
  rewrite drop_zero. now apply take_all.
Qed.

(** The reads that the platform serves. *)
Lemma f_read_all (limit : Z) (rest : list byte) : f_read limit (-1) rest = Some rest.
Proof. reflexivity. Qed.

Lemma f_read_take (limit n : Z) (rest : list byte) :
  (0 <= n <= limit)%Z -> f_read limit n rest = Some (Bytes.take n rest).
Proof.
  intros Hn. unfold f_read.
  replace (n =? -1)%Z with false by (symmetry; apply Z.eqb_neq; lia).
  replace (n <? 0)%Z with false by (symmetry; apply Z.ltb_ge; lia).
  replace (limit <? n)%Z with false by (symmetry; apply Z.ltb_ge; lia).
  reflexivity.
Qed.


Lemma f_read_some (limit n : Z) (rest chunk : list byte) :
  f_read limit n rest = Some chunk ->
  (n = -1 /\ chunk = rest)%Z \/ ((0 <= n <= limit)%Z /\ chunk = Bytes.take n rest).
Proof.
  unfold f_read. destruct (n =? -1)%Z eqn:E1.
  - apply Z.eqb_eq in E1. intros E. inversion E. now left.
  - destruct (n <? 0)%Z eqn:E2; [discriminate|].
    destruct (limit <? n)%Z eqn:E3; [discriminate|].
    apply Z.ltb_ge in E2, E3. intros E. inversion E. right. split; [lia | reflexivity].
Qed.

Lemma read_loop_nil (fuel : nat) (limit n : Z) :
  (n = -1 \/ 0 <= n <= limit)%Z -> read_loop fuel limit n [] = Some [].
Proof.
  intros Hn. destruct fuel; simpl; [reflexivity|].
  destruct Hn as [->|Hn]; [reflexivity|].
  now rewrite f_read_take.
Qed.

(** With a length that is served and is not zero the loop feeds the whole
    content, chunk after chunk. *)
Lemma read_loop_all (fuel : nat) (limit n : Z) (rest : list byte) :
  (n = -1 \/ 0 < n <= limit)%Z -> (List.length rest < fuel)%nat ->
  read_loop fuel limit n rest = Some rest.
Proof.
  intros Hn. revert rest. induction fuel as [|fuel IH]; intros rest Hlen; [lia|].
  cbn [read_loop]. destruct Hn as [->|Hn].
  - rewrite f_read_all. destruct rest as [|b rest]; [reflexivity|].
    rewrite skipn_all, read_loop_nil by (now left). simpl. now rewrite app_nil_r.
  - rewrite f_read_take by lia.
    destruct (Bytes.take n rest) as [|c cs] eqn:Ec.
    + destruct rest as [|b rest]; [reflexivity|].
      simpl in Ec. destruct (n <=? 0)%Z eqn:E0; [apply Z.leb_le in E0; lia | discriminate Ec].
    + rewrite IH.
      * cbn [option_map]. f_equal. rewrite <- Ec. apply take_skipn.
      * rewrite length_skipn. destruct rest; [discriminate Ec | simpl in *; lia].
Qed.

Lemma stream_input_all (limit n : Z) (content : list byte) :
  (n = -1 \/ 0 < n <= limit)%Z -> stream_input limit n content = Some content.
Proof. intros Hn. apply read_loop_all; [exact Hn | lia]. Qed.


Lemma stream_input_zero (limit : Z) (content : list byte) :
  (0 <= limit)%Z -> stream_input limit 0 content = Some [].
Proof.
  intros Hl. unfold stream_input. cbn [read_loop]. rewrite f_read_take by lia.
  destruct content; reflexivity.
Qed.

(** Where the loop ends without an exception and the length is not zero,
    it has fed the whole content. *)
Lemma stream_input_some (limit n : Z) (content x : list byte) :
  n <> 0%Z -> stream_input limit n content = Some x -> x = content.
Proof.
  intros Hn E.
  assert (Hserved : (n = -1 \/ 0 < n <= limit)%Z).
  { unfold stream_input in E. cbn [read_loop] in E.
    destruct (f_read limit n content) as [chunk|] eqn:F; [|discriminate].
    apply f_read_some in F. destruct F as [[-> _]|[Hr _]]; [now left | right; lia]. }
  rewrite (@stream_input_all _ _ content Hserved) in E. now inversion E.
Qed.

(** With a chunk of zero bytes every file that can be opened gets the
    digest of the empty input, whatever the digest function. *)
Lemma zero_chunk_one_digest (sc : Scanner) (H : Hashlib) (w : World) (p : string)
    (content : list byte) :
  chunk sc = 0%Z -> (0 <= w_read_max w)%Z -> w_read w Tier2 p = Some content ->
  stream_hash sc H w p = Some (sha256_hexdigest H []).
Proof.
  intros Hc Hl Hr. unfold stream_hash. now rewrite Hr, Hc, stream_input_zero.
Qed.

(** ** Folds and dictionaries *)

Lemma fold_left_inv (A B : Type) (f : A -> B -> A) (I : A -> Prop) (l : list B) :
  (forall a b, In b l -> I a -> I (f a b)) ->
  forall a, I a -> I (fold_left f l a).
Proof.
  induction l as [|b l IH]; intros Hstep a Ha; simpl.
  - exact Ha.
  - apply IH.
    + intros a' b' Hin. apply Hstep. now right.
    + apply Hstep; [now left | exact Ha].
Qed.

Section DictFacts.

Variables (K V : Type) (keqb : K -> K -> bool).

Lemma buckets_sat_nil (P : K -> V -> Prop) : buckets_sat P (@nil (K * list V)).
Proof. intros k vs []. Qed.

Lemma setdefault_append_sat (P : K -> V -> Prop) (k : K) (v : V) (d : list (K * list V)) :
  (forall k', (keqb k k' = true \/ k' = k) -> P k' v) ->
  buckets_sat P d ->
  buckets_sat P (setdefault_append keqb k v d).
Proof.
  intros Hk. induction d as [|[k' vs] d IH]; intros Hd k0 vs0 Hin v0 Hv0; simpl in Hin.
  - destruct Hin as [Heq|[]]. inversion Heq; subst.
    destruct Hv0 as [<-|[]]. apply Hk. now right.
  - destruct (keqb k k') eqn:E.
    + destruct Hin as [Heq|Hin].
      * inversion Heq; subst. apply in_app_or in Hv0.
        destruct Hv0 as [Hv0|[<-|[]]].
        -- apply (Hd k0 vs); [now left | exact Hv0].
        -- apply Hk. now left.
      * apply (Hd k0 vs0); [now right | exact Hv0].
    + destruct Hin as [Heq|Hin].
      * inversion Heq; subst. apply (Hd k0 vs0); [now left | exact Hv0].
      * apply IH with (k := k0) (vs := vs0); auto.
        intros k1 vs1 Hin1. apply Hd. now right.
Qed.

Lemma members_cons (k : K) (vs : list V) (d : list (K * list V)) :
  members ((k, vs) :: d) = vs ++ members d.
Proof. reflexivity. Qed.

Lemma setdefault_append_length (k : K) (v : V) (d : list (K * list V)) :
  List.length (members (setdefault_append keqb k v d)) = Datatypes.S (List.length (members d)).
Proof.
  induction d as [|[k' vs] d IH]; simpl.
  - reflexivity.
  - destruct (keqb k k'); rewrite !members_cons, !length_app.
    + simpl. lia.
    + rewrite IH. lia.
Qed.

Lemma in_members (x : V) (d : list (K * list V)) :
  In x (members d) <-> exists k vs, In (k, vs) d /\ In x vs.
Proof.
  unfold members. rewrite in_concat. split.
  - intros (vs & Hvs & Hx). apply in_map_iff in Hvs.
    destruct Hvs as ([k vs'] & Heq & Hin). simpl in Heq. subst.
    now exists k, vs.
  - intros (k & vs & Hin & Hx). exists vs. split; [|exact Hx].
    apply in_map_iff. now exists (k, vs).
Qed.

Lemma members_filter_length (f : K * list V -> bool) (d : list (K * list V)) :
  (List.length (members (filter f d)) <= List.length (members d))%nat.
Proof.
  induction d as [|[k vs] d IH]; simpl; [lia|].
  destruct (f (k, vs)); rewrite ?members_cons, ?length_app; lia.
Qed.

(** No bucket is ever empty. *)
Lemma setdefault_append_nonempty (k : K) (v : V) (d : list (K * list V)) :
  (forall k' vs, In (k', vs) d -> vs <> []) ->
  forall k' vs, In (k', vs) (setdefault_append keqb k v d) -> vs <> [].
Proof.
  induction d as [|[k1 vs1] d IH]; intros Hd k' vs Hin; simpl in Hin.
  - destruct Hin as [Heq|[]]. inversion Heq. discriminate.
  - destruct (keqb k k1).
    + destruct Hin as [Heq|Hin].
      * inversion Heq. destruct vs1; discriminate.
      * apply (Hd k' vs). now right.
    + destruct Hin as [Heq|Hin].
      * inversion Heq; subst. apply (Hd k' vs). now left.
      * apply IH with (k' := k'); auto. intros k2 vs2 H2. apply (Hd k2). now right.
Qed.

Lemma setdefault_append_keeps (k k0 : K) (v x : V) (d : list (K * list V)) :
  holds d k0 x -> holds (setdefault_append keqb k v d) k0 x.
Proof.
  intros (vs & Hin & Hx). induction d as [|[k' vs'] d IH]; [destruct Hin|].
  simpl. destruct (keqb k k') eqn:E.
  - destruct Hin as [Heq|Hin].
    + inversion Heq; subst. exists (vs ++ [v]). split; [now left|].
      apply in_or_app. now left.
    + exists vs. split; [now right | exact Hx].
  - destruct Hin as [Heq|Hin].
    + inversion Heq; subst. exists vs. split; [now left | exact Hx].
    + destruct (IH Hin) as (vs1 & Hin1 & Hx1). exists vs1. split; [now right | exact Hx1].
Qed.

Lemma setdefault_append_adds (k : K) (v : V) (d : list (K * list V)) :
  (forall k', keqb k k' = true -> k' = k) ->
  holds (setdefault_append keqb k v d) k v.
Proof.
  intros Hk. induction d as [|[k' vs'] d IH]; simpl.
  - exists [v]. split; now left.
  - destruct (keqb k k') eqn:E.
    + apply Hk in E. subst k'. exists (vs' ++ [v]). split; [now left|].
      apply in_or_app. right. now left.
    + destruct IH as (vs & Hin & Hv). exists vs. split; [now right | exact Hv].
Qed.

End DictFacts.

(** ** Sorting keeps the elements *)

Lemma insert_path_perm (x : string) (l : list string) :
  Permutation (insert_path x l) (x :: l).
Proof.
  induction l as [|y l IH]; simpl.
  - apply Permutation_refl.
  - destruct (String.leb x y).
    + apply Permutation_refl.
    + eapply perm_trans; [apply perm_skip, IH | apply perm_swap].
Qed.

Lemma sorted_perm (l : list string) : Permutation (sorted l) l.
Proof.
  induction l as [|x l IH]; simpl.
  - apply perm_nil.
  - eapply perm_trans; [apply insert_path_perm | now apply perm_skip].
Qed.

Lemma insert_dup_perm (x : DupGroup.t) (l : list DupGroup.t) :
  Permutation (insert_dup x l) (x :: l).
Proof.
  induction l as [|y l IH]; simpl.
  - apply Permutation_refl.
  - destruct (dup_before x y).
    + apply Permutation_refl.
    + eapply perm_trans; [apply perm_skip, IH | apply perm_swap].
Qed.

Lemma sort_dups_perm (l : list DupGroup.t) : Permutation (sort_dups l) l.
Proof.
  unfold sort_dups.
  assert (G : forall acc, Permutation (fold_left (fun a x => insert_dup x a) l acc) (acc ++ l)).
  { induction l as [|x l IH]; intros acc; simpl.
    - rewrite app_nil_r. apply Permutation_refl.
    - eapply perm_trans; [apply IH|].
      eapply perm_trans; [apply Permutation_app_tail, insert_dup_perm|].
      simpl. apply Permutation_middle. }
  apply (G []).
Qed.

(** ** What each tier keeps *)

Section TierFacts.

Variables (sc : Scanner) (H : Hashlib) (w : World).

Lemma Zeqb_key (k k' : Z) : (k =? k')%Z = true \/ k' = k -> k' = k.
Proof. intros [E| ->]; [apply Z.eqb_eq in E; now subst | reflexivity]. Qed.

Lemma key2_eqb_key (k k' : Z * string) : key2_eqb k k' = true \/ k' = k -> k' = k.
Proof.
  intros [E| ->]; [|reflexivity]. unfold key2_eqb in E.
  apply andb_true_iff in E. destruct E as [E1 E2].
  apply Z.eqb_eq in E1. apply String.eqb_eq in E2.
  destruct k, k'; simpl in *; now subst.
Qed.

Lemma String_eqb_key (k k' : string) : String.eqb k k' = true \/ k' = k -> k' = k.
Proof. intros [E| ->]; [apply String.eqb_eq in E; now subst | reflexivity]. Qed.

(** Tier 0 buckets hold files of the table, of the positive size of the key. *)
Lemma tier0_sat (metas : list FileMeta) :
  buckets_sat (fun k m => In m metas /\ size m = k /\ (0 < k)%Z) (tier0 metas).
Proof.
  unfold tier0. apply fold_left_inv.
  - intros d m Hin Hd. destruct (0 <? size m)%Z eqn:E; [|exact Hd].
    apply setdefault_append_sat; [|exact Hd].
    intros k' Hk. apply Zeqb_key in Hk. subst k'.
    apply Z.ltb_lt in E. auto.
  - apply buckets_sat_nil.
Qed.

(** Tier 1 buckets hold files of surviving Tier 0 buckets, keyed by the
    size of that bucket and by their fingerprint key. *)
Lemma tier1_sat (by_size : list (Z * list FileMeta)) :
  buckets_sat
    (fun k m => snd k = fp_key H w m /\
                exists group, In (fst k, group) by_size /\
                              (2 <= List.length group)%nat /\ In m group)
    (tier1 H w by_size).
Proof.
  unfold tier1. apply fold_left_inv.
  - intros d [sz group] Hin Hd.
    destruct (List.length group <? 2)%nat eqn:E; [exact Hd|].
    apply Nat.ltb_ge in E.
    assert (G : forall l, incl l group -> forall d0,
      buckets_sat (fun k m => snd k = fp_key H w m /\
                     exists group, In (fst k, group) by_size /\
                                   (2 <= List.length group)%nat /\ In m group) d0 ->
      buckets_sat (fun k m => snd k = fp_key H w m /\
                     exists group, In (fst k, group) by_size /\
                                   (2 <= List.length group)%nat /\ In m group)
        (fold_left (fun by_fp m => setdefault_append key2_eqb (sz, fp_key H w m) m by_fp) l d0)).
    { intros l Hl d0 Hd0. apply fold_left_inv; [|exact Hd0].
      intros d1 m Hm Hd1. apply setdefault_append_sat; [|exact Hd1].
      intros k' Hk. apply key2_eqb_key in Hk. subst k'. simpl.
      split; [reflexivity|]. exists group. auto. }
    apply G; [apply incl_refl | exact Hd].
  - apply buckets_sat_nil.
Qed.

(** Tier 2 groups hold files of surviving Tier 1 buckets whose streaming
    digest was computed and is the key. *)
Lemma tier2_sat (by_fp : list (Z * string * list FileMeta)) :
  buckets_sat
    (fun sha m => stream_hash sc H w (path m) = Some sha /\
                  exists k bucket, In (k, bucket) by_fp /\
                                   (2 <= List.length bucket)%nat /\ In m bucket)
    (tier2 sc H w by_fp).
Proof.
  unfold tier2. apply fold_left_inv.
  - intros d [k bucket] Hin Hd.
    destruct (List.length bucket <? 2)%nat eqn:E; [exact Hd|].
    apply Nat.ltb_ge in E.
    assert (G : forall l, incl l bucket -> forall d0,
      buckets_sat (fun sha m => stream_hash sc H w (path m) = Some sha /\
                     exists k bucket, In (k, bucket) by_fp /\
                                      (2 <= List.length bucket)%nat /\ In m bucket) d0 ->
      buckets_sat (fun sha m => stream_hash sc H w (path m) = Some sha /\
                     exists k bucket, In (k, bucket) by_fp /\
                                      (2 <= List.length bucket)%nat /\ In m bucket)
        (fold_left (tier2_add sc H w) l d0)).
    { intros l Hl d0 Hd0. apply fold_left_inv; [|exact Hd0].
      intros d1 m Hm Hd1. unfold tier2_add.
      destruct (stream_hash sc H w (path m)) as [sha|] eqn:Es; [|exact Hd1].
      apply setdefault_append_sat; [|exact Hd1].
      intros k' Hk. apply String_eqb_key in Hk. subst k'.
      split; [exact Es|]. exists k, bucket. auto. }
    apply G; [apply incl_refl | exact Hd].
  - apply buckets_sat_nil.
Qed.

(** Tier 1 stores every file of a surviving size bucket under the size of
    the bucket and the fingerprint key of the file. *)
Lemma tier1_complete (by_size : list (Z * list FileMeta)) (sz : Z)
    (group : list FileMeta) (m : FileMeta) :
  In (sz, group) by_size -> (2 <= List.length group)%nat -> In m group ->
  holds (tier1 H w by_size) (sz, fp_key H w m) m.
Proof.
  unfold tier1.
  set (inner := fun (s : Z) (by_fp : list (Z * string * list FileMeta)) (g : list FileMeta) =>
                  fold_left (fun by_fp m0 =>
                     setdefault_append key2_eqb (s, fp_key H w m0) m0 by_fp) g by_fp).
  assert (Hkeep_in : forall s g d k x, holds d k x -> holds (inner s d g) k x).
  { intros s g. induction g as [|m0 g IH]; intros d k x Hd; simpl; [exact Hd|].
    apply IH. now apply setdefault_append_keeps. }
  assert (Hadd_in : forall s g d x, In x g -> holds (inner s d g) (s, fp_key H w x) x).
  { intros s g. induction g as [|m0 g IH]; intros d x Hx; [destruct Hx|].
    simpl. destruct Hx as [<-|Hx].
    - apply Hkeep_in. apply setdefault_append_adds.
      intros k' E. apply key2_eqb_key. now left.
    - now apply IH. }
  assert (Hkeep : forall l d k x, holds d k x ->
            holds (fold_left (fun by_fp '(s, g) =>
                     if (List.length g <? 2)%nat then by_fp else inner s by_fp g) l d) k x).
  { induction l as [|[s g] l IH]; intros d k x Hd; simpl; [exact Hd|].
    apply IH. destruct (List.length g <? 2)%nat; [exact Hd | now apply Hkeep_in]. }
  assert (Hall : forall l d, In (sz, group) l -> (2 <= List.length group)%nat -> In m group ->
            holds (fold_left (fun by_fp '(s, g) =>
                     if (List.length g <? 2)%nat then by_fp else inner s by_fp g) l d)
                  (sz, fp_key H w m) m).
  { induction l as [|[s g] l IH]; intros d Hin Hlen Hm; [destruct Hin|].
    simpl. destruct Hin as [Heq|Hin].
    - inversion Heq; subst. apply Hkeep.
      destruct (List.length group <? 2)%nat eqn:E; [apply Nat.ltb_lt in E; lia|].
      now apply Hadd_in.
    - now apply IH. }
  intros Hin Hlen Hm. now apply (Hall by_size []).
Qed.

(** A member of a final group, traced back through the three tiers. *)
Lemma groups_of_sat (metas : list FileMeta) :
  buckets_sat
    (fun sha m => stream_hash sc H w (path m) = Some sha /\ In m metas /\
                  exists bucket, In (size m, fp_key H w m, bucket) (tier1 H w (tier0 metas)) /\
                                 (2 <= List.length bucket)%nat /\ In m bucket)
    (groups_of sc H w metas).
Proof.
  intros sha group Hin m Hm.
  destruct (tier2_sat (tier1 H w (tier0 metas)) _ _ Hin _ Hm)
    as (Hs & [sz fp] & bucket & Hb & Hlen & Hmb).
  destruct (tier1_sat (tier0 metas) _ _ Hb _ Hmb) as (Hfp & group0 & Hg0 & _ & Hmg0).
  destruct (tier0_sat metas _ _ Hg0 _ Hmg0) as (Hmetas & Hsz & _).
  simpl in Hfp, Hsz. subst sz fp.
  split; [exact Hs|]. split; [exact Hmetas|]. now exists bucket.
Qed.

(** Counting files through the tiers. *)

Lemma tier0_length (metas : list FileMeta) :
  (List.length (members (tier0 metas)) <= List.length metas)%nat.
Proof.
  unfold tier0.
  assert (G : forall l d,
    (List.length (members (fold_left
       (fun by_size m => if (0 <? size m)%Z
                         then setdefault_append Z.eqb (size m) m by_size else by_size) l d))
     <= List.length (members d) + List.length l)%nat).
  { induction l as [|m l IH]; intros d; simpl; [lia|].
    eapply Nat.le_trans; [apply IH|].
    destruct (0 <? size m)%Z; [rewrite setdefault_append_length|]; lia. }
  apply (G metas []).
Qed.

Lemma tier1_inner_length (sz : Z) (group : list FileMeta) (d : list (Z * string * list FileMeta)) :
  List.length (members (fold_left
     (fun by_fp m => setdefault_append key2_eqb (sz, fp_key H w m) m by_fp) group d))
  = (List.length (members d) + List.length group)%nat.
Proof.
  revert d. induction group as [|m group IH]; intros d; simpl; [lia|].
  rewrite IH, setdefault_append_length. lia.
Qed.

(** Tier 1 hashes exactly the files of the surviving size buckets. *)
Lemma tier1_length (by_size : list (Z * list FileMeta)) :
  List.length (members (tier1 H w by_size)) = files_in by_size.
Proof.
  unfold tier1, files_in.
  assert (G : forall l d,
    List.length (members (fold_left
      (fun by_fp '(sz, group) =>
         if (List.length group <? 2)%nat then by_fp
         else fold_left (fun by_fp m =>
                setdefault_append key2_eqb (sz, fp_key H w m) m by_fp) group by_fp) l d))
    = (List.length (members d) + List.length (members (filter (@big _ _) l)))%nat).
  { induction l as [|[sz group] l IH]; intros d; simpl; [lia|].
    rewrite IH. unfold big at 2. simpl.
    destruct (List.length group <? 2)%nat; simpl.
    - reflexivity.
    - rewrite tier1_inner_length, members_cons, length_app. lia. }
  apply (G by_size []).
Qed.

Lemma tier2_inner_length (bucket : list FileMeta) (d : list (string * list FileMeta)) :
  (List.length (members (fold_left (tier2_add sc H w) bucket d))
   <= List.length (members d) + List.length bucket)%nat.
Proof.
  revert d. induction bucket as [|m bucket IH]; intros d; simpl; [lia|].
  eapply Nat.le_trans; [apply IH|]. unfold tier2_add.
  destruct (stream_hash sc H w (path m)); [rewrite setdefault_append_length|]; lia.
Qed.

(** Tier 2 digests at most the files of the surviving Tier 1 buckets. *)
Lemma tier2_length (by_fp : list (Z * string * list FileMeta)) :
  (List.length (members (tier2 sc H w by_fp)) <= files_in by_fp)%nat.
Proof.
  unfold tier2, files_in.
  assert (G : forall (l : list (Z * string * list FileMeta))
                     (d : list (string * list FileMeta)),
    (List.length (members (fold_left
      (fun groups '(_, bucket) =>
         if (List.length bucket <? 2)%nat then groups
         else fold_left (tier2_add sc H w) bucket groups) l d))
    <= List.length (members d) + List.length (members (filter (@big _ _) l)))%nat).
  { induction l as [|[k bucket] l IH]; intros d; simpl; [lia|].
    eapply Nat.le_trans; [apply IH|]. unfold big at 2. simpl.
    destruct (List.length bucket <? 2)%nat; simpl.
    - lia.
    - rewrite members_cons, length_app.
      pose proof (tier2_inner_length bucket d). lia. }
  apply (G by_fp []).
Qed.

End TierFacts.

(** ** The duplicate groups of the report *)

Section DupFacts.

Variables (sc : Scanner) (H : Hashlib) (w : World).

(** Every reported group is a final group of two files or more. *)
Lemma in_dup_out (metas : list FileMeta) (g : DupGroup.t) :
  In g (dup_out sc H w metas) ->
  exists group g0,
    In (DupGroup.sha256 g, group) (groups_of sc H w metas) /\
    In g0 group /\
    (2 <= List.length group)%nat /\
    g = DupGroup.mk (DupGroup.sha256 g) (size g0 * Z.of_nat (List.length group))%Z
                    (List.length group) (sorted (map path group)).
Proof.
  intros Hin. unfold dup_out in Hin.
  apply (Permutation_in _ (sort_dups_perm _)) in Hin.
  apply in_flat_map in Hin. destruct Hin as ([sha group] & Hg & Hin).
  unfold dup_entry in Hin.
  destruct (List.length group <? 2)%nat eqn:E; [destruct Hin|].
  apply Nat.ltb_ge in E.
  destruct group as [|g0 rest]; [destruct Hin|].
  destruct Hin as [<-|[]]. simpl.
  exists (g0 :: rest), g0. repeat split; auto. now left.
Qed.

(** A path listed in a reported group belongs to a file of the table that
    went through both tiers. *)
Lemma dup_out_member (metas : list FileMeta) (g : DupGroup.t) (p : string) :
  In g (dup_out sc H w metas) -> In p (DupGroup.files g) ->
  exists m bucket,
    In m metas /\ path m = p /\
    stream_hash sc H w p = Some (DupGroup.sha256 g) /\
    In (size m, fp_key H w m, bucket) (tier1 H w (tier0 metas)) /\
    (2 <= List.length bucket)%nat /\ In m bucket.
Proof.
  intros Hg Hp. destruct (in_dup_out _ _ Hg) as (group & g0 & Hgr & _ & _ & Eg).
  rewrite Eg in Hp. simpl in Hp.
  apply (Permutation_in _ (sorted_perm _)) in Hp.
  apply in_map_iff in Hp. destruct Hp as (m & <- & Hm).
  destruct (groups_of_sat sc H w metas _ _ Hgr _ Hm) as (Hs & Hmetas & bucket & Hb & Hlen & Hmb).
  exists m, bucket. auto 7.
Qed.

(** Tier 2 drops a file whose streaming digest fails. *)
Lemma stream_failure_dropped (metas : list FileMeta) (g : DupGroup.t) (p : string) :
  stream_hash sc H w p = None ->
  In g (dup_out sc H w metas) -> ~ In p (DupGroup.files g).
Proof.
  intros Hnone Hg Hp.
  destruct (dup_out_member _ _ _ Hg Hp) as (m & b & _ & _ & Hs & _).
  rewrite Hnone in Hs. discriminate.
Qed.

Lemma list_sum_perm (l l' : list nat) : Permutation l l' -> list_sum l = list_sum l'.
Proof. induction 1; simpl; lia. Qed.

(** The counts of the reported groups add up to the files of the final
    groups of two or more. *)
Lemma dup_out_total (metas : list FileMeta) :
  list_sum (map DupGroup.count (dup_out sc H w metas)) = files_in (groups_of sc H w metas).
Proof.
  unfold dup_out.
  rewrite (list_sum_perm (Permutation_map DupGroup.count (sort_dups_perm _))).
  unfold files_in. induction (groups_of sc H w metas) as [|[sha group] d IH]; simpl.
  - reflexivity.
  - rewrite map_app, list_sum_app, IH. unfold big at 2. simpl.
    destruct (List.length group <? 2)%nat eqn:E; simpl.
    + reflexivity.
    + rewrite members_cons, length_app.
      destruct group; simpl in *; [discriminate | lia].
Qed.

End DupFacts.

(** ** Digests that tell sizes apart *)

(** On an unchanged tree, a digest without collisions and a chunk size
    other than zero keep files of different sizes apart. *)
Lemma stable_sizes_separate (sc : Scanner) (H : Hashlib) (w : World) (rep : Report) :
  chunk sc <> 0%Z ->
  (forall a b, sha256_hexdigest H a = sha256_hexdigest H b -> a = b) ->
  (forall f content, In f (files rep) -> w_read w Tier2 (FileRec.path f) = Some content ->
                     Z.of_nat (List.length content) = FileRec.size f) ->
  digest_separates_sizes sc H w rep.
Proof.
  intros Hchunk Hinj Hlen f f' h Hf Hf' E E'. unfold stream_hash in E, E'.
  destruct (w_read w Tier2 (FileRec.path f)) as [c|] eqn:R; [|discriminate].
  destruct (w_read w Tier2 (FileRec.path f')) as [c'|] eqn:R'; [|discriminate].
  destruct (stream_input (w_read_max w) (chunk sc) c) as [x|] eqn:S; [|discriminate].
  destruct (stream_input (w_read_max w) (chunk sc) c') as [x'|] eqn:S'; [|discriminate].
  apply (@stream_input_some _ _ _ _ Hchunk) in S, S'. subst x x'. simpl in E, E'.
  assert (Ec : c = c') by (apply Hinj; congruence).
  rewrite <- (Hlen f c Hf R), <- (Hlen f' c' Hf' R'). now rewrite Ec.
Qed.

Lemma ideal_injective (a b : list byte) :
  sha256_hexdigest Examples.ideal a = sha256_hexdigest Examples.ideal b -> a = b.
Proof.
  simpl. intros E.
  rewrite <- (list_byte_of_string_of_list_byte a), <- (list_byte_of_string_of_list_byte b).
  now rewrite E.
Qed.

(** ** The walk *)

Lemma classify_some (w : World) (p : string) (m : FileMeta) :
  classify w p = Some m ->
  path m = p /\ header_type m = sniff_header w p /\
  w_stat w Classify p = Some (size m, mtime_ns m).
Proof.
  unfold classify. destruct (w_stat w Classify p) as [[sz mt]|]; [|discriminate].
  destruct (_normalize_extensions p) as [[ef ec] el].
  intros E. inversion E; subst; clear E. simpl. auto.
Qed.

Lemma classify_total (w : World) (p : string) :
  w_stat w Classify p <> None -> exists m, classify w p = Some m.
Proof.
  unfold classify. destruct (w_stat w Classify p) as [[sz mt]|]; [|congruence].
  destruct (_normalize_extensions p) as [[ef ec] el]. intros _. eexists. reflexivity.
Qed.

(** Every entry of the table is the classification of a listed file. *)
Lemma collect_metas_in (sc : Scanner) (w : World) (root : string) (t : tree) (m : FileMeta) :
  In m (collect_metas sc w root t) ->
  exists dirpath ds fns fn,
    In (dirpath, ds, fns) (os_walk root t) /\ In fn fns /\
    classify w (Path.join dirpath fn) = Some m.
Proof.
  unfold collect_metas. destruct (_cancel sc); [intros []|].
  intros Hin. apply in_flat_map in Hin. destruct Hin as ([[dirpath ds] fns] & Hstep & Hin).
  unfold walk_dir in Hin. apply in_flat_map in Hin. destruct Hin as (fn & Hfn & Hin).
  destruct (classify w (Path.join dirpath fn)) as [m'|] eqn:E; [|destruct Hin].
  destruct Hin as [<-|[]]. now exists dirpath, ds, fns, fn.
Qed.

(** Without cancellation every listed file that classifies is in the table. *)
Lemma collect_metas_complete (sc : Scanner) (w : World) (root : string) (t : tree)
    (dirpath : string) (ds fns : list string) (fn : string) (m : FileMeta) :
  _cancel sc = false ->
  In (dirpath, ds, fns) (os_walk root t) -> In fn fns ->
  classify w (Path.join dirpath fn) = Some m ->
  In m (collect_metas sc w root t).
Proof.
  intros Hc Hstep Hfn E. unfold collect_metas. rewrite Hc.
  apply in_flat_map. exists (dirpath, ds, fns). split; [exact Hstep|].
  unfold walk_dir. apply in_flat_map. exists fn. split; [exact Hfn|].
  rewrite E. now left.
Qed.

(** ** The report, field by field *)

Lemma scan_returned (sc : Scanner) (H : Hashlib) (w : World) (mt : Meter)
    (root : string) (rep : Report) :
  scan_directory sc H w mt root = Returned rep ->
  exists t, w_tree w root = Some t /\
    n_files rep = List.length (collect_metas sc w root t) /\
    stats rep = scan_stats sc mt (List.length (os_walk root t)) /\
    mismatches rep = mismatches_of sc (collect_metas sc w root t) /\
    files rep = map file_rec (collect_metas sc w root t) /\
    duplicate_groups rep = dup_out sc H w (collect_metas sc w root t) /\
    erasable_candidates rep = erasable_of (map file_rec (collect_metas sc w root t)).
Proof.
  unfold scan_directory. destruct (w_tree w root) as [t|]; [|discriminate].
  intros E. inversion E; subst; clear E. exists t. simpl. auto 8.
Qed.

(** The entries of [files] come from the table, one by one. *)
Lemma files_of_scan (sc : Scanner) (H : Hashlib) (w : World) (mt : Meter)
    (root : string) (rep : Report) (f : FileRec.t) :
  scan_directory sc H w mt root = Returned rep -> In f (files rep) ->
  exists m, f = file_rec m /\
            w_stat w Classify (path m) = Some (size m, mtime_ns m) /\
            header_type m = sniff_header w (path m).
Proof.
  intros Hscan Hf.
  destruct (scan_returned _ _ _ _ _ Hscan) as (t & _ & _ & _ & _ & Hfiles & _).
  rewrite Hfiles in Hf. apply in_map_iff in Hf. destruct Hf as (m & <- & Hm).
  destruct (collect_metas_in _ _ _ _ _ Hm) as (d & ds & fns & fn & _ & _ & E).
  destruct (classify_some _ _ E) as (Ep & Eh & Es).
  exists m. rewrite Ep. auto.
Qed.

(** ** Mismatch records *)

Lemma mismatch_of_path (sc : Scanner) (m : FileMeta) (r : Mismatch.t) :
  In r (mismatch_of sc m) -> Mismatch.path r = path m.
Proof.
  unfold mismatch_of.
  destruct (Str.mem (Str.upper (header_type m)) ["UNKNOWN"; EmptyString]); [intros []|].
  match goal with |- In r (if ?c then _ else _) -> _ => destruct c end; [intros []|].
  match goal with |- In r (if ?c then _ else _) -> _ => destruct c end; [|intros []].
  intros [<-|[]]. reflexivity.
Qed.

Lemma mismatch_of_unknown (sc : Scanner) (m : FileMeta) :
  header_type m = "UNKNOWN" -> mismatch_of sc m = [].
Proof. unfold mismatch_of. intros ->. reflexivity. Qed.

Lemma mem_containers (s : string) :
  Str.mem s BIO_CONTAINERS = true -> s = "GZIP" \/ s = "BGZF".
Proof.
  unfold Str.mem, BIO_CONTAINERS. simpl. rewrite orb_false_r.
  intros E. apply orb_true_iff in E.
  destruct E as [E|E]; apply String.eqb_eq in E; auto.
Qed.

(** ** Erasable candidates *)

Lemma by_sample_sat (files_out : list FileRec.t) :
  buckets_sat (fun _ rec => In rec files_out) (by_sample files_out).
Proof.
  unfold by_sample. apply fold_left_inv.
  - intros d rec Hin Hd. apply setdefault_append_sat; [|exact Hd]. intros; exact Hin.
  - apply buckets_sat_nil.
Qed.

Lemma rule_sam_path (items : list FileRec.t) (c : Candidate.t) :
  In c (rule_sam items) -> exists x, In x items /\ FileRec.path x = Candidate.path c.
Proof.
  unfold rule_sam.
  match goal with |- In c (if ?b then _ else _) -> _ => destruct b end; [|intros []].
  intros Hin. apply in_flat_map in Hin. destruct Hin as (x & Hx & Hc).
  exists x. split; [exact Hx|].
  destruct (_has x "SAM"); [|destruct Hc].
  destruct (existsb (fun x0 => _has x0 "BAM") items).
  - destruct (find (fun y => _has y "BAM") items); [|destruct Hc].
    destruct Hc as [<-|[]]. reflexivity.
  - destruct (find (fun y => _has y "CRAM") items); [|destruct Hc].
    destruct Hc as [<-|[]]. reflexivity.
Qed.

Lemma rule_bam_path (items : list FileRec.t) (c : Candidate.t) :
  In c (rule_bam items) -> exists x, In x items /\ FileRec.path x = Candidate.path c.
Proof.
  unfold rule_bam.
  match goal with |- In c (if ?b then _ else _) -> _ => destruct b end; [|intros []].
  destruct (find (fun y => _has y "CRAM") items); [|intros []].
  intros Hin. apply in_map_iff in Hin. destruct Hin as (b & <- & Hb).
  apply filter_In in Hb. exists b. split; [tauto | reflexivity].
Qed.

Lemma rule_sra_path (items : list FileRec.t) (c : Candidate.t) :
  In c (rule_sra items) -> exists x, In x items /\ FileRec.path x = Candidate.path c.
Proof.
  unfold rule_sra.
  match goal with |- In c (if ?b then _ else _) -> _ => destruct b end; [|intros []].
  unfold PREFER_SRA_OVER_FASTQ.
  destruct (find is_sra items) as [sra|] eqn:E; [|intros []].
  intros [<-|[]]. apply find_some in E. exists sra. split; [tauto | reflexivity].
Qed.

Lemma rule_trimmed_path (items : list FileRec.t) (c : Candidate.t) :
  In c (rule_trimmed items) -> exists x, In x items /\ FileRec.path x = Candidate.path c.
Proof.
  unfold rule_trimmed.
  destruct (filter (fun fq => negb (is_trimmed fq)) (fastqs_of items)) as [|raw0 raws]; [intros []|].
  destruct (filter is_trimmed (fastqs_of items)) as [|t0 ts] eqn:E; [intros []|].
  intros Hin. apply in_map_iff in Hin. destruct Hin as (tfq & <- & Ht).
  rewrite <- E in Ht. apply filter_In in Ht. destruct Ht as [Ht _].
  unfold fastqs_of in Ht. apply filter_In in Ht.
  exists tfq. split; [tauto | reflexivity].
Qed.

Lemma group_candidates_path (items : list FileRec.t) (c : Candidate.t) :
  In c (group_candidates items) ->
  exists x, In x items /\ FileRec.path x = Candidate.path c.
Proof.
  unfold group_candidates. intros Hin.
  repeat (apply in_app_or in Hin; destruct Hin as [Hin|Hin]);
    eauto using rule_sam_path, rule_bam_path, rule_sra_path, rule_trimmed_path.
Qed.

Lemma erasable_of_path (files_out : list FileRec.t) (c : Candidate.t) :
  In c (erasable_of files_out) ->
  exists f, In f files_out /\ FileRec.path f = Candidate.path c.
Proof.
  unfold erasable_of. intros Hin.
  apply in_flat_map in Hin. destruct Hin as ([stem items] & Hg & Hc).
  destruct (group_candidates_path _ _ Hc) as (x & Hx & Ex).
  exists x. split; [|exact Ex].
  exact (by_sample_sat files_out _ _ Hg _ Hx).
Qed.

(** Rule 3 under the default policy: one candidate, for the first file
    whose extension ends in SRA, that depends on every FASTQ of the group. *)
Lemma rule_sra_default (items : list FileRec.t) :
  existsb is_sra items = true -> fastqs_of items <> [] ->
  exists sra,
    find is_sra items = Some sra /\ In sra items /\ is_sra sra = true /\
    rule_sra items = [sra_candidate sra (fastqs_of items)].
Proof.
  intros Hsra Hfq. unfold rule_sra. rewrite Hsra.
  destruct (fastqs_of items) as [|fq fqs] eqn:E; [congruence|].
  simpl. unfold PREFER_SRA_OVER_FASTQ.
  apply existsb_exists in Hsra. destruct Hsra as (x & Hx & Hxs).
  destruct (find is_sra items) as [sra|] eqn:F.
  - exists sra. apply find_some in F. destruct F as [F1 F2]. auto.
  - exfalso. apply (find_none _ _ F) in Hx. congruence.
Qed.

Lemma nodup_map_inj (A B : Type) (f : A -> B) (l : list A) (x y : A) :
  NoDup (map f l) -> In x l -> In y l -> f x = f y -> x = y.
Proof.
  induction l as [|a l IH]; intros Hnd Hx Hy E; [destruct Hx|].
  simpl in Hnd. inversion Hnd as [|? ? Hout Hnd']; subst.
  destruct Hx as [<-|Hx], Hy as [<-|Hy]; auto.
  - exfalso. apply Hout. rewrite E. now apply in_map.
  - exfalso. apply Hout. rewrite <- E. now apply in_map.
Qed.

(** When no file named as an SRA counts as a FASTQ and paths are not
    repeated, rule 3 proposes no FASTQ of the group. *)
Lemma rule_sra_spares_fastq (items : list FileRec.t) (c : Candidate.t) (fq : FileRec.t) :
  (forall x, In x items -> is_sra x = true -> _has x "FASTQ" = false) ->
  NoDup (map FileRec.path items) ->
  In c (rule_sra items) -> In fq (fastqs_of items) ->
  FileRec.path fq <> Candidate.path c.
Proof.
  intros Hdisj Hnd Hc Hfq E.
  unfold fastqs_of in Hfq. apply filter_In in Hfq. destruct Hfq as [Hfq Hhas].
  unfold rule_sra in Hc.
  match type of Hc with In c (if ?b then _ else _) => destruct b; [|destruct Hc] end.
  unfold PREFER_SRA_OVER_FASTQ in Hc.
  destruct (find is_sra items) as [sra|] eqn:F; [|destruct Hc].
  destruct Hc as [<-|[]]. simpl in E.
  apply find_some in F. destruct F as [F1 F2].
  assert (fq = sra) by (eapply nodup_map_inj; eauto). subst fq.
  rewrite (Hdisj sra F1 F2) in Hhas. discriminate.
Qed.

(** ** Closure *)

(** The derived outputs of a scan name files of [files] only. *)
Lemma scan_report_closed (sc : Scanner) (H : Hashlib) (w : World) (mt : Meter)
    (root : string) (rep : Report) :
  scan_directory sc H w mt root = Returned rep -> Stated.report_closed rep.
Proof.
  intros Hscan.
  destruct (scan_returned _ _ _ _ _ Hscan) as (t & _ & _ & _ & Hmis & Hfiles & Hdups & Hera).
  unfold Stated.report_closed. rewrite Hmis, Hfiles, Hdups, Hera.
  split; [|split].
  - intros r Hr. unfold mismatches_of in Hr. apply in_flat_map in Hr.
    destruct Hr as (m & Hm & Hr). exists (file_rec m).
    split; [now apply in_map|]. simpl. symmetry. now apply mismatch_of_path with sc.
  - intros g p Hg Hp.
    destruct (dup_out_member _ _ _ _ _ _ Hg Hp) as (m & b & Hm & Ep & _).
    exists (file_rec m). split; [now apply in_map | exact Ep].
  - intros c Hc. now apply erasable_of_path.
Qed.

(** * The statements, one by one *)

(** ** The root of the scan (C1) *)




(** ** Files that cannot be read (C2) *)

(** C2, counterexample: [stat] succeeds on the file and [open] fails;
    [sniff_header] answers UNKNOWN and the file is listed in [files]. *)
Lemma C2_unopenable_file_is_listed :
  ~ Stated.unreadable_excluded
      default_scanner Examples.ideal Examples.locked Examples.still "/data".
Proof.
  intros Hc.
  apply (Hc Examples.locked_tree Examples.locked_report "/data" [] ["locked.bam"] "locked.bam"
            eq_refl)
    with (f := FileRec.mk "/data/locked.bam" 4 "UNKNOWN" "BAM" EmptyString "BAM").
  - vm_compute. reflexivity.
  - simpl. now left.
  - now left.
  - right. reflexivity.
  - simpl. now left.
  - reflexivity.
Qed.

(** C2, amended: a file on which [stat] fails is in no output of the
    report; a file on which only [open] or [read] fails stays in [files]
    with the header UNKNOWN and is no mismatch; the scan goes on, and
    every listed file on which [stat] succeeds is in [files]. *)
Theorem C2_unreadable_files (sc : Scanner) (H : Hashlib) (w : World) (mt : Meter)
    (root : string) (rep : Report) :
  scan_directory sc H w mt root = Returned rep -> unreadable_fate sc w root rep.
Proof.
  intros Hscan.
  assert (Hstat : forall p, w_stat w Classify p = None ->
                  forall f, In f (files rep) -> FileRec.path f <> p).
  { intros p Hp f Hf Ef.
    destruct (@files_of_scan _ _ _ _ _ _ _ Hscan Hf) as (m & -> & Es & _).
    simpl in Ef. rewrite Ef, Hp in Es. discriminate. }
  destruct (scan_report_closed _ _ _ _ _ Hscan) as (Cm & Cd & Ce).
  split; [|split].
  - intros p Hp. split; [now apply Hstat|]. split; [|split].
    + intros r Hr Er. destruct (Cm r Hr) as (f & Hf & Ef).
      apply (Hstat p Hp f Hf). congruence.
    + intros g Hg Hin. destruct (Cd g p Hg Hin) as (f & Hf & Ef).
      now apply (Hstat p Hp f Hf).
    + intros c Hc Ec. destruct (Ce c Hc) as (f & Hf & Ef).
      apply (Hstat p Hp f Hf). congruence.
  - intros p Hp. split.
    + intros f Hf Ef.
      destruct (@files_of_scan _ _ _ _ _ _ _ Hscan Hf) as (m & -> & _ & Eh).
      simpl in *. rewrite Eh, Ef. unfold sniff_header. now rewrite Hp.
    + intros r Hr Er.
      destruct (scan_returned _ _ _ _ _ Hscan) as (t & _ & _ & _ & Hmis & _).
      rewrite Hmis in Hr. unfold mismatches_of in Hr. apply in_flat_map in Hr.
      destruct Hr as (m & Hm & Hr).
      destruct (collect_metas_in _ _ _ _ _ Hm) as (d & ds & fns & fn & _ & _ & E).
      destruct (classify_some _ _ E) as (Ep & Eh & _).
      rewrite mismatch_of_unknown in Hr; [destruct Hr|].
      rewrite Eh. unfold sniff_header.
      rewrite (mismatch_of_path _ _ _ Hr) in Er.
      rewrite Ep in Er. rewrite Er. now rewrite Hp.
  - intros Hc t dirpath ds fns fn Ht Hstep Hfn Hs.
    destruct (classify_total w _ Hs) as (m & E).
    destruct (scan_returned _ _ _ _ _ Hscan) as (t' & Ht' & _ & _ & _ & Hfiles & _).
    rewrite Ht in Ht'. inversion Ht'; subst t'.
    exists (file_rec m). split.
    + rewrite Hfiles. apply in_map. eapply collect_metas_complete; eauto.
    + simpl. now destruct (classify_some _ _ E) as (Ep & _).
Qed.

(** C2, witness: the directory whose one file cannot be opened. *)
Lemma C2_unreadable_files_witness :
  scan_directory default_scanner Examples.ideal Examples.locked Examples.still "/data"
    = Returned Examples.locked_report /\
  unreadable_fate default_scanner Examples.locked "/data" Examples.locked_report.
Proof.
  assert (Hscan : scan_directory default_scanner Examples.ideal Examples.locked
                    Examples.still "/data" = Returned Examples.locked_report)
    by (vm_compute; reflexivity).
  split; [exact Hscan|].
  exact (@C2_unreadable_files _ _ _ _ _ _ Hscan).
Defined.

(** ** The tier cascade (C3) *)

(** C3, counterexample: four one-byte files, equal two by two, share one
    size bucket and fill two Tier 1 partitions, so the number of
    partitions of two or more grows from Tier 0 to Tier 1. *)
Lemma C3_partitions_grow :
  ~ Stated.cascade_monotone_in_partitions
      default_scanner Examples.ideal Examples.four_files Examples.four_metas.
Proof.
  intros [_ Hle]. vm_compute in Hle. lia.
Qed.

(** A Tier 1 partition splits in Tier 2 as well: files of 196609 bytes that
    differ outside the sampled windows. *)
Lemma tier2_can_split :
  partitions_in (tier1 Examples.ideal Examples.four_long_files
                   (tier0 Examples.four_long_metas)) = 1%nat /\
  partitions_in (groups_of default_scanner Examples.ideal Examples.four_long_files
                   Examples.four_long_metas) = 2%nat.
Proof. split; vm_compute; reflexivity. Qed.

(** C3, amended: the cascade is monotone in files.  The files listed in the
    reported duplicate groups are as many as the files in final groups of
    two or more; these are at most the files in Tier 1 partitions of two
    or more, which are at most the files in size buckets of two or more,
    which are at most the files of the table. *)
Theorem C3_cascade_monotone_in_files (sc : Scanner) (H : Hashlib) (w : World)
    (metas : list FileMeta) :
  let t0 := tier0 metas in
  let t1 := tier1 H w t0 in
  let t2 := tier2 sc H w t1 in
  list_sum (map DupGroup.count (dup_out sc H w metas)) = files_in t2 /\
  (files_in t2 <= files_in t1)%nat /\
  (files_in t1 <= files_in t0)%nat /\
  (files_in t0 <= List.length metas)%nat.
Proof.
  intros t0 t1 t2. split; [apply dup_out_total|].
  split; [|split].
  - unfold files_in at 1.
    eapply Nat.le_trans; [apply members_filter_length | apply tier2_length].
  - unfold files_in at 1.
    eapply Nat.le_trans; [apply members_filter_length|].
    unfold t1. rewrite tier1_length. apply Nat.le_refl.
  - unfold files_in.
    eapply Nat.le_trans; [apply members_filter_length | apply tier0_length].
Qed.

(** ** Failed fingerprints (C4) *)

(** C4, counterexample: two equal files that cannot be opened while Tier 1
    runs share the bucket keyed by the sentinel; Tier 2 opens them, their
    digests agree, and the report lists both in one duplicate group. *)
Lemma C4_sentinel_bucket_reaches_tier2 :
  ~ Stated.failed_sample_dropped
      default_scanner Examples.ideal Examples.flaky Examples.flaky_metas.
Proof.
  intros Hc.
  destruct (Hc (mkFileMeta "/data/x1.dat" 3 0 "UNKNOWN" "DAT" EmptyString EmptyString))
    as [_ Hno].
  - vm_compute. now left.
  - vm_compute. reflexivity.
  - apply (Hno (DupGroup.mk "abc" 6 2 ["/data/x1.dat"; "/data/x2.dat"])).
    + vm_compute. now left.
    + simpl. now left.
Qed.

(** C4, amended: a file whose sampled fingerprint fails sits in the Tier 1
    bucket keyed by its size and the sentinel.  The report lists it in a
    duplicate group only if its streaming digest was computed in Tier 2
    and the sentinel bucket of its size held two files or more; when its
    streaming digest fails as well, no duplicate group lists it. *)
Theorem C4_failed_sample_fate (sc : Scanner) (H : Hashlib) (w : World)
    (metas : list FileMeta) (m : FileMeta) :
  In m metas -> sampled_fingerprint H w (path m) = None ->
  failed_sample_fate sc H w metas m.
Proof.
  intros Hm Hfail.
  assert (Hgrouped : forall g, In g (dup_out sc H w metas) ->
            In (path m) (DupGroup.files g) ->
            stream_hash sc H w (path m) = Some (DupGroup.sha256 g) /\
            exists sz bucket,
              In (sz, "ERR", bucket) (tier1 H w (tier0 metas)) /\
              (2 <= List.length bucket)%nat /\
              exists m', In m' bucket /\ path m' = path m).
  { intros g Hg Hp.
    destruct (dup_out_member _ _ _ _ _ _ Hg Hp) as (m' & bucket & _ & Epath & Hs & Hb & Hlen & Hmb).
    split; [exact Hs|].
    exists (size m'), bucket. split; [|split; [exact Hlen | now exists m']].
    assert (Ekey : fp_key H w m' = "ERR").
    { unfold fp_key. now rewrite Epath, Hfail. }
    now rewrite Ekey in Hb. }
  split; [|split; [|split]].
  - intros group Hg Hmg Hlen.
    pose proof (tier1_complete H w (tier0 metas) _ _ _ Hg Hlen Hmg) as Hplaced.
    unfold fp_key in Hplaced. now rewrite Hfail in Hplaced.
  - intros [sz fp] bucket Hb Hmb.
    destruct (tier1_sat H w (tier0 metas) _ _ Hb _ Hmb) as (Hfp & group & Hg & _ & Hmg).
    destruct (tier0_sat metas _ _ Hg _ Hmg) as (_ & Hsz & _).
    simpl in Hfp, Hsz. unfold fp_key in Hfp. rewrite Hfail in Hfp. now subst.
  - exact Hgrouped.
  - intros Hnone g Hg Hp. destruct (Hgrouped g Hg Hp) as [Hs _].
    rewrite Hnone in Hs. discriminate.
Qed.

(** C4, witness of the amended statement: the first of the two files that
    Tier 1 cannot open. *)
Lemma C4_failed_sample_fate_witness :
  In (mkFileMeta "/data/x1.dat" 3 0 "UNKNOWN" "DAT" EmptyString EmptyString)
     Examples.flaky_metas /\
  sampled_fingerprint Examples.ideal Examples.flaky "/data/x1.dat" = None /\
  failed_sample_fate default_scanner Examples.ideal Examples.flaky Examples.flaky_metas
    (mkFileMeta "/data/x1.dat" 3 0 "UNKNOWN" "DAT" EmptyString EmptyString).
Proof.
  split; [vm_compute; now left|]. split; [reflexivity|].
  apply C4_failed_sample_fate; [vm_compute; now left | reflexivity].
Defined.

(** ** Duplicate groups (C5) *)

(** C5, the code at the failing input: two equal files of one byte and two
    equal files of two bytes, scanned with [chunk_size_bytes = 0].  The
    streaming loop stops at its first, empty read, every file gets the
    digest of the empty input, and the two pairs of Tier 1 merge into one
    reported group whose members have sizes 1 and 2. *)
Theorem C5_zero_chunk_mixes_sizes :
  scan_directory Examples.zero_chunk Examples.ideal Examples.mixed_files Examples.still
    "/data" = Returned Examples.mixed_report /\
  sha256_hexdigest Examples.ideal [] = DupGroup.sha256 Examples.mixed_group /\
  ~ Stated.duplicate_groups_ok
      Examples.zero_chunk Examples.ideal Examples.mixed_files Examples.still "/data".
Proof.
  assert (Hscan : scan_directory Examples.zero_chunk Examples.ideal Examples.mixed_files
                    Examples.still "/data" = Returned Examples.mixed_report)
    by (vm_compute; reflexivity).
  split; [exact Hscan|]. split; [reflexivity|].
  intros Hc.
  destruct (Hc _ Hscan Examples.mixed_group) as (_ & _ & _ & Hsize & _); [now left|].
  specialize (Hsize (FileRec.mk "/data/a1.txt" 1 "UNKNOWN" "TXT" EmptyString EmptyString)
                    (FileRec.mk "/data/b1.txt" 2 "UNKNOWN" "TXT" EmptyString EmptyString)).
  simpl in Hsize.
  assert (Habs : 1%Z = 2%Z) by (apply Hsize; tauto).
  discriminate Habs.
Qed.

(** Where files of different sizes never receive the same streaming digest
    the statement of C5 holds: every duplicate group of a report has two
    members or more, all with the digest of the group and with one size,
    and its total is the size of a member times the count. *)
Lemma duplicate_group_invariant (sc : Scanner) (H : Hashlib) (w : World)
    (mt : Meter) (root : string) (rep : Report) (g : DupGroup.t) :
  scan_directory sc H w mt root = Returned rep ->
  digest_separates_sizes sc H w rep ->
  In g (duplicate_groups rep) ->
  Stated.dup_group_ok sc H w rep g.
Proof.
  intros Hscan Hsep Hg.
  destruct (scan_returned _ _ _ _ _ Hscan) as (t & _ & _ & _ & _ & Hfiles & Hdups & _).
  rewrite Hdups in Hg.
  destruct (in_dup_out _ _ _ _ _ Hg) as (group & g0 & Hgr & Hg0 & Hlen & Eg).
  assert (Hdigest : forall p, In p (DupGroup.files g) ->
                              stream_hash sc H w p = Some (DupGroup.sha256 g)).
  { intros p Hp. destruct (dup_out_member _ _ _ _ _ _ Hg Hp) as (m & b & _ & _ & Hs & _).
    exact Hs. }
  assert (Ecount : DupGroup.count g = List.length group) by (rewrite Eg; reflexivity).
  assert (Efiles : DupGroup.files g = sorted (map path group)) by (rewrite Eg; reflexivity).
  assert (Etotal : DupGroup.total_size g = (size g0 * Z.of_nat (List.length group))%Z)
    by (rewrite Eg; reflexivity).
  unfold Stated.dup_group_ok.
  split; [now rewrite Ecount|]. split; [|split; [|split]].
  - rewrite Ecount, Efiles, (Permutation_length (sorted_perm _)). now rewrite length_map.
  - exact Hdigest.
  - intros f f' Hf Hf' Hp Hp'.
    apply (Hsep f f' (DupGroup.sha256 g) Hf Hf'); now apply Hdigest.
  - exists (file_rec g0). split; [|split].
    + rewrite Hfiles. apply in_map.
      now destruct (groups_of_sat sc H w _ _ _ Hgr _ Hg0) as (_ & Hm & _).
    + rewrite Efiles. simpl.
      apply (Permutation_in _ (Permutation_sym (sorted_perm _))).
      now apply in_map.
    + rewrite Etotal, Ecount. reflexivity.
Qed.

(** The two equal files of three bytes, under the default scanner: the
    digest tells sizes apart and the group of the report is as C5 says. *)
Lemma twins_group_ok :
  Stated.dup_group_ok default_scanner Examples.ideal Examples.twins
    Examples.twins_report Examples.twins_group.
Proof.
  apply (@duplicate_group_invariant _ _ _ Examples.still "/data").
  - vm_compute. reflexivity.
  - apply stable_sizes_separate.
    + discriminate.
    + apply ideal_injective.
    + intros f content [<-|[<-|[]]] E; vm_compute in E; inversion E; reflexivity.
  - now left.
Qed.

(** ** The bio filter of the mismatches (C6) *)

(** C6, counterexample: a gzip stream named notes.txt has no bio header,
    no bio logical extension and no container extension; its header is
    GZIP, which the filter counts as bio, and the record is emitted. *)
Lemma C6_gzip_header_passes_filter :
  ~ Stated.bio_filter default_scanner Examples.archive_metas.
Proof.
  intros Hc. destruct (Hc eq_refl) as [Hall _].
  destruct (Hall (Mismatch.mk "/data/notes.txt" "TXT" EmptyString EmptyString "GZIP"))
    as [E|[E|E]]; try (vm_compute in E; discriminate E).
  vm_compute. now left.
Qed.

(** C6, amended: unless [include_non_bio_mismatches] is set, every emitted
    record has a bio header, or a container header (GZIP, BGZF), or a bio
    logical extension, or a compression container extension; and a file
    with a container header and a name without a container extension is
    always emitted. *)
Theorem C6_bio_filter (sc : Scanner) (metas : list FileMeta) :
  include_non_bio_mismatches sc = false ->
  (forall r, In r (mismatches_of sc metas) ->
     Stated.mismatch_is_bio r \/ Str.mem (Mismatch.header_type r) BIO_CONTAINERS = true) /\
  (forall m, In m metas ->
     Str.mem (Str.upper (header_type m)) BIO_CONTAINERS = true ->
     Str.mem (_norm_container (ext_container m)) BIO_CONTAINERS = false ->
     In (mismatch_record m) (mismatches_of sc metas)).
Proof.
  intros Hflag. split.
  - intros r Hr. unfold mismatches_of in Hr. apply in_flat_map in Hr.
    destruct Hr as (m & _ & Hr). unfold mismatch_of, is_mismatch in Hr. rewrite Hflag in Hr.
    destruct (Str.mem (Str.upper (header_type m)) ["UNKNOWN"; EmptyString]); [destruct Hr|].
    destruct (Str.mem (Str.upper (header_type m)) BIO_LOGICAL) eqn:E1;
      destruct (Str.mem (Str.upper (header_type m)) BIO_CONTAINERS) eqn:E2;
      destruct (Str.mem (Str.upper (ext_logical m)) BIO_LOGICAL) eqn:E3;
      destruct (Str.mem (_norm_container (ext_container m)) BIO_CONTAINERS) eqn:E4;
      cbn [negb andb orb] in Hr; try (destruct Hr; fail);
      try match type of Hr with
          | In _ (if ?c then _ else _) => destruct c; [|destruct Hr]
          end;
      destruct Hr as [<-|[]]; unfold Stated.mismatch_is_bio;
      cbn [Mismatch.header_type Mismatch.extension_logical Mismatch.extension_container];
      tauto.
  - intros m Hm Hh Hc. unfold mismatches_of. apply in_flat_map. exists m.
    split; [exact Hm|]. unfold mismatch_of, mismatch_record.
    assert (Hu : Str.mem (Str.upper (header_type m)) ["UNKNOWN"; EmptyString] = false).
    { destruct (mem_containers _ Hh) as [-> | ->]; reflexivity. }
    rewrite Hu, Hh, orb_true_r. simpl orb. simpl negb. rewrite andb_false_r.
    unfold is_mismatch. rewrite Hh, Hc. now left.
Qed.

(** C6, witness: the gzip stream named notes.txt. *)
Lemma C6_bio_filter_witness :
  include_non_bio_mismatches default_scanner = false /\
  In (Mismatch.mk "/data/notes.txt" "TXT" EmptyString EmptyString "GZIP")
     (mismatches_of default_scanner Examples.archive_metas).
Proof.
  split; [reflexivity|].
  apply (proj2 (@C6_bio_filter default_scanner Examples.archive_metas eq_refl)
           (mkFileMeta "/data/notes.txt" 4 0 "GZIP" "TXT" EmptyString EmptyString)).
  - vm_compute. now left.
  - reflexivity.
  - reflexivity.
Defined.

(** ** Two runs over one tree (C7) *)

(** C7, counterexample: the same tree scanned with a clock that stands
    still and with a clock that runs for one second; the reports differ
    in [wall_clock_s]. *)
Lemma C7_stats_differ :
  ~ Stated.runs_equal default_scanner Examples.ideal Examples.twins "/data".
Proof.
  intros Hc. specialize (Hc Examples.still Examples.one_second).
  vm_compute in Hc. discriminate Hc.
Qed.

(** What the scan takes from the world: the report but for [stats] is
    the same in two worlds that show the same listing and, for the listed
    files, the same sizes and bytes. *)
Lemma fold_left_ext_in (A B : Type) (f g : A -> B -> A) (l : list B) (a : A) :
  (forall x b, In b l -> f x b = g x b) -> fold_left f l a = fold_left g l a.
Proof.
  revert a. induction l as [|b l IH]; intros a Hfg; simpl; [reflexivity|].
  rewrite (Hfg a b) by now left. apply IH. intros x b' Hb. apply Hfg. now right.
Qed.

Lemma flat_map_same (A B : Type) (f g : A -> list B) (l : list A) :
  (forall a, In a l -> f a = g a) -> flat_map f l = flat_map g l.
Proof.
  induction l as [|a l IH]; intros Hfg; simpl; [reflexivity|].
  rewrite (Hfg a) by now left. f_equal. apply IH. intros b Hb. apply Hfg. now right.
Qed.

Lemma classify_same (w1 w2 : World) (p : string) :
  w_stat w1 Classify p = w_stat w2 Classify p ->
  w_read w1 Classify p = w_read w2 Classify p ->
  classify w1 p = classify w2 p.
Proof.
  intros Es Er. unfold classify, sniff_header. now rewrite Es, Er.
Qed.

Lemma sampled_fingerprint_same (H : Hashlib) (w1 w2 : World) (p : string) :
  w_stat w1 Tier1 p = w_stat w2 Tier1 p ->
  w_read w1 Tier1 p = w_read w2 Tier1 p ->
  sampled_fingerprint H w1 p = sampled_fingerprint H w2 p.
Proof. intros Es Er. unfold sampled_fingerprint. now rewrite Es, Er. Qed.

Lemma stream_hash_same (sc : Scanner) (H : Hashlib) (w1 w2 : World) (p : string) :
  w_read_max w1 = w_read_max w2 ->
  w_read w1 Tier2 p = w_read w2 Tier2 p ->
  stream_hash sc H w1 p = stream_hash sc H w2 p.
Proof. intros Em Er. unfold stream_hash. now rewrite Em, Er. Qed.

Lemma collect_metas_same (sc : Scanner) (w1 w2 : World) (root : string) (t : tree) :
  (forall dirpath ds fns fn,
     In (dirpath, ds, fns) (os_walk root t) -> In fn fns ->
     classify w1 (Path.join dirpath fn) = classify w2 (Path.join dirpath fn)) ->
  collect_metas sc w1 root t = collect_metas sc w2 root t.
Proof.
  intros Hsame. unfold collect_metas. destruct (_cancel sc); [reflexivity|].
  apply flat_map_same. intros [[dirpath ds] fns] Hstep. unfold walk_dir.
  apply flat_map_same. intros fn Hfn. now rewrite (Hsame _ _ _ _ Hstep Hfn).
Qed.

Lemma tier1_same (H : Hashlib) (w1 w2 : World) (by_size : list (Z * list FileMeta)) :
  (forall sz group m, In (sz, group) by_size -> In m group ->
                      fp_key H w1 m = fp_key H w2 m) ->
  tier1 H w1 by_size = tier1 H w2 by_size.
Proof.
  intros Hsame. unfold tier1. apply fold_left_ext_in.
  intros by_fp [sz group] Hg. destruct (List.length group <? 2)%nat; [reflexivity|].
  apply fold_left_ext_in. intros d m Hm. now rewrite (Hsame _ _ _ Hg Hm).
Qed.

Lemma tier2_same (sc : Scanner) (H : Hashlib) (w1 w2 : World)
    (by_fp : list (Z * string * list FileMeta)) :
  (forall k bucket m, In (k, bucket) by_fp -> In m bucket ->
                      stream_hash sc H w1 (path m) = stream_hash sc H w2 (path m)) ->
  tier2 sc H w1 by_fp = tier2 sc H w2 by_fp.
Proof.
  intros Hsame. unfold tier2. apply fold_left_ext_in.
  intros groups [k bucket] Hb. destruct (List.length bucket <? 2)%nat; [reflexivity|].
  apply fold_left_ext_in. intros d m Hm. unfold tier2_add.
  now rewrite (Hsame _ _ _ Hb Hm).
Qed.

Lemma dup_out_same (sc : Scanner) (H : Hashlib) (w1 w2 : World) (metas : list FileMeta) :
  w_read_max w1 = w_read_max w2 ->
  (forall m ph, In m metas ->
     w_stat w1 ph (path m) = w_stat w2 ph (path m) /\
     w_read w1 ph (path m) = w_read w2 ph (path m)) ->
  dup_out sc H w1 metas = dup_out sc H w2 metas.
Proof.
  intros Hmax Hsame. unfold dup_out, groups_of.
  assert (E1 : tier1 H w1 (tier0 metas) = tier1 H w2 (tier0 metas)).
  { apply tier1_same. intros sz group m Hg Hm.
    destruct (tier0_sat metas _ _ Hg _ Hm) as (Hin & _).
    unfold fp_key.
    now rewrite (sampled_fingerprint_same H w1 w2 (path m)
                   (proj1 (Hsame m Tier1 Hin)) (proj2 (Hsame m Tier1 Hin))). }
  rewrite E1.
  assert (E2 : tier2 sc H w1 (tier1 H w2 (tier0 metas))
               = tier2 sc H w2 (tier1 H w2 (tier0 metas))).
  { apply tier2_same. intros k bucket m Hb Hm.
    destruct (tier1_sat H w2 (tier0 metas) _ _ Hb _ Hm) as (_ & group & Hg & _ & Hmg).
    destruct (tier0_sat metas _ _ Hg _ Hmg) as (Hin & _).
    apply stream_hash_same; [exact Hmax | exact (proj2 (Hsame m Tier2 Hin))]. }
  now rewrite E2.
Qed.

(** C7, amended: two runs that make the same observations below the root
    (the same listing, the same longest read and, for every listed file,
    the same results of [stat] and the same bytes in each pass), with
    any clocks and process samples, both raise with one message or both
    return reports that agree on [n_files], [mismatches], [files],
    [duplicate_groups] and [erasable_candidates]; what the two worlds
    show elsewhere does not matter. *)
Theorem C7_runs_agree_but_stats (sc : Scanner) (H : Hashlib) (w1 w2 : World)
    (root : string) (mt1 mt2 : Meter) :
  same_observations w1 w2 root ->
  same_but_stats (scan_directory sc H w1 mt1 root) (scan_directory sc H w2 mt2 root).
Proof.
  intros (Htree & Hmax & Hobs).
  unfold scan_directory. rewrite <- Htree.
  destruct (w_tree w1 root) as [t|] eqn:Et; [|reflexivity].
  assert (Hmetas : collect_metas sc w1 root t = collect_metas sc w2 root t).
  { apply collect_metas_same. intros dirpath ds fns fn Hstep Hfn.
    destruct (Hobs t dirpath ds fns fn eq_refl Hstep Hfn Classify) as [Es Er].
    now apply classify_same. }
  assert (Hdups : dup_out sc H w1 (collect_metas sc w1 root t)
                  = dup_out sc H w2 (collect_metas sc w1 root t)).
  { apply dup_out_same; [exact Hmax|]. intros m ph Hm.
    destruct (collect_metas_in _ _ _ _ _ Hm) as (dirpath & ds & fns & fn & Hstep & Hfn & Hc).
    destruct (classify_some _ _ Hc) as (-> & _).
    exact (Hobs t dirpath ds fns fn eq_refl Hstep Hfn ph). }
  unfold same_but_stats. cbn [n_files mismatches files duplicate_groups erasable_candidates].
  rewrite Hdups, <- Hmetas. repeat split; reflexivity.
Qed.

(** C7, witness: the two equal files, seen at rest and seen a second
    later in a world that has changed outside the tree. *)
Lemma C7_runs_agree_but_stats_witness :
  same_observations Examples.twins Cases.twins_later "/data" /\
  same_but_stats
    (scan_directory default_scanner Examples.ideal Examples.twins Examples.still "/data")
    (scan_directory default_scanner Examples.ideal Cases.twins_later Examples.one_second
       "/data").
Proof.
  assert (Hobs : same_observations Examples.twins Cases.twins_later "/data").
  { split; [reflexivity|]. split; [reflexivity|].
    intros t dirpath ds fns fn Et Hstep Hfn ph.
    vm_compute in Et. inversion Et; subst t. clear Et.
    simpl in Hstep. destruct Hstep as [E|[]]. inversion E; subst. clear E.
    simpl in Hfn. destruct Hfn as [<-|[<-|[]]]; split; destruct ph; reflexivity. }
  split; [exact Hobs|].
  exact (@C7_runs_agree_but_stats default_scanner Examples.ideal Examples.twins
           Cases.twins_later "/data" Examples.still Examples.one_second Hobs).
Defined.

(** ** SRA against FASTQ (C8) *)

(** C8, the code at the failing input: FASTQ text stored as sample.sra
    beside sample.fastq.gz.  The two files form one sample group; the file
    named as an SRA is also a FASTQ by its header; rule 3 proposes to
    delete it and lists it among the files the deletion depends on. *)
Theorem C8_sra_named_fastq_is_proposed :
  scan_directory default_scanner Examples.ideal Examples.mislabeled Examples.still "/data"
    = Returned Examples.mislabeled_report /\
  by_sample (files Examples.mislabeled_report) = [("sample", Examples.mislabeled_group)] /\
  rule_sra Examples.mislabeled_group = [Examples.mislabeled_candidate] /\
  In "/data/sample.sra" (map FileRec.path (fastqs_of Examples.mislabeled_group)) /\
  ~ Stated.rule_sra_keeps_fastq Examples.mislabeled_group.
Proof.
  split; [vm_compute; reflexivity|].
  split; [vm_compute; reflexivity|].
  split; [vm_compute; reflexivity|].
  split; [vm_compute; now left|].
  intros Hc. destruct Hc as (sra & c & _ & Hrule & _ & _ & Hno).
  - reflexivity.
  - vm_compute. discriminate.
  - vm_compute in Hrule. inversion Hrule; subst c; clear Hrule.
    apply (Hno (FileRec.mk "/data/sample.sra" 7 "FASTQ" "SRA" EmptyString EmptyString)).
    + vm_compute. now left.
    + reflexivity.
Qed.

(** ** The sampled hash input (C9) *)

(** C9, counterexample: for the three bytes abc of a file of size 3 the
    sampled hash input is abc; it does not start with the size. *)
Lemma C9_no_size_in_sampled_input : ~ Stated.sampled_hash_prepends_size.
Proof.
  intros [Hc _]. destruct (Hc 3%Z (Examples.txt "abc")) as [rest E].
  vm_compute in E. discriminate E.
Qed.

(** The windows, byte by byte. *)
Lemma take_length_exact (n : Z) (b : list byte) :
  Z.of_nat (List.length (Bytes.take n b)) = Z.max 0 (Z.min n (Z.of_nat (List.length b))).
Proof.
  revert n. induction b as [|x b IH]; intros n; simpl Bytes.take.
  - simpl. lia.
  - destruct (n <=? 0)%Z eqn:E.
    + apply Z.leb_le in E. simpl List.length. lia.
    + apply Z.leb_gt in E. simpl List.length. rewrite !Nat2Z.inj_succ, IH. lia.
Qed.

Lemma drop_length_exact (lo : Z) (b : list byte) :
  (0 <= lo)%Z ->
  Z.of_nat (List.length (Bytes.drop lo b)) = Z.max 0 (Z.of_nat (List.length b) - lo).
Proof.
  revert lo. induction b as [|x b IH]; intros lo Hlo; simpl Bytes.drop.
  - simpl. lia.
  - destruct (lo <=? 0)%Z eqn:E.
    + apply Z.leb_le in E. assert (lo = 0%Z) by lia. subst lo. lia.
    + apply Z.leb_gt in E. rewrite IH by lia. simpl List.length.
      rewrite Nat2Z.inj_succ. lia.
Qed.

Lemma byte_at_range (i : Z) (b : list byte) :
  (0 <= i < Z.of_nat (List.length b))%Z -> exists x, byte_at i b = Some x.
Proof.
  revert i. induction b as [|y b IH]; intros i Hi; [simpl in Hi; lia|].
  simpl byte_at. replace (i <? 0)%Z with false by (symmetry; apply Z.ltb_ge; lia).
  destruct (i =? 0)%Z eqn:E; [now exists y|].
  apply Z.eqb_neq in E. apply IH. simpl List.length in Hi.
  rewrite Nat2Z.inj_succ in Hi. lia.
Qed.

Lemma byte_at_take (n i : Z) (b : list byte) :
  (0 <= i < n)%Z -> byte_at i (Bytes.take n b) = byte_at i b.
Proof.
  revert n i. induction b as [|x b IH]; intros n i Hi; [reflexivity|].
  simpl Bytes.take. replace (n <=? 0)%Z with false by (symmetry; apply Z.leb_gt; lia).
  simpl byte_at. destruct (i <? 0)%Z; [reflexivity|].
  destruct (i =? 0)%Z eqn:E; [reflexivity|].
  apply Z.eqb_neq in E. apply IH. lia.
Qed.

Lemma byte_at_drop (lo i : Z) (b : list byte) :
  (0 <= lo)%Z -> (0 <= i)%Z -> byte_at i (Bytes.drop lo b) = byte_at (lo + i) b.
Proof.
  revert lo. induction b as [|x b IH]; intros lo Hlo Hi; [reflexivity|].
  simpl Bytes.drop. destruct (lo <=? 0)%Z eqn:E.
  - apply Z.leb_le in E. assert (lo = 0%Z) by lia. subst lo. reflexivity.
  - apply Z.leb_gt in E. rewrite IH by lia.
    simpl byte_at.
    replace (lo + i <? 0)%Z with false by (symmetry; apply Z.ltb_ge; lia).
    replace (lo + i =? 0)%Z with false by (symmetry; apply Z.eqb_neq; lia).
    f_equal. lia.
Qed.

Lemma window_is_slice (lo n : Z) (content : list byte) :
  (0 <= lo)%Z -> is_slice lo n content (window lo n content).
Proof.
  intros Hlo. unfold is_slice, window, Bytes.slice. split.
  - rewrite take_length_exact, drop_length_exact by exact Hlo. lia.
  - intros i Hi. rewrite take_length_exact in Hi.
    rewrite byte_at_take by lia. apply byte_at_drop; lia.
Qed.

Lemma byte_at_ext (a b : list byte) :
  List.length a = List.length b ->
  (forall i, (0 <= i < Z.of_nat (List.length a))%Z -> byte_at i a = byte_at i b) ->
  a = b.
Proof.
  revert b. induction a as [|x a IH]; intros [|y b] Hlen Hall; try discriminate Hlen;
    [reflexivity|].
  assert (E0 : byte_at 0 (x :: a) = byte_at 0 (y :: b))
    by (apply Hall; simpl List.length; lia).
  simpl in E0. inversion E0; subst y. f_equal.
  apply IH; [now inversion Hlen|].
  intros i Hi. specialize (Hall (i + 1)%Z). simpl List.length in Hall.
  rewrite Nat2Z.inj_succ in Hall. simpl byte_at in Hall.
  replace (i + 1 <? 0)%Z with false in Hall by (symmetry; apply Z.ltb_ge; lia).
  replace (i + 1 =? 0)%Z with false in Hall by (symmetry; apply Z.eqb_neq; lia).
  replace (i + 1 - 1)%Z with i in Hall by lia. apply Hall. lia.
Qed.

Lemma is_slice_unique (lo n : Z) (content a b : list byte) :
  is_slice lo n content a -> is_slice lo n content b -> a = b.
Proof.
  intros [La Ha] [Lb Hb]. apply byte_at_ext.
  - apply Nat2Z.inj. congruence.
  - intros i Hi. rewrite Ha by exact Hi. symmetry. apply Hb. rewrite Lb, <- La. exact Hi.
Qed.

Lemma sampled_input_windows (st_size : Z) (content : list byte) :
  sampled_windows st_size content (sampled_input st_size content).
Proof.
  unfold sampled_windows, sampled_input.
  exists (window 0 65536 content),
         (if (196608 <=? st_size)%Z
          then window (Z.max 0 (st_size / 2 - 32768)) 65536 content else []),
         (if (65536 <=? st_size)%Z
          then window (Z.max 0 (st_size - 65536)) 65536 content else []).
  split; [reflexivity|]. split; [apply window_is_slice; lia|]. split.
  - destruct (196608 <=? st_size)%Z eqn:E; [|reflexivity].
    apply Z.leb_le in E.
    assert (Hmid : (98304 <= st_size / 2)%Z) by (apply Z.div_le_lower_bound; lia).
    replace (Z.max 0 (st_size / 2 - 32768)) with (st_size / 2 - 32768)%Z by lia.
    apply window_is_slice. lia.
  - destruct (65536 <=? st_size)%Z eqn:E; [|reflexivity].
    apply Z.leb_le in E.
    replace (Z.max 0 (st_size - 65536)) with (st_size - 65536)%Z by lia.
    apply window_is_slice. lia.
Qed.

(** C9, amended: the sampled fingerprint of the portable scanner is the
    MD5 of bytes of the content only.  Its input is exactly the head
    window, then for a size of 192 KiB or more the middle window, then
    for a size of 64 KiB or more the tail window, each window given by
    its offset, its length and every one of its bytes; nothing else is
    hashed, so the size is no part of the input, and for a file below
    64 KiB the input is the content itself.  The size enters in Tier 1,
    whose buckets are keyed by size and fingerprint.  The hash that
    starts with the decimal size is the one of the legacy scanner. *)
Theorem C9_sampled_hash_input :
  (forall H w p st_size mtime content,
     w_stat w Tier1 p = Some (st_size, mtime) -> w_read w Tier1 p = Some content ->
     sampled_fingerprint H w p = Some (md5_hexdigest H (sampled_input st_size content))) /\
  (forall st_size content x,
     x = sampled_input st_size content <-> sampled_windows st_size content x) /\
  (forall st_size content b, In b (sampled_input st_size content) -> In b content) /\
  (forall st_size content,
     (st_size < 65536)%Z -> (Z.of_nat (List.length content) <= 65536)%Z ->
     sampled_input st_size content = content) /\
  (forall H w metas k bucket m,
     In (k, bucket) (tier1 H w (tier0 metas)) -> In m bucket ->
     k = (size m, fp_key H w m)) /\
  (forall file_size chunk_size content x,
     (0 < chunk_size)%Z ->
     Legacy.hash_input file_size chunk_size content = Some x ->
     exists rest, x = Bytes.of_string (Str.of_Z file_size) ++ rest).
Proof.
  split; [|split; [|split; [|split; [|split]]]].
  - intros H w p sz mt content Es Er. unfold sampled_fingerprint. now rewrite Es, Er.
  - intros sz content x. split.
    + intros ->. apply sampled_input_windows.
    + intros (head & middle & tail & -> & Hh & Hm & Ht).
      destruct (sampled_input_windows sz content)
        as (head' & middle' & tail' & -> & Hh' & Hm' & Ht').
      rewrite (is_slice_unique Hh Hh').
      assert (Em : middle = middle').
      { destruct (196608 <=? sz)%Z; [exact (is_slice_unique Hm Hm') | congruence]. }
      assert (Et : tail = tail').
      { destruct (65536 <=? sz)%Z; [exact (is_slice_unique Ht Ht') | congruence]. }
      now rewrite Em, Et.
  - intros sz content b Hin. unfold sampled_input in Hin.
    apply in_app_or in Hin. destruct Hin as [Hin|Hin]; [exact (in_window _ _ _ _ Hin)|].
    apply in_app_or in Hin. destruct Hin as [Hin|Hin].
    + destruct (196608 <=? sz)%Z; [exact (in_window _ _ _ _ Hin) | destruct Hin].
    + destruct (65536 <=? sz)%Z; [exact (in_window _ _ _ _ Hin) | destruct Hin].
  - intros sz content Hsz Hlen. unfold sampled_input.
    replace (196608 <=? sz)%Z with false by (symmetry; apply Z.leb_gt; lia).
    replace (65536 <=? sz)%Z with false by (symmetry; apply Z.leb_gt; lia).
    rewrite !app_nil_r. now apply window_all.
  - intros H w metas [sz fp] bucket m Hb Hm.
    destruct (tier1_sat H w (tier0 metas) _ _ Hb _ Hm) as (Hfp & group & Hg & _ & Hmg).
    destruct (tier0_sat metas _ _ Hg _ Hmg) as (_ & Hsz & _).
    simpl in Hfp, Hsz. now subst.
  - intros fs cs content x _. unfold Legacy.hash_input.
    destruct (fs <=? cs * 2)%Z.
    + intros E. inversion E. eexists. reflexivity.
    + destruct (cs <? fs)%Z.
      * destruct (Z.of_nat (List.length content) <? cs)%Z; [discriminate|].
        intros E. inversion E. eexists. reflexivity.
      * intros E. inversion E. eexists. reflexivity.
Qed.

(** C9, witness: the three bytes abc, one window that is the content. *)
Lemma C9_sampled_hash_input_witness :
  (3 < 65536)%Z /\
  (Z.of_nat (List.length (Examples.txt "abc")) <= 65536)%Z /\
  sampled_input 3 (Examples.txt "abc") = Examples.txt "abc" /\
  sampled_windows 3 (Examples.txt "abc") (Examples.txt "abc").
Proof.
  split; [reflexivity|]. split; [discriminate|].
  pose proof C9_sampled_hash_input as (_ & Hwin & _ & Hsmall & _).
  split.
  - apply Hsmall; [reflexivity | discriminate].
  - apply (proj1 (Hwin 3%Z (Examples.txt "abc") (Examples.txt "abc"))). reflexivity.
Defined.

(** ** Closure of the report (C10) *)

(** C10: in the report of a scan, the path of every mismatch record, every
    member path of every duplicate group and the path of every erasable
    candidate is the path of an entry of [files]. *)
Theorem C10_report_closure (sc : Scanner) (H : Hashlib) (w : World) (mt : Meter)
    (root : string) (rep : Report) :
  scan_directory sc H w mt root = Returned rep -> Stated.report_closed rep.
Proof. apply scan_report_closed. Qed.

(** C10, witness: a report with mismatches, a duplicate group and an
    erasable candidate. *)
Lemma C10_report_closure_witness :
  scan_directory default_scanner Examples.ideal Examples.lab Examples.still "/data"
    = Returned Examples.lab_report /\
  Stated.report_closed Examples.lab_report.
Proof.
  assert (Hscan : scan_directory default_scanner Examples.ideal Examples.lab
                    Examples.still "/data" = Returned Examples.lab_report)
    by (vm_compute; reflexivity).
  split; [exact Hscan|].
  exact (@C10_report_closure _ _ _ _ _ _ Hscan).
Defined.

(** * Further properties of the code *)

(** ** Dictionaries: keys *)

Section DictKeys.

Variables (K V : Type) (keqb : K -> K -> bool).
Hypothesis keqb_eq : forall a b, keqb a b = true <-> a = b.

Lemma setdefault_append_key_in (k x : K) (v : V) (d : list (K * list V)) :
  In x (keys (setdefault_append keqb k v d)) -> x = k \/ In x (keys d).
Proof.
  induction d as [|[k' vs] d IH]; simpl.
  - intros [<-|[]]. now left.
  - destruct (keqb k k'); simpl.
    + intros [<-|Hin]; auto.
    + intros [<-|Hin]; auto. destruct (IH Hin); auto.
Qed.

Lemma setdefault_append_nodup (k : K) (v : V) (d : list (K * list V)) :
  NoDup (keys d) -> NoDup (keys (setdefault_append keqb k v d)).
Proof.
  induction d as [|[k' vs] d IH]; simpl; intros Hnd.
  - constructor; [intros [] | constructor].
  - inversion Hnd as [|? ? Hout Hnd']; subst.
    destruct (keqb k k') eqn:E; simpl.
    + constructor; assumption.
    + constructor; [|now apply IH].
      intros Hin. apply setdefault_append_key_in in Hin.
      destruct Hin as [->|Hin]; [|contradiction].
      assert (keqb k k = true) by now apply keqb_eq. congruence.
Qed.

(** With distinct keys a key has one bucket. *)
Lemma bucket_unique (d : list (K * list V)) (k : K) (vs vs' : list V) :
  NoDup (keys d) -> In (k, vs) d -> In (k, vs') d -> vs = vs'.
Proof.
  induction d as [|[k' ws] d IH]; intros Hnd H1 H2; [destruct H1|].
  simpl in Hnd. inversion Hnd as [|? ? Hout Hnd']; subst.
  destruct H1 as [E1|H1], H2 as [E2|H2].
  - congruence.
  - inversion E1; subst. exfalso. apply Hout.
    change k with (fst (k, vs')). now apply in_map.
  - inversion E2; subst. exfalso. apply Hout.
    change k with (fst (k, vs)). now apply in_map.
  - now apply IH.
Qed.

Lemma setdefault_append_perm (k : K) (v : V) (d : list (K * list V)) :
  Permutation (members (setdefault_append keqb k v d)) (v :: members d).
Proof.
  induction d as [|[k' vs] d IH]; simpl.
  - apply Permutation_refl.
  - destruct (keqb k k'); rewrite !members_cons.
    + replace ((vs ++ [v]) ++ members d) with (vs ++ v :: members d)
        by (rewrite <- app_assoc; reflexivity).
      apply Permutation_sym, Permutation_middle.
    + eapply perm_trans; [apply Permutation_app_head, IH|].
      apply Permutation_sym, Permutation_middle.
Qed.

End DictKeys.

(** ** The tiers: distinct keys, nothing lost *)

Section TierKeys.

Variables (sc : Scanner) (H : Hashlib) (w : World).

Lemma Zeqb_iff (a b : Z) : (a =? b)%Z = true <-> a = b.
Proof. apply Z.eqb_eq. Qed.

Lemma key2_eqb_iff (a b : Z * string) : key2_eqb a b = true <-> a = b.
Proof.
  unfold key2_eqb. rewrite andb_true_iff, Z.eqb_eq, String.eqb_eq.
  destruct a, b; simpl. split; [intros [-> ->]; reflexivity | intros E; inversion E; auto].
Qed.

Lemma tier0_keys (metas : list FileMeta) : NoDup (keys (tier0 metas)).
Proof.
  unfold tier0. apply fold_left_inv; [|constructor].
  intros d m _ Hd. destruct (0 <? size m)%Z; [|exact Hd].
  apply setdefault_append_nodup; [apply Zeqb_iff | exact Hd].
Qed.

Lemma tier1_keys (by_size : list (Z * list FileMeta)) : NoDup (keys (tier1 H w by_size)).
Proof.
  unfold tier1. apply fold_left_inv; [|constructor].
  intros d [sz group] _ Hd. destruct (List.length group <? 2)%nat; [exact Hd|].
  apply fold_left_inv; [|exact Hd].
  intros d' m _ Hd'. apply setdefault_append_nodup; [apply key2_eqb_iff | exact Hd'].
Qed.

Lemma tier2_keys (by_fp : list (Z * string * list FileMeta)) :
  NoDup (keys (tier2 sc H w by_fp)).
Proof.
  unfold tier2. apply fold_left_inv; [|constructor].
  intros d [k bucket] _ Hd. destruct (List.length bucket <? 2)%nat; [exact Hd|].
  apply fold_left_inv; [|exact Hd].
  intros d' m _ Hd'. unfold tier2_add.
  destruct (stream_hash sc H w (path m)); [|exact Hd'].
  apply setdefault_append_nodup; [apply String.eqb_eq | exact Hd'].
Qed.

(** Tier 0 stores every file of positive size under its size. *)
Lemma tier0_complete (metas : list FileMeta) (m : FileMeta) :
  In m metas -> (0 < size m)%Z -> holds (tier0 metas) (size m) m.
Proof.
  unfold tier0.
  set (step := fun (by_size : list (Z * list FileMeta)) (m0 : FileMeta) =>
                 if (0 <? size m0)%Z
                 then setdefault_append Z.eqb (size m0) m0 by_size else by_size).
  assert (Hkeep : forall l d k x, holds d k x -> holds (fold_left step l d) k x).
  { induction l as [|m0 l IH]; intros d k x Hd; simpl; [exact Hd|].
    apply IH. unfold step. destruct (0 <? size m0)%Z; [|exact Hd].
    now apply setdefault_append_keeps. }
  assert (Hall : forall l d, In m l -> (0 < size m)%Z ->
                 holds (fold_left step l d) (size m) m).
  { induction l as [|m0 l IH]; intros d Hin Hpos; [destruct Hin|].
    simpl. destruct Hin as [->|Hin]; [|now apply IH].
    apply Hkeep. unfold step.
    replace (0 <? size m)%Z with true by (symmetry; now apply Z.ltb_lt).
    apply setdefault_append_adds. intros k' E. apply Z.eqb_eq in E. now subst. }
  intros Hin Hpos. now apply (Hall metas []).
Qed.

(** Tier 2 stores every file of a surviving Tier 1 bucket whose streaming
    digest is computed under that digest. *)
Lemma tier2_complete (by_fp : list (Z * string * list FileMeta)) (k : Z * string)
    (bucket : list FileMeta) (m : FileMeta) (sha : string) :
  In (k, bucket) by_fp -> (2 <= List.length bucket)%nat -> In m bucket ->
  stream_hash sc H w (path m) = Some sha ->
  holds (tier2 sc H w by_fp) sha m.
Proof.
  unfold tier2.
  assert (Hkeep_in : forall b d h x, holds d h x ->
            holds (fold_left (tier2_add sc H w) b d) h x).
  { induction b as [|m0 b IH]; intros d h x Hd; simpl; [exact Hd|].
    apply IH. unfold tier2_add. destruct (stream_hash sc H w (path m0)); [|exact Hd].
    now apply setdefault_append_keeps. }
  assert (Hadd_in : forall b d, In m b -> stream_hash sc H w (path m) = Some sha ->
            holds (fold_left (tier2_add sc H w) b d) sha m).
  { induction b as [|m0 b IH]; intros d Hin Hs; [destruct Hin|].
    simpl. destruct Hin as [->|Hin]; [|now apply IH].
    apply Hkeep_in. unfold tier2_add. rewrite Hs.
    apply setdefault_append_adds. intros k' E. apply String.eqb_eq in E. now subst. }
  assert (Hkeep : forall (l : list (Z * string * list FileMeta))
                         (d : list (string * list FileMeta)) h x,
            holds d h x ->
            holds (fold_left (fun groups '(_, b) =>
                     if (List.length b <? 2)%nat then groups
                     else fold_left (tier2_add sc H w) b groups) l d) h x).
  { induction l as [|[k0 b] l IH]; intros d h x Hd; simpl; [exact Hd|].
    apply IH. destruct (List.length b <? 2)%nat; [exact Hd | now apply Hkeep_in]. }
  assert (Hall : forall (l : list (Z * string * list FileMeta))
                        (d : list (string * list FileMeta)),
            In (k, bucket) l -> (2 <= List.length bucket)%nat -> In m bucket ->
            stream_hash sc H w (path m) = Some sha ->
            holds (fold_left (fun groups '(_, b) =>
                     if (List.length b <? 2)%nat then groups
                     else fold_left (tier2_add sc H w) b groups) l d) sha m).
  { induction l as [|[k0 b] l IH]; intros d Hin Hlen Hm Hs; [destruct Hin|].
    simpl. destruct Hin as [Heq|Hin]; [|now apply IH].
    inversion Heq; subst. apply Hkeep.
    destruct (List.length bucket <? 2)%nat eqn:E; [apply Nat.ltb_lt in E; lia|].
    now apply Hadd_in. }
  intros Hin Hlen Hm Hs. now apply (Hall by_fp []).
Qed.

Lemma two_members (A : Type) (a b : A) (l : list A) :
  In a l -> In b l -> a <> b -> (2 <= List.length l)%nat.
Proof.
  destruct l as [|x [|y l]]; simpl; intros Ha Hb Hne.
  - destruct Ha.
  - destruct Ha as [<-|[]], Hb as [<-|[]]. congruence.
  - lia.
Qed.

(** The final group of two files that agree in size, fingerprint key and
    streaming digest. *)
Lemma groups_of_complete (metas : list FileMeta) (m1 m2 : FileMeta) (sha : string) :
  In m1 metas -> In m2 metas -> m1 <> m2 ->
  (0 < size m1)%Z -> size m1 = size m2 ->
  fp_key H w m1 = fp_key H w m2 ->
  stream_hash sc H w (path m1) = Some sha ->
  stream_hash sc H w (path m2) = Some sha ->
  exists group, In (sha, group) (groups_of sc H w metas) /\
                In m1 group /\ In m2 group /\ (2 <= List.length group)%nat.
Proof.
  intros H1 H2 Hne Hpos Hsz Hfp Hs1 Hs2.
  destruct (tier0_complete metas m1 H1 Hpos) as (g1 & Hg1 & Hm1).
  destruct (tier0_complete metas m2 H2 ltac:(now rewrite <- Hsz)) as (g2 & Hg2 & Hm2).
  rewrite <- Hsz in Hg2.
  assert (g2 = g1) by exact (@bucket_unique _ _ _ _ _ _ (tier0_keys metas) Hg2 Hg1). subst g2.
  assert (Hlen0 : (2 <= List.length g1)%nat) by exact (@two_members _ _ _ _ Hm1 Hm2 Hne).
  destruct (tier1_complete H w (tier0 metas) _ _ _ Hg1 Hlen0 Hm1) as (b1 & Hb1 & Hmb1).
  destruct (tier1_complete H w (tier0 metas) _ _ _ Hg1 Hlen0 Hm2) as (b2 & Hb2 & Hmb2).
  rewrite <- Hfp in Hb2.
  assert (b2 = b1) by exact (@bucket_unique _ _ _ _ _ _ (tier1_keys _) Hb2 Hb1). subst b2.
  assert (Hlen1 : (2 <= List.length b1)%nat) by exact (@two_members _ _ _ _ Hmb1 Hmb2 Hne).
  destruct (@tier2_complete _ _ _ _ _ Hb1 Hlen1 Hmb1 Hs1) as (c1 & Hc1 & Hmc1).
  destruct (@tier2_complete _ _ _ _ _ Hb1 Hlen1 Hmb2 Hs2) as (c2 & Hc2 & Hmc2).
  assert (c2 = c1) by exact (@bucket_unique _ _ _ _ _ _ (tier2_keys _) Hc2 Hc1). subst c2.
  exists c1. repeat split; auto. exact (@two_members _ _ _ _ Hmc1 Hmc2 Hne).
Qed.

End TierKeys.

(** ** Grouping is exact *)

Section GroupBy.

Variables (A K : Type) (keqb : K -> K -> bool) (key : A -> K).
Hypothesis keqb_eq : forall a b, keqb a b = true <-> a = b.

Lemma keqb_refl (k : K) : keqb k k = true.
Proof. now apply keqb_eq. Qed.

Lemma keqb_neq (a b : K) : a <> b -> keqb a b = false.
Proof.
  intros Hne. destruct (keqb a b) eqn:E; [|reflexivity].
  apply keqb_eq in E. contradiction.
Qed.

(** The buckets after one [setdefault(k0, []).append(v)]. *)
Lemma setdefault_append_in (k0 k : K) (v : A) (vs : list A) (d : list (K * list A)) :
  NoDup (keys d) ->
  (In (k, vs) (setdefault_append keqb k0 v d) <->
   (k <> k0 /\ In (k, vs) d)
   \/ (k = k0 /\ ((exists vs0, In (k0, vs0) d /\ vs = vs0 ++ [v])
                  \/ ((forall vs0, ~ In (k0, vs0) d) /\ vs = [v])))).
Proof.
  induction d as [|[k' vs'] d IH]; intros Hnd; simpl.
  - split.
    + intros [E|[]]. inversion E; subst. right. split; [reflexivity|].
      right. split; [intros vs0 []|reflexivity].
    + intros [[_ []]|[-> [(vs0 & [] & _)|[_ ->]]]]. now left.
  - inversion Hnd as [|? ? Hout Hnd']; subst. specialize (IH Hnd').
    destruct (keqb k0 k') eqn:E.
    + apply keqb_eq in E. subst k'. simpl. split.
      * intros [E|Hin].
        -- inversion E; subst. right. split; [reflexivity|]. left.
           exists vs'. split; [now left | reflexivity].
        -- left. split; [|now right]. intros ->. apply Hout.
           change k0 with (fst (k0, vs)). now apply in_map.
      * intros [[Hne [E|Hin]]|[-> [(vs0 & [E|Hin] & ->)|[Hno ->]]]].
        -- inversion E; subst. contradiction.
        -- now right.
        -- inversion E; subst. now left.
        -- exfalso. apply Hout. change k0 with (fst (k0, vs0)). now apply in_map.
        -- exfalso. apply (Hno vs'). now left.
    + assert (Hne : k0 <> k') by (intros ->; rewrite keqb_refl in E; discriminate).
      simpl. rewrite IH. split.
      * intros [E'|[[Hk Hin]|[-> [(vs0 & Hin & ->)|[Hno ->]]]]].
        -- inversion E'; subst. left. split; [congruence | now left].
        -- left. split; [exact Hk | now right].
        -- right. split; [reflexivity|]. left. exists vs0. split; [now right | reflexivity].
        -- right. split; [reflexivity|]. right. split; [|reflexivity].
           intros vs0 [E'|Hin]; [inversion E'; congruence | now apply (Hno vs0)].
      * intros [[Hk [E'|Hin]]|[-> [(vs0 & [E'|Hin] & ->)|[Hno ->]]]].
        -- now left.
        -- right. left. now split.
        -- inversion E'; congruence.
        -- right. right. split; [reflexivity|]. left. now exists vs0.
        -- right. right. split; [reflexivity|]. right. split; [|reflexivity].
           intros vs0 Hin. apply (Hno vs0). now right.
Qed.

Lemma filter_snoc (f : A -> bool) (l : list A) (x : A) :
  filter f (l ++ [x]) = filter f l ++ (if f x then [x] else []).
Proof. rewrite filter_app. reflexivity. Qed.

Lemma grouped_step (done : list A) (d : list (K * list A)) (x : A) :
  grouped keqb key done d ->
  grouped keqb key (done ++ [x]) (setdefault_append keqb (key x) x d).
Proof.
  intros [Hnd Hd]. split; [now apply setdefault_append_nodup|].
  intros k vs. rewrite (@setdefault_append_in _ _ _ _ _ Hnd), filter_snoc.
  split.
  - intros [[Hne Hin]|[-> [(vs0 & Hin & ->)|[Hno ->]]]].
    + rewrite keqb_neq by congruence. rewrite app_nil_r. now apply Hd.
    + rewrite keqb_refl. apply Hd in Hin. destruct Hin as [-> _].
      split; [reflexivity|]. intros E. apply app_eq_nil in E. destruct E; discriminate.
    + rewrite keqb_refl.
      destruct (filter (fun x0 => keqb (key x0) (key x)) done) as [|y l] eqn:F.
      * split; [reflexivity | discriminate].
      * exfalso. apply (Hno (y :: l)). apply Hd. rewrite F. split; [reflexivity | discriminate].
  - intros [-> Hne].
    destruct (keqb (key x) k) eqn:E.
    + apply keqb_eq in E. subst k. right. split; [reflexivity|].
      destruct (filter (fun x0 => keqb (key x0) (key x)) done) as [|y l] eqn:F.
      * right. split; [|reflexivity].
        intros vs0 Hin. apply Hd in Hin. destruct Hin as [-> Hn]. now rewrite F in Hn.
      * left. exists (y :: l). split; [|reflexivity].
        apply Hd. rewrite F. split; [reflexivity | discriminate].
    + rewrite app_nil_r in *. left. split.
      * intros ->. rewrite keqb_refl in E. discriminate.
      * now apply Hd.
Qed.

Lemma grouped_fold (l done : list A) (d : list (K * list A)) :
  grouped keqb key done d ->
  grouped keqb key (done ++ l)
    (fold_left (fun d x => setdefault_append keqb (key x) x d) l d).
Proof.
  revert done d. induction l as [|x l IH]; intros done d Hd; simpl.
  - now rewrite app_nil_r.
  - replace (done ++ x :: l) with ((done ++ [x]) ++ l)
      by (rewrite <- app_assoc; reflexivity).
    apply IH. now apply grouped_step.
Qed.

(** The buckets of a grouping: for every key that occurs, the elements
    with that key, in their order; and no other bucket. *)
Lemma group_by_exact (l : list A) (k : K) (vs : list A) :
  In (k, vs) (group_by keqb key l) <->
  (vs = filter (fun x => keqb (key x) k) l /\ vs <> []).
Proof.
  unfold group_by.
  assert (G : grouped keqb key ([] ++ l)
                (fold_left (fun d x => setdefault_append keqb (key x) x d) l [])).
  { apply grouped_fold. split; [constructor|].
    intros k0 vs0. simpl. split; [intros [] | intros [-> Hne]; now apply Hne]. }
  apply G.
Qed.

Lemma group_by_keys (l : list A) : NoDup (keys (group_by keqb key l)).
Proof.
  unfold group_by. apply fold_left_inv; [|constructor].
  intros d x _ Hd. now apply setdefault_append_nodup.
Qed.

Lemma group_by_perm (l : list A) : Permutation (members (group_by keqb key l)) l.
Proof.
  unfold group_by.
  assert (G : forall l0 d, Permutation
            (members (fold_left (fun d x => setdefault_append keqb (key x) x d) l0 d))
            (members d ++ l0)).
  { induction l0 as [|x l0 IH]; intros d; simpl.
    - rewrite app_nil_r. apply Permutation_refl.
    - eapply perm_trans; [apply IH|].
      eapply perm_trans; [apply Permutation_app_tail, setdefault_append_perm|].
      simpl. apply Permutation_middle. }
  apply (G l []).
Qed.

End GroupBy.

(** ** The duplicate detector *)

Lemma tier0_group_by (metas : list FileMeta) :
  tier0 metas = group_by Z.eqb size (filter (fun m => (0 <? size m)%Z) metas).
Proof.
  unfold tier0, group_by. generalize (@nil (Z * list FileMeta)).
  induction metas as [|m metas IH]; intros d; simpl; [reflexivity|].
  destruct (0 <? size m)%Z; simpl; apply IH.
Qed.

Lemma tier0_bucket (metas : list FileMeta) (k : Z) (group : list FileMeta) :
  In (k, group) (tier0 metas) ->
  (List.length group
   <= List.length (filter (fun m => (size m =? k)%Z) metas))%nat.
Proof.
  rewrite tier0_group_by. intros Hin.
  apply (group_by_exact Z.eqb size Zeqb_iff) in Hin. destruct Hin as [-> _].
  induction metas as [|m metas IH]; simpl; [lia|].
  destruct (0 <? size m)%Z; simpl; destruct (size m =? k)%Z; simpl; lia.
Qed.

Lemma filter_map_length (A B : Type) (f : A -> B) (p : B -> bool) (l : list A) :
  List.length (filter p (map f l)) = List.length (filter (fun x => p (f x)) l).
Proof.
  induction l as [|x l IH]; simpl; [reflexivity|].
  destruct (p (f x)); simpl; now rewrite IH.
Qed.

Lemma dup_entry_sha (g : string * list FileMeta) (x : DupGroup.t) :
  In x (dup_entry g) -> DupGroup.sha256 x = fst g.
Proof.
  destruct g as [sha group]. unfold dup_entry.
  destruct (List.length group <? 2)%nat; [intros []|].
  destruct group; [intros []|]. intros [<-|[]]. reflexivity.
Qed.

Lemma dup_entries_nodup (gs : list (string * list FileMeta)) :
  NoDup (keys gs) -> NoDup (map DupGroup.sha256 (flat_map dup_entry gs)).
Proof.
  induction gs as [|[sha group] gs IH]; simpl; intros Hnd; [constructor|].
  inversion Hnd as [|? ? Hout Hnd']; subst.
  assert (Htail : forall x, In x (map DupGroup.sha256 (flat_map dup_entry gs)) ->
                            In x (keys gs)).
  { intros x Hx. apply in_map_iff in Hx. destruct Hx as (e & <- & He).
    apply in_flat_map in He. destruct He as (g & Hg & He).
    rewrite (dup_entry_sha _ _ He). now apply in_map. }
  rewrite map_app.
  destruct (List.length group <? 2)%nat; simpl; [now apply IH|].
  destruct group; simpl; [now apply IH|].
  constructor; [|now apply IH]. intros Hin. apply Hout. now apply Htail.
Qed.

Lemma dup_ge_trans (a b c : DupGroup.t) : dup_ge a b -> dup_ge b c -> dup_ge a c.
Proof. unfold dup_ge. lia. Qed.

Lemma insert_dup_sorted (x : DupGroup.t) (l : list DupGroup.t) :
  StronglySorted dup_ge l -> StronglySorted dup_ge (insert_dup x l).
Proof.
  induction l as [|y l IH]; simpl; intros Hs.
  - constructor; [constructor | constructor].
  - apply StronglySorted_inv in Hs. destruct Hs as [Hl Hy].
    destruct (dup_before x y) eqn:E.
    + assert (Hxy : dup_ge x y).
      { unfold dup_before in E. unfold dup_ge.
        apply orb_true_iff in E. destruct E as [E|E].
        - left. now apply Z.ltb_lt.
        - apply andb_true_iff in E. destruct E as [E1 E2].
          apply Z.eqb_eq in E1. apply Nat.ltb_lt in E2. right. split; [exact E1 | lia]. }
      constructor; [now constructor|].
      constructor; [exact Hxy|].
      eapply Forall_impl; [|exact Hy]. intros z Hz. now apply dup_ge_trans with y.
    + assert (Hyx : dup_ge y x).
      { unfold dup_before in E. unfold dup_ge.
        apply orb_false_iff in E. destruct E as [E1 E2].
        apply Z.ltb_ge in E1.
        destruct (DupGroup.total_size y =? DupGroup.total_size x)%Z eqn:E3.
        - apply Z.eqb_eq in E3. simpl in E2. apply Nat.ltb_ge in E2.
          right. split; [now symmetry | exact E2].
        - apply Z.eqb_neq in E3. left. lia. }
      constructor; [now apply IH|].
      apply Forall_forall. intros z Hz.
      apply (Permutation_in _ (insert_dup_perm x l)) in Hz.
      destruct Hz as [<-|Hz]; [exact Hyx|].
      rewrite Forall_forall in Hy. now apply Hy.
Qed.

Lemma sort_dups_sorted (l : list DupGroup.t) : StronglySorted dup_ge (sort_dups l).
Proof.
  unfold sort_dups. apply fold_left_inv; [|constructor].
  intros acc x _ Hacc. now apply insert_dup_sorted.
Qed.

Lemma insert_path_sorted (x : string) (l : list string) :
  Sorted path_le l -> Sorted path_le (insert_path x l).
Proof.
  induction l as [|y l IH]; simpl; intros Hs.
  - constructor; constructor.
  - destruct (String.leb x y) eqn:E.
    + constructor; [exact Hs|]. constructor. exact E.
    + inversion Hs as [|? ? Hl Hy]; subst.
      constructor; [now apply IH|].
      assert (Hyx : path_le y x).
      { unfold path_le. destruct (String.leb_total x y) as [F|F]; congruence. }
      destruct l as [|z l]; simpl.
      * constructor. exact Hyx.
      * destruct (String.leb x z); constructor; [exact Hyx|].
        inversion Hy; subst. assumption.
Qed.

Lemma sorted_sorted (l : list string) : Sorted path_le (sorted l).
Proof.
  induction l as [|x l IH]; simpl; [constructor|]. now apply insert_path_sorted.
Qed.

(** X1.  Duplicates are found: two entries of [files] that are not the
    same record, with one positive size, one sampled fingerprint (or both
    without one) and one streaming digest [sha], are member paths of one
    reported duplicate group, the group of [sha]. *)
Theorem duplicates_reported_together (sc : Scanner) (H : Hashlib) (w : World)
    (mt : Meter) (root : string) (rep : Report) (f1 f2 : FileRec.t) (sha : string) :
  scan_directory sc H w mt root = Returned rep ->
  In f1 (files rep) -> In f2 (files rep) -> f1 <> f2 ->
  (0 < FileRec.size f1)%Z -> FileRec.size f1 = FileRec.size f2 ->
  sampled_fingerprint H w (FileRec.path f1) = sampled_fingerprint H w (FileRec.path f2) ->
  stream_hash sc H w (FileRec.path f1) = Some sha ->
  stream_hash sc H w (FileRec.path f2) = Some sha ->
  exists g, In g (duplicate_groups rep) /\ DupGroup.sha256 g = sha /\
            In (FileRec.path f1) (DupGroup.files g) /\
            In (FileRec.path f2) (DupGroup.files g).
Proof.
  intros Hscan Hf1 Hf2 Hne Hpos Hsz Hfp Hs1 Hs2.
  destruct (scan_returned _ _ _ _ _ Hscan) as (t & _ & _ & _ & _ & Hfiles & Hdups & _).
  rewrite Hfiles in Hf1, Hf2. rewrite Hdups.
  apply in_map_iff in Hf1. destruct Hf1 as (m1 & <- & Hm1).
  apply in_map_iff in Hf2. destruct Hf2 as (m2 & <- & Hm2).
  simpl in *.
  assert (Hne' : m1 <> m2) by congruence.
  assert (Hfp' : fp_key H w m1 = fp_key H w m2) by (unfold fp_key; now rewrite Hfp).
  destruct (@groups_of_complete sc H w _ m1 m2 sha Hm1 Hm2 Hne' Hpos Hsz Hfp' Hs1 Hs2)
    as (group & Hg & Hi1 & Hi2 & Hlen).
  assert (Hentry : exists g0, dup_entry (sha, group)
            = [DupGroup.mk sha (size g0 * Z.of_nat (List.length group))%Z
                 (List.length group) (sorted (map path group))]).
  { unfold dup_entry. destruct (List.length group <? 2)%nat eqn:E.
    - apply Nat.ltb_lt in E. lia.
    - destruct group as [|g0 group']; [simpl in Hlen; lia|]. now exists g0. }
  destruct Hentry as (g0 & Hentry).
  eexists. split; [|split; [|split]].
  - unfold dup_out. apply (Permutation_in _ (Permutation_sym (sort_dups_perm _))).
    apply in_flat_map. exists (sha, group). split; [exact Hg|].
    rewrite Hentry. now left.
  - reflexivity.
  - simpl. apply (Permutation_in _ (Permutation_sym (sorted_perm _))). now apply in_map.
  - simpl. apply (Permutation_in _ (Permutation_sym (sorted_perm _))). now apply in_map.
Qed.

(** X1, witness: the two equal files of three bytes. *)
Lemma duplicates_reported_together_witness :
  exists g, In g (duplicate_groups Examples.twins_report) /\ DupGroup.sha256 g = "abc" /\
            In "/data/x1.dat" (DupGroup.files g) /\ In "/data/x2.dat" (DupGroup.files g).
Proof.
  apply (@duplicates_reported_together default_scanner Examples.ideal Examples.twins
           Examples.still "/data" Examples.twins_report Cases.x1 Cases.x2 "abc").
  - vm_compute. reflexivity.
  - simpl. now left.
  - simpl. right. now left.
  - discriminate.
  - reflexivity.
  - reflexivity.
  - reflexivity.
  - reflexivity.
  - reflexivity.
Defined.

(** X2.  The duplicate groups of a report carry pairwise distinct digests,
    and no path is a member of two groups. *)
Theorem duplicate_groups_disjoint (sc : Scanner) (H : Hashlib) (w : World)
    (mt : Meter) (root : string) (rep : Report) :
  scan_directory sc H w mt root = Returned rep ->
  NoDup (map DupGroup.sha256 (duplicate_groups rep)) /\
  (forall g1 g2 p, In g1 (duplicate_groups rep) -> In g2 (duplicate_groups rep) ->
     In p (DupGroup.files g1) -> In p (DupGroup.files g2) -> g1 = g2).
Proof.
  intros Hscan.
  destruct (scan_returned _ _ _ _ _ Hscan) as (t & _ & _ & _ & _ & _ & Hdups & _).
  rewrite Hdups.
  assert (Hnd : NoDup (map DupGroup.sha256 (dup_out sc H w (collect_metas sc w root t)))).
  { unfold dup_out.
    eapply Permutation_NoDup.
    - apply Permutation_map, Permutation_sym, sort_dups_perm.
    - apply dup_entries_nodup. unfold groups_of. apply tier2_keys. }
  split; [exact Hnd|].
  intros g1 g2 p Hg1 Hg2 Hp1 Hp2.
  destruct (dup_out_member _ _ _ _ _ _ Hg1 Hp1) as (_ & _ & _ & _ & E1 & _).
  destruct (dup_out_member _ _ _ _ _ _ Hg2 Hp2) as (_ & _ & _ & _ & E2 & _).
  apply (nodup_map_inj DupGroup.sha256 _ g1 g2 Hnd Hg1 Hg2). congruence.
Qed.

(** X2, witness: the two pairs of equal files. *)
Lemma duplicate_groups_disjoint_witness :
  NoDup (map DupGroup.sha256 (duplicate_groups Cases.sized_report)).
Proof.
  apply (@duplicate_groups_disjoint default_scanner Examples.ideal Examples.mixed_files
           Examples.still "/data" Cases.sized_report).
  vm_compute. reflexivity.
Defined.

(** X3.  The duplicate groups are listed by decreasing total size and, at
    equal total size, by decreasing count: every group is at least as
    large as every group listed after it. *)
Theorem duplicate_groups_sorted (sc : Scanner) (H : Hashlib) (w : World)
    (mt : Meter) (root : string) (rep : Report) :
  scan_directory sc H w mt root = Returned rep ->
  StronglySorted dup_ge (duplicate_groups rep).
Proof.
  intros Hscan.
  destruct (scan_returned _ _ _ _ _ Hscan) as (t & _ & _ & _ & _ & _ & Hdups & _).
  rewrite Hdups. unfold dup_out. apply sort_dups_sorted.
Qed.

(** X3, witness: the pair of two-byte files before the pair of one-byte files. *)
Lemma duplicate_groups_sorted_witness :
  StronglySorted dup_ge (duplicate_groups Cases.sized_report).
Proof.
  apply (@duplicate_groups_sorted default_scanner Examples.ideal Examples.mixed_files
           Examples.still "/data" Cases.sized_report).
  vm_compute. reflexivity.
Defined.

(** X4.  The member paths of every duplicate group are listed in
    code-point order: each path is at most the one after it. *)
Theorem duplicate_group_files_sorted (sc : Scanner) (H : Hashlib) (w : World)
    (mt : Meter) (root : string) (rep : Report) (g : DupGroup.t) :
  scan_directory sc H w mt root = Returned rep ->
  In g (duplicate_groups rep) ->
  Sorted path_le (DupGroup.files g).
Proof.
  intros Hscan Hg.
  destruct (scan_returned _ _ _ _ _ Hscan) as (t & _ & _ & _ & _ & _ & Hdups & _).
  rewrite Hdups in Hg.
  destruct (in_dup_out _ _ _ _ _ Hg) as (group & g0 & _ & _ & _ & ->).
  simpl. apply sorted_sorted.
Qed.

(** X4, witness: the copy below /data/copy sorts before the original. *)
Lemma duplicate_group_files_sorted_witness :
  Sorted path_le ["/data/copy/sample.fastq.gz"; "/data/sample.fastq.gz"].
Proof.
  apply (@duplicate_group_files_sorted default_scanner Examples.ideal Examples.lab
           Examples.still "/data" Examples.lab_report
           (DupGroup.mk "@r1" 6 2 ["/data/copy/sample.fastq.gz"; "/data/sample.fastq.gz"])).
  - vm_compute. reflexivity.
  - simpl. now left.
Defined.

(** X5.  Only files that share their size are compared: every member path
    of a duplicate group is the path of an entry of [files] that is not
    empty and whose size is the size of two entries or more. *)
Theorem duplicate_member_shares_size (sc : Scanner) (H : Hashlib) (w : World)
    (mt : Meter) (root : string) (rep : Report) (g : DupGroup.t) (p : string) :
  scan_directory sc H w mt root = Returned rep ->
  In g (duplicate_groups rep) -> In p (DupGroup.files g) ->
  exists f, In f (files rep) /\ FileRec.path f = p /\ (0 < FileRec.size f)%Z /\
            (2 <= List.length (same_size (FileRec.size f) (files rep)))%nat.
Proof.
  intros Hscan Hg Hp.
  destruct (scan_returned _ _ _ _ _ Hscan) as (t & _ & _ & _ & _ & Hfiles & Hdups & _).
  rewrite Hdups in Hg. rewrite Hfiles.
  destruct (dup_out_member _ _ _ _ _ _ Hg Hp) as (m & bucket & Hm & Hpath & _ & Hb & Hlen & Hmb).
  destruct (tier1_sat H w _ _ _ Hb _ Hmb) as (_ & group & Hgr & Hlen' & Hmg).
  simpl in Hgr.
  destruct (tier0_sat _ _ _ Hgr _ Hmg) as (_ & _ & Hpos).
  exists (file_rec m). split; [now apply in_map|]. split; [exact Hpath|].
  split; [exact Hpos|]. simpl. unfold same_size.
  rewrite filter_map_length. simpl.
  apply tier0_bucket in Hgr. lia.
Qed.

(** X5, witness: a member of the group of the two equal files. *)
Lemma duplicate_member_shares_size_witness :
  exists f, In f (files Examples.twins_report) /\ FileRec.path f = "/data/x1.dat" /\
            (0 < FileRec.size f)%Z /\
            (2 <= List.length (same_size (FileRec.size f) (files Examples.twins_report)))%nat.
Proof.
  apply (@duplicate_member_shares_size default_scanner Examples.ideal Examples.twins
           Examples.still "/data" Examples.twins_report Examples.twins_group).
  - vm_compute. reflexivity.
  - simpl. now left.
  - simpl. now left.
Defined.
Lemma upper_char_idem (c : ascii) : Str.upper_char (Str.upper_char c) = Str.upper_char c.
Proof. destruct c as [[] [] [] [] [] [] [] []]; reflexivity. Qed.

Lemma upper_idem (s : string) : Str.upper (Str.upper s) = Str.upper s.
Proof.
  induction s as [|c s IH]; simpl; [reflexivity|].
  unfold Str.upper in *. simpl. now rewrite upper_char_idem, IH.
Qed.

Lemma norm_container_cases (s : string) :
  (_norm_container s = "GZIP" /\ Str.mem (Str.upper s) ["GZ"; "GZIP"] = true)
  \/ (_norm_container s = "BGZF" /\ Str.mem (Str.upper s) ["BGZ"; "BGZF"] = true)
  \/ (_norm_container s = Str.upper s
      /\ Str.mem (Str.upper s) ["GZ"; "GZIP"; "BGZ"; "BGZF"] = false).
Proof.
  unfold _norm_container, dict_get, Str.mem. cbn [find fst snd existsb].
  rewrite (String.eqb_sym "GZ"), (String.eqb_sym "GZIP"), (String.eqb_sym "BGZ"),
    (String.eqb_sym "BGZF").
  destruct (String.eqb (Str.upper s) "GZ") eqn:E1; cbn [orb]; [now left|].
  destruct (String.eqb (Str.upper s) "GZIP") eqn:E2; cbn [orb]; [now left|].
  destruct (String.eqb (Str.upper s) "BGZ") eqn:E3; cbn [orb]; [right; now left|].
  destruct (String.eqb (Str.upper s) "BGZF") eqn:E4; cbn [orb]; [right; now left|].
  right. right. now split.
Qed.

(** X6.  Normalising a container name twice is normalising it once: the
    second normalisation, in the mismatch loop, leaves the container that
    [_normalize_extensions] stored as it is. *)
Theorem norm_container_idempotent (s : string) :
  _norm_container (_norm_container s) = _norm_container s.
Proof.
  destruct (norm_container_cases s) as [[-> _]|[[-> _]|[E Hno]]]; try reflexivity.
  rewrite E.
  destruct (norm_container_cases (Str.upper s)) as [[_ H1]|[[_ H1]|[E' _]]].
  - rewrite upper_idem in H1. unfold Str.mem in *. cbn [existsb] in *.
    apply orb_false_iff in Hno. destruct Hno as [N1 Hno].
    apply orb_false_iff in Hno. destruct Hno as [N2 Hno].
    rewrite N1, N2 in H1. discriminate.
  - rewrite upper_idem in H1. unfold Str.mem in *. cbn [existsb] in *.
    apply orb_false_iff in Hno. destruct Hno as [N1 Hno].
    apply orb_false_iff in Hno. destruct Hno as [N2 Hno].
    apply orb_false_iff in Hno. destruct Hno as [N3 Hno].
    apply orb_false_iff in Hno. destruct Hno as [N4 Hno].
    rewrite N3, N4 in H1. discriminate.
  - rewrite E'. apply upper_idem.
Qed.

(** ** The fields of a file entry *)

Lemma sniff_bytes_range (head : list byte) : In (sniff_bytes head) HEADER_KINDS.
Proof.
  unfold sniff_bytes, HEADER_KINDS.
  repeat match goal with
         | |- context [if ?b then _ else _] => destruct b
         end; simpl; tauto.
Qed.

Lemma sniff_header_range (w : World) (p : string) : In (sniff_header w p) HEADER_KINDS.
Proof.
  unfold sniff_header. destruct (w_read w Classify p).
  - apply sniff_bytes_range.
  - simpl. tauto.
Qed.

Lemma dict_get_logical (k d : string) :
  dict_get logical_map k d = d \/ In (dict_get logical_map k d) BIO_LOGICAL.
Proof.
  unfold dict_get, logical_map. cbn [find fst snd].
  repeat match goal with
         | |- context [if ?b then _ else _] => destruct b
         end; simpl; tauto.
Qed.

Lemma dict_get_logical_key (k d : string) :
  Str.mem k ["bam"; "cram"; "bcf"; "vcf"; "sam"; "fastq"; "fq"; "fasta"; "fa"] = true ->
  In (dict_get logical_map k d) BIO_LOGICAL.
Proof.
  unfold Str.mem. intros Hk. apply existsb_exists in Hk.
  destruct Hk as (x & Hx & E). apply String.eqb_eq in E. subst x.
  simpl in Hx.
  repeat (destruct Hx as [<-|Hx]; [simpl; tauto|]). destruct Hx.
Qed.

Lemma normalize_extensions_range (p : string) :
  In (snd (fst (_normalize_extensions p))) [EmptyString; "GZIP"; "BGZF"] /\
  In (snd (_normalize_extensions p)) (EmptyString :: BIO_LOGICAL).
Proof.
  unfold _normalize_extensions.
  destruct (map (fun s => Str.lower (Str.lstrip "." s)) (Path.suffixes p)) as [|s0 l].
  - simpl. tauto.
  - set (sfx := s0 :: l).
    destruct (Str.mem (last_suffix sfx) ["gz"; "gzip"]).
    + cbn [negb String.eqb andb].
      destruct (2 <=? List.length sfx)%nat; cbn [fst snd].
      * split; [simpl; tauto|].
        destruct (dict_get_logical (prev_suffix sfx) EmptyString) as [->|Hin];
          [now left | now right].
      * split; simpl; tauto.
    + destruct (Str.mem (last_suffix sfx) ["bgz"; "bgzf"]).
      * cbn [negb String.eqb andb].
        destruct (2 <=? List.length sfx)%nat; cbn [fst snd].
        -- split; [simpl; tauto|].
           destruct (dict_get_logical (prev_suffix sfx) EmptyString) as [->|Hin];
             [now left | now right].
        -- split; simpl; tauto.
      * destruct (Str.mem (last_suffix sfx)
                    ["bam"; "cram"; "bcf"; "vcf"; "sam"; "fastq"; "fq"; "fasta"; "fa"]) eqn:E.
        -- cbn [negb String.eqb andb fst snd]. split; [simpl; tauto|].
           right. now apply dict_get_logical_key.
        -- cbn [negb String.eqb andb fst snd]. split; simpl; tauto.
Qed.

Lemma classify_ext (w : World) (p : string) (m : FileMeta) :
  classify w p = Some m ->
  ext_full m = Str.upper (fst (fst (_normalize_extensions p))) /\
  ext_container m = snd (fst (_normalize_extensions p)) /\
  ext_logical m = snd (_normalize_extensions p).
Proof.
  unfold classify. destruct (w_stat w Classify p) as [[sz mt]|]; [|discriminate].
  destruct (_normalize_extensions p) as [[full container] logical].
  intros E. inversion E; subst. simpl. auto.
Qed.

Lemma metas_of_scan (sc : Scanner) (w : World) (root : string) (t : tree) (m : FileMeta) :
  In m (collect_metas sc w root t) -> classify w (path m) = Some m.
Proof.
  intros Hm.
  destruct (collect_metas_in _ _ _ _ _ Hm) as (dirpath & ds & fns & fn & _ & _ & Hc).
  destruct (classify_some _ _ Hc) as (E & _). rewrite E. exact Hc.
Qed.

(** X7.  The fields of a file entry are in range: the header type is one
    of the nine answers of the sniffer, the container extension is empty,
    GZIP or BGZF, and the logical extension is empty or a bio type. *)
Theorem file_entry_in_range (sc : Scanner) (H : Hashlib) (w : World) (mt : Meter)
    (root : string) (rep : Report) (f : FileRec.t) :
  scan_directory sc H w mt root = Returned rep -> In f (files rep) ->
  In (FileRec.header_type f) HEADER_KINDS /\
  In (FileRec.extension_container f) [EmptyString; "GZIP"; "BGZF"] /\
  In (FileRec.extension_logical f) (EmptyString :: BIO_LOGICAL).
Proof.
  intros Hscan Hf.
  destruct (scan_returned _ _ _ _ _ Hscan) as (t & _ & _ & _ & _ & Hfiles & _).
  rewrite Hfiles in Hf. apply in_map_iff in Hf. destruct Hf as (m & <- & Hm).
  apply metas_of_scan in Hm.
  destruct (classify_some _ _ Hm) as (_ & Hh & _).
  destruct (classify_ext _ _ Hm) as (_ & Hc & Hl).
  simpl. rewrite Hh, Hc, Hl.
  split; [apply sniff_header_range|]. apply normalize_extensions_range.
Qed.

(** X7, witness: the gzipped reads of the lab directory. *)
Lemma file_entry_in_range_witness :
  In "FASTQ" HEADER_KINDS /\ In "GZIP" [EmptyString; "GZIP"; "BGZF"] /\
  In "FASTQ" (EmptyString :: BIO_LOGICAL).
Proof.
  apply (@file_entry_in_range default_scanner Examples.ideal Examples.lab Examples.still
           "/data" Examples.lab_report
           (FileRec.mk "/data/sample.fastq.gz" 3 "FASTQ" "FASTQ.GZ" "GZIP" "FASTQ")).
  - vm_compute. reflexivity.
  - simpl. right. now left.
Defined.

(** ** What the sniffer and the digests read *)

Lemma startswith_firstn (pre b : list byte) (n : nat) :
  (List.length pre <= n)%nat ->
  Bytes.startswith pre (firstn n b) = Bytes.startswith pre b.
Proof.
  revert b n. induction pre as [|x pre IH]; intros b n Hn.
  - destruct (firstn n b); reflexivity.
  - destruct n as [|n]; [simpl in Hn; lia|].
    destruct b as [|y b]; [reflexivity|].
    simpl. rewrite IH by (simpl in Hn; lia). reflexivity.
Qed.

Lemma firstn_256 (k : nat) (b : list byte) :
  (k <= 256)%nat -> firstn k (firstn 256 b) = firstn k b.
Proof.
  intros Hk. rewrite firstn_firstn. now rewrite (Nat.min_l k 256 Hk).
Qed.

Lemma sniff_bytes_head (head : list byte) :
  sniff_bytes (firstn 256 head) = sniff_bytes head.
Proof.
  unfold sniff_bytes.
  rewrite !startswith_firstn by (simpl; lia).
  rewrite (@firstn_256 4), (@firstn_256 3), (@firstn_256 1), (@firstn_256 256) by lia.
  replace (3 <=? List.length (firstn 256 head))%nat with (3 <=? List.length head)%nat;
    [reflexivity|].
  rewrite length_firstn.
  destruct (3 <=? List.length head)%nat eqn:E.
  - apply Nat.leb_le in E. symmetry. apply Nat.leb_le. lia.
  - apply Nat.leb_gt in E. symmetry. apply Nat.leb_gt. lia.
Qed.

(** X8.  The header type is decided by the first 256 bytes: two files
    that can be opened and agree on these bytes get one header type. *)
Theorem sniff_header_reads_256 (w : World) (p q : string) (c1 c2 : list byte) :
  w_read w Classify p = Some c1 -> w_read w Classify q = Some c2 ->
  firstn 256 c1 = firstn 256 c2 ->
  sniff_header w p = sniff_header w q.
Proof.
  intros Hp Hq E. unfold sniff_header. rewrite Hp, Hq.
  rewrite <- (sniff_bytes_head (firstn 1024 c1)), <- (sniff_bytes_head (firstn 1024 c2)).
  rewrite !firstn_firstn.
  replace (Nat.min 256 1024) with 256%nat by (symmetry; apply Nat.min_l; lia).
  now rewrite E.
Qed.

(** X8, witness: the reads of the lab directory and their copy. *)
Lemma sniff_header_reads_256_witness :
  sniff_header Examples.lab "/data/sample.fastq.gz"
  = sniff_header Examples.lab "/data/copy/sample.fastq.gz".
Proof.
  apply (@sniff_header_reads_256 Examples.lab "/data/sample.fastq.gz"
           "/data/copy/sample.fastq.gz" (Examples.txt "@r1") (Examples.txt "@r1")).
  - reflexivity.
  - reflexivity.
  - reflexivity.
Defined.

Lemma take_length (n : Z) (b : list byte) :
  (Z.of_nat (List.length (Bytes.take n b)) <= Z.max 0 n)%Z.
Proof.
  revert n. induction b as [|x b IH]; intros n; simpl; [lia|].
  destruct (n <=? 0)%Z eqn:E; simpl List.length.
  - lia.
  - apply Z.leb_gt in E. specialize (IH (n - 1)%Z). lia.
Qed.

Lemma window_length (lo n : Z) (b : list byte) :
  (Z.of_nat (List.length (window lo n b)) <= Z.max 0 n)%Z.
Proof. unfold window, Bytes.slice. apply take_length. Qed.

(** X9.  The sampled fingerprint hashes at most three windows of 64 KiB:
    its input never exceeds 196608 bytes, whatever the size of the file. *)
Theorem sampled_input_bounded (st_size : Z) (content : list byte) :
  (Z.of_nat (List.length (sampled_input st_size content)) <= 196608)%Z.
Proof.
  unfold sampled_input. rewrite !length_app, !Nat2Z.inj_add.
  pose proof (window_length 0 65536 content) as H0.
  pose proof (window_length (Z.max 0 (st_size / 2 - 32768)) 65536 content) as H1.
  pose proof (window_length (Z.max 0 (st_size - 65536)) 65536 content) as H2.
  destruct (196608 <=? st_size)%Z; destruct (65536 <=? st_size)%Z;
    simpl List.length; lia.
Qed.



(** ** Mismatches *)

(** X11.  A file whose name and header agree is never reported as a
    mismatch, whatever the flags of the scanner: compressed content under
    a compressed name, whatever its logical extension, and uncompressed
    content whose header is the logical extension of the name. *)
Theorem consistent_file_not_reported (sc : Scanner) (m : FileMeta) :
  consistent m -> mismatch_of sc m = [].
Proof.
  unfold consistent, mismatch_of, is_mismatch.
  set (header := Str.upper (header_type m)).
  set (ec := _norm_container (ext_container m)).
  set (el := Str.upper (ext_logical m)).
  intros Hc.
  destruct (Str.mem header ["UNKNOWN"; EmptyString]); [reflexivity|].
  destruct (negb (include_non_bio_mismatches sc)
            && negb (Str.mem header BIO_LOGICAL || Str.mem header BIO_CONTAINERS
                     || (Str.mem el BIO_LOGICAL || Str.mem ec BIO_CONTAINERS)));
    [reflexivity|].
  destruct Hc as [[Hh He]|[Hh [He Hl]]]; rewrite Hh, He.
  - reflexivity.
  - rewrite <- Hl, String.eqb_refl. simpl. destruct (String.eqb header EmptyString); reflexivity.
Qed.

(** X11, witness: the gzip stream stored as sample.fastq.gz. *)
Lemma consistent_file_not_reported_witness :
  mismatch_of default_scanner
    (mkFileMeta "/data/sample.fastq.gz" 4 0 "GZIP" "FASTQ.GZ" "GZIP" "FASTQ") = [].
Proof.
  apply consistent_file_not_reported.
  left. split; reflexivity.
Defined.

(** X12.  Uncompressed content under a compressed name is always
    reported: a file whose header is known and is no container, under a
    name with a gzip or bgzf extension, yields its mismatch record,
    whatever the flags of the scanner. *)
Theorem plain_under_compressed_name_reported (sc : Scanner) (metas : list FileMeta)
    (m : FileMeta) :
  In m metas -> plain_under_compressed_name m ->
  mismatch_of sc m = [mismatch_record m] /\
  In (mismatch_record m) (mismatches_of sc metas).
Proof.
  intros Hm (Hu & Hh & He).
  assert (E : mismatch_of sc m = [mismatch_record m]).
  { unfold mismatch_of, is_mismatch, mismatch_record.
    rewrite Hu, Hh, He. rewrite !orb_true_r. simpl negb. rewrite andb_false_r.
    reflexivity. }
  split; [exact E|].
  unfold mismatches_of. apply in_flat_map. exists m. split; [exact Hm|].
  rewrite E. now left.
Qed.

(** X12, witness: FASTQ text stored as sample.fastq.gz in the lab directory. *)
Lemma plain_under_compressed_name_reported_witness :
  In (Mismatch.mk "/data/sample.fastq.gz" "FASTQ.GZ" "GZIP" "FASTQ" "FASTQ")
     (mismatches_of default_scanner
        (collect_metas default_scanner Examples.lab "/data" Examples.lab_tree)).
Proof.
  apply (@plain_under_compressed_name_reported default_scanner
           (collect_metas default_scanner Examples.lab "/data" Examples.lab_tree)
           (mkFileMeta "/data/sample.fastq.gz" 3 0 "FASTQ" "FASTQ.GZ" "GZIP" "FASTQ")).
  - vm_compute. right. now left.
  - split; [|split]; reflexivity.
Defined.

(** ** Sample groups and erasable candidates *)

Lemma by_sample_group_by (files_out : list FileRec.t) :
  by_sample files_out = group_by String.eqb sample_of files_out.
Proof. reflexivity. Qed.

(** X13.  The sample groups partition the file entries by sample key:
    there is one group per key that occurs, it holds exactly the entries
    with that key, in the order of [files], and no key has two groups. *)
Theorem sample_groups_exact (files_out : list FileRec.t) :
  NoDup (keys (by_sample files_out)) /\
  (forall stem items,
     In (stem, items) (by_sample files_out) <->
     items = filter (fun f => String.eqb (sample_of f) stem) files_out /\ items <> []).
Proof.
  rewrite by_sample_group_by. split.
  - apply group_by_keys. apply String.eqb_eq.
  - intros stem items. apply group_by_exact. apply String.eqb_eq.
Qed.

Lemma existsb_find (A : Type) (p : A -> bool) (l : list A) :
  existsb p l = true -> exists x, find p l = Some x.
Proof.
  induction l as [|y l IH]; simpl; [discriminate|].
  destruct (p y); [now exists y|]. exact IH.
Qed.

Lemma find_none_existsb (A : Type) (p : A -> bool) (l : list A) :
  existsb p l = false -> find p l = None.
Proof.
  induction l as [|y l IH]; simpl; [reflexivity|].
  destruct (p y); [discriminate|]. exact IH.
Qed.

Lemma flat_map_filter_map (A B : Type) (p : A -> bool) (f : A -> B) (l : list A) :
  flat_map (fun x => if p x then [f x] else []) l = map f (filter p l).
Proof.
  induction l as [|x l IH]; simpl; [reflexivity|].
  destruct (p x); simpl; now rewrite IH.
Qed.

(** X14.  Rule 1 proposes the SAM files of a group and nothing else: with
    a BAM or a CRAM in the group its candidates are the entries with a SAM
    header or extension, each once and in the order of the group; each
    depends on the first BAM of the group, or without any BAM on the first
    CRAM and the reference; without BAM and CRAM it proposes nothing. *)
Theorem rule_sam_exact (items : list FileRec.t) :
  (existsb (fun x => _has x "BAM") items || existsb (fun x => _has x "CRAM") items = false ->
   rule_sam items = []) /\
  (existsb (fun x => _has x "BAM") items || existsb (fun x => _has x "CRAM") items = true ->
   map Candidate.path (rule_sam items)
   = map FileRec.path (filter (fun x => _has x "SAM") items)) /\
  (forall c, In c (rule_sam items) ->
     (exists bam, first_with (fun y => _has y "BAM") items bam /\
                  Candidate.depends_on c = [FileRec.path bam])
     \/ (existsb (fun x => _has x "BAM") items = false /\
         exists cram, first_with (fun y => _has y "CRAM") items cram /\
                      Candidate.depends_on c = [FileRec.path cram; "<ref.fa>"])).
Proof.
  unfold rule_sam, ALLOW_SAM_REGEN, first_with. cbn [andb].
  destruct (existsb (fun x => _has x "BAM") items) eqn:Hbam.
  - destruct (existsb_find _ _ Hbam) as (bam & Eb). rewrite Eb. cbn [orb].
    rewrite andb_true_r.
    split; [discriminate|]. split.
    + intros _. destruct (existsb (fun x => _has x "SAM") items) eqn:Hsam.
      * rewrite flat_map_filter_map, map_map. reflexivity.
      * simpl. symmetry.
        replace (filter (fun x => _has x "SAM") items) with (@nil FileRec.t); [reflexivity|].
        symmetry. clear -Hsam. induction items as [|x items IH]; simpl in *; [reflexivity|].
        apply orb_false_iff in Hsam. destruct Hsam as [-> Hs]. now apply IH.
    + intros c Hc. left. exists bam. split; [reflexivity|].
      destruct (existsb (fun x => _has x "SAM") items); [|destruct Hc].
      apply in_flat_map in Hc. destruct Hc as (x & _ & Hc).
      destruct (_has x "SAM"); [|destruct Hc]. destruct Hc as [<-|[]]. reflexivity.
  - cbn [orb].
    destruct (existsb (fun x => _has x "CRAM") items) eqn:Hcram.
    + destruct (existsb_find _ _ Hcram) as (cram & Ec). rewrite Ec.
      rewrite andb_true_r.
      split; [discriminate|]. split.
      * intros _. destruct (existsb (fun x => _has x "SAM") items) eqn:Hsam.
        -- rewrite flat_map_filter_map, map_map. reflexivity.
        -- simpl. symmetry.
           replace (filter (fun x => _has x "SAM") items) with (@nil FileRec.t);
             [reflexivity|].
           symmetry. clear -Hsam. induction items as [|x items IH]; simpl in *; [reflexivity|].
           apply orb_false_iff in Hsam. destruct Hsam as [-> Hs]. now apply IH.
      * intros c Hc. right. split; [reflexivity|]. exists cram. split; [reflexivity|].
        destruct (existsb (fun x => _has x "SAM") items); [|destruct Hc].
        apply in_flat_map in Hc. destruct Hc as (x & _ & Hc).
        destruct (_has x "SAM"); [|destruct Hc]. destruct Hc as [<-|[]]. reflexivity.
    + rewrite andb_false_r. split; [reflexivity|]. split; [discriminate | intros c []].
Qed.

(** X14, witness: the SAM of the sample with a BAM and a CRAM. *)
Lemma rule_sam_exact_witness :
  map Candidate.path (rule_sam Cases.alignment_group) = ["/data/sample.sam"].
Proof.
  apply (proj1 (proj2 (rule_sam_exact Cases.alignment_group))).
  reflexivity.
Defined.

(** X15.  Rule 2 proposes the BAM files outside a compression container
    and nothing else: with a CRAM in the group its candidates are these
    entries, each once and in the order of the group, and each depends on
    the first CRAM of the group and on the reference; without a CRAM it
    proposes nothing. *)
Theorem rule_bam_exact (items : list FileRec.t) :
  (existsb (fun x => _has x "CRAM") items = false -> rule_bam items = []) /\
  (existsb (fun x => _has x "CRAM") items = true ->
   map Candidate.path (rule_bam items) = map FileRec.path (filter is_plain_bam items)) /\
  (forall c, In c (rule_bam items) ->
     exists cram, first_with (fun y => _has y "CRAM") items cram /\
                  Candidate.depends_on c = [FileRec.path cram; "<ref.fa>"]).
Proof.
  unfold rule_bam, first_with.
  destruct (existsb (fun x => _has x "CRAM") items) eqn:Hcram.
  - destruct (existsb_find _ _ Hcram) as (cram & Ec). rewrite Ec. rewrite andb_true_r.
    split; [discriminate|]. split.
    + intros _. destruct (existsb is_plain_bam items) eqn:Hbam.
      * rewrite map_map. reflexivity.
      * simpl. symmetry.
        replace (filter is_plain_bam items) with (@nil FileRec.t); [reflexivity|].
        symmetry. clear -Hbam. induction items as [|x items IH]; simpl in *; [reflexivity|].
        apply orb_false_iff in Hbam. destruct Hbam as [-> Hs]. now apply IH.
    + intros c Hc. exists cram. split; [reflexivity|].
      destruct (existsb is_plain_bam items); [|destruct Hc].
      apply in_map_iff in Hc. destruct Hc as (b & <- & _). reflexivity.
  - rewrite andb_false_r. split; [reflexivity|]. split; [discriminate | intros c []].
Qed.

(** X15, witness: the BAM of the sample with a CRAM. *)
Lemma rule_bam_exact_witness :
  map Candidate.path (rule_bam Cases.alignment_group) = ["/data/sample.bam"].
Proof.
  apply (proj1 (proj2 (rule_bam_exact Cases.alignment_group))).
  reflexivity.
Defined.

(** X16.  Rule 4 proposes the trimmed FASTQ files and nothing else: with
    a FASTQ whose name does not contain the word trimmed in the group, its
    candidates are the FASTQ entries whose name contains it, each once and
    in the order of the group; each depends first on the first untrimmed
    FASTQ, which is therefore no candidate of the rule; without an
    untrimmed FASTQ it proposes nothing. *)
Theorem rule_trimmed_exact (items : list FileRec.t) :
  (raw_fq items = [] -> rule_trimmed items = []) /\
  (raw_fq items <> [] ->
   map Candidate.path (rule_trimmed items) = map FileRec.path (trimmed_fq items)) /\
  (forall c, In c (rule_trimmed items) ->
     exists raw0 tfq,
       hd_error (raw_fq items) = Some raw0 /\
       In tfq (trimmed_fq items) /\ Candidate.path c = FileRec.path tfq /\
       hd_error (Candidate.depends_on c) = Some (FileRec.path raw0) /\
       is_trimmed raw0 = false /\ is_trimmed tfq = true).
Proof.
  unfold rule_trimmed. fold (raw_fq items). fold (trimmed_fq items).
  destruct (raw_fq items) as [|raw0 raws] eqn:Er.
  - split; [reflexivity|]. split; [intros Hne; now elim Hne | intros c []].
  - split; [discriminate|].
    assert (Hraw : is_trimmed raw0 = false).
    { assert (Hin : In raw0 (raw_fq items)) by (rewrite Er; now left).
      unfold raw_fq in Hin. apply filter_In in Hin. destruct Hin as [_ Hn].
      now apply negb_true_iff in Hn. }
    destruct (trimmed_fq items) as [|t0 ts] eqn:Et.
    + split; [reflexivity | intros c []].
    + split.
      * intros _. rewrite map_map. reflexivity.
      * intros c Hc. apply in_map_iff in Hc. destruct Hc as (tfq & <- & Ht).
        exists raw0, tfq. repeat split; try assumption.
        rewrite <- Et in Ht. unfold trimmed_fq in Ht. apply filter_In in Ht. tauto.
Qed.

(** X16, witness: the trimmed reads beside the raw reads. *)
Lemma rule_trimmed_exact_witness :
  map Candidate.path (rule_trimmed Cases.reads_group)
  = ["/data/raw/s1_trimmed_R1.fastq.gz"].
Proof.
  apply (proj1 (proj2 (rule_trimmed_exact Cases.reads_group))).
  discriminate.
Defined.

Lemma rule_sam_deps (items : list FileRec.t) (c : Candidate.t) (d : string) :
  In c (rule_sam items) -> In d (Candidate.depends_on c) -> dep_in items d.
Proof.
  unfold rule_sam, dep_in.
  match goal with |- In c (if ?b then _ else _) -> _ => destruct b end; [|intros []].
  intros Hin. apply in_flat_map in Hin. destruct Hin as (x & Hx & Hc).
  destruct (_has x "SAM"); [|destruct Hc].
  destruct (existsb (fun x0 => _has x0 "BAM") items).
  - destruct (find (fun y => _has y "BAM") items) as [bam|] eqn:E; [|destruct Hc].
    destruct Hc as [<-|[]]. simpl. intros [<-|[]].
    right. exists bam. split; [|reflexivity]. now apply find_some in E.
  - destruct (find (fun y => _has y "CRAM") items) as [cram|] eqn:E; [|destruct Hc].
    destruct Hc as [<-|[]]. simpl. intros [<-|[<-|[]]].
    + right. exists cram. split; [|reflexivity]. now apply find_some in E.
    + now left.
Qed.

Lemma rule_bam_deps (items : list FileRec.t) (c : Candidate.t) (d : string) :
  In c (rule_bam items) -> In d (Candidate.depends_on c) -> dep_in items d.
Proof.
  unfold rule_bam, dep_in.
  match goal with |- In c (if ?b then _ else _) -> _ => destruct b end; [|intros []].
  destruct (find (fun y => _has y "CRAM") items) as [cram|] eqn:E; [|intros []].
  intros Hin. apply in_map_iff in Hin. destruct Hin as (b & <- & _).
  simpl. intros [<-|[<-|[]]].
  - right. exists cram. split; [|reflexivity]. now apply find_some in E.
  - now left.
Qed.

Lemma rule_sra_deps (items : list FileRec.t) (c : Candidate.t) (d : string) :
  In c (rule_sra items) -> In d (Candidate.depends_on c) -> dep_in items d.
Proof.
  unfold rule_sra, dep_in.
  match goal with |- In c (if ?b then _ else _) -> _ => destruct b end; [|intros []].
  unfold PREFER_SRA_OVER_FASTQ.
  destruct (find is_sra items) as [sra|]; [|intros []].
  intros [<-|[]]. simpl. intros Hd. apply in_map_iff in Hd.
  destruct Hd as (fq & <- & Hfq). unfold fastqs_of in Hfq. apply filter_In in Hfq.
  right. exists fq. split; [tauto | reflexivity].
Qed.

Lemma rule_trimmed_deps (items : list FileRec.t) (c : Candidate.t) (d : string) :
  In c (rule_trimmed items) -> In d (Candidate.depends_on c) -> dep_in items d.
Proof.
  unfold rule_trimmed, dep_in.
  destruct (filter (fun fq => negb (is_trimmed fq)) (fastqs_of items))
    as [|raw0 raws] eqn:Er; [intros []|].
  destruct (filter is_trimmed (fastqs_of items)) as [|t0 ts]; [intros []|].
  intros Hin. apply in_map_iff in Hin. destruct Hin as (tfq & <- & _).
  simpl. intros [<-|Hd].
  - right. exists raw0. split; [|reflexivity].
    assert (Hin : In raw0 (filter (fun fq => negb (is_trimmed fq)) (fastqs_of items)))
      by (rewrite Er; now left).
    apply filter_In in Hin. destruct Hin as [Hin _].
    unfold fastqs_of in Hin. apply filter_In in Hin. tauto.
  - destruct (find (fun c0 => Str.endswith ".manifest.json" (Str.lower (FileRec.path c0)))
                   items) as [mf|] eqn:E; [|destruct Hd].
    destruct (nonempty (FileRec.path mf)); [|destruct Hd].
    destruct Hd as [<-|[]]. right. exists mf. split; [|reflexivity].
    now apply find_some in E.
Qed.

Lemma group_candidates_deps (items : list FileRec.t) (c : Candidate.t) (d : string) :
  In c (group_candidates items) -> In d (Candidate.depends_on c) -> dep_in items d.
Proof.
  unfold group_candidates. intros Hin.
  repeat (apply in_app_or in Hin; destruct Hin as [Hin|Hin]);
    eauto using rule_sam_deps, rule_bam_deps, rule_sra_deps, rule_trimmed_deps.
Qed.

(** X17.  A candidate depends only on files of its own sample: in the
    report of a scan every erasable candidate is an entry of [files], and
    each of its dependencies is the placeholder of the reference or the
    path of an entry of [files] with the sample key of the candidate. *)
Theorem dependencies_in_sample (sc : Scanner) (H : Hashlib) (w : World) (mt : Meter)
    (root : string) (rep : Report) (c : Candidate.t) :
  scan_directory sc H w mt root = Returned rep ->
  In c (erasable_candidates rep) ->
  exists f, In f (files rep) /\ FileRec.path f = Candidate.path c /\
    forall d, In d (Candidate.depends_on c) ->
      d = "<ref.fa>" \/
      exists f', In f' (files rep) /\ FileRec.path f' = d /\ sample_of f' = sample_of f.
Proof.
  intros Hscan Hc.
  destruct (scan_returned _ _ _ _ _ Hscan) as (t & _ & _ & _ & _ & Hfiles & _ & Hera).
  rewrite Hera in Hc. rewrite <- Hfiles in Hc.
  unfold erasable_of in Hc. apply in_flat_map in Hc.
  destruct Hc as ([stem items] & Hg & Hc). simpl in Hc.
  rewrite by_sample_group_by in Hg.
  apply (group_by_exact String.eqb sample_of String.eqb_eq) in Hg.
  destruct Hg as [Hitems _].
  assert (Hmem : forall x, In x items -> In x (files rep) /\ sample_of x = stem).
  { intros x Hx. rewrite Hitems in Hx. apply filter_In in Hx.
    destruct Hx as [Hx E]. apply String.eqb_eq in E. now split. }
  destruct (group_candidates_path _ _ Hc) as (x & Hx & Ex).
  destruct (Hmem _ Hx) as [Hxf Hxs].
  exists x. split; [exact Hxf|]. split; [exact Ex|].
  intros d Hd. destruct (group_candidates_deps _ _ _ Hc Hd) as [->|(y & Hy & Ey)].
  - now left.
  - right. destruct (Hmem _ Hy) as [Hyf Hys].
    exists y. split; [exact Hyf|]. split; [exact Ey | congruence].
Qed.

(** X17, witness: the archive of the lab directory, which depends on the
    reads and on their copy. *)
Lemma dependencies_in_sample_witness :
  exists f, In f (files Examples.lab_report) /\ FileRec.path f = "/data/sample.sra" /\
    forall d, In d ["/data/sample.fastq.gz"; "/data/copy/sample.fastq.gz"] ->
      d = "<ref.fa>" \/
      exists f', In f' (files Examples.lab_report) /\ FileRec.path f' = d /\
                 sample_of f' = sample_of f.
Proof.
  apply (@dependencies_in_sample default_scanner Examples.ideal Examples.lab Examples.still
           "/data" Examples.lab_report Cases.lab_candidate).
  - vm_compute. reflexivity.
  - simpl. now left.
Defined.

(** ** Statistics *)

Lemma qmax_list_ge (xs : list Q) (x : Q) :
  (x <= qmax_list x xs)%Q /\ (forall y, In y xs -> (y <= qmax_list x xs)%Q).
Proof.
  unfold qmax_list. revert x. induction xs as [|z xs IH]; intros x; simpl.
  - split; [lra | intros y []].
  - destruct (Qle_bool z x) eqn:E.
    + apply Qle_bool_iff in E. destruct (IH x) as [Hx Hall].
      split; [exact Hx|]. intros y [<-|Hy]; [lra | now apply Hall].
    + assert (Hlt : (x < z)%Q).
      { apply Qnot_le_lt. intros Hle. apply Qle_bool_iff in Hle. congruence. }
      destruct (IH z) as [Hz Hall].
      split; [lra|]. intros y [<-|Hy]; [exact Hz | now apply Hall].
Qed.

Lemma rss_step_ge (samples : list psample) (peak : option Z) :
  (forall pk, peak = Some pk ->
     exists pk', fold_left rss_step samples peak = Some pk' /\ (pk <= pk')%Z) /\
  (forall c rss, In (SampleCpuRss c rss) samples ->
     exists pk', fold_left rss_step samples peak = Some pk' /\
                 (rss / (1024 * 1024) <= pk')%Z).
Proof.
  revert peak. induction samples as [|s samples IH]; intros peak.
  - split; [intros pk ->; exists pk; split; [reflexivity | lia] | intros c rss []].
  - cbn [fold_left]. split.
    + intros pk ->. destruct s as [|c|c rss]; cbn [rss_step].
      * apply (proj1 (IH _)). reflexivity.
      * apply (proj1 (IH _)). reflexivity.
      * destruct (pk <? rss / (1024 * 1024))%Z eqn:E.
        -- destruct (proj1 (IH (Some (rss / (1024 * 1024))%Z)) _ eq_refl)
             as (pk' & E' & Hle).
           exists pk'. split; [exact E'|]. apply Z.ltb_lt in E. lia.
        -- apply (proj1 (IH _)). reflexivity.
    + intros c rss [->|Hin]; [|apply (proj2 (IH _) c rss Hin)].
      cbn [rss_step]. destruct peak as [pk|].
      * destruct (pk <? rss / (1024 * 1024))%Z eqn:E.
        -- apply (proj1 (IH _) _ eq_refl).
        -- destruct (proj1 (IH (Some pk)) _ eq_refl) as (pk' & E' & Hle).
           exists pk'. split; [exact E'|]. apply Z.ltb_ge in E. lia.
      * apply (proj1 (IH _) _ eq_refl).
Qed.

(** X18.  The statistics are consistent: the wall-clock time is never
    negative; the average and the peak of the CPU load are present
    together; the peak is at least every CPU sample; the peak of the
    resident memory is at least every memory sample, in whole MiB. *)
Theorem scan_stats_consistent (sc : Scanner) (mt : Meter) (steps : nat) :
  let st := scan_stats sc mt steps in
  (0 <= wall_clock_s st)%Q /\
  (cpu_avg st = None <-> cpu_peak st = None) /\
  (forall peak c, cpu_peak st = Some peak ->
     In c (flat_map cpu_of (samples_of sc mt steps)) -> (c <= peak)%Q) /\
  (forall c rss, In (SampleCpuRss c rss) (samples_of sc mt steps) ->
     exists pk, peak_rss_mb st = Some pk /\ (rss / (1024 * 1024) <= pk)%Z).
Proof.
  unfold scan_stats. cbn [wall_clock_s cpu_avg cpu_peak peak_rss_mb].
  split; [|split; [|split]].
  - destruct (Qle_bool (perf_end mt - perf_start mt) 0) eqn:E; [lra|].
    apply Qlt_le_weak, Qnot_le_lt. intros Hle. apply Qle_bool_iff in Hle. congruence.
  - destruct (flat_map cpu_of (samples_of sc mt steps)); split; intros E;
      (reflexivity || discriminate).
  - intros peak c Hp Hc.
    destruct (flat_map cpu_of (samples_of sc mt steps)) as [|c0 cs]; [discriminate|].
    inversion Hp; subst.
    destruct (qmax_list_ge cs c0) as [H0 Hall].
    destruct Hc as [<-|Hc]; [exact H0 | now apply Hall].
  - intros c rss Hin.
    exact (proj2 (rss_step_ge (samples_of sc mt steps) None) c rss Hin).
Qed.

(** ** The walk stays below the root *)

Lemma prefix_app (a b : string) : String.prefix a (a +++ b) = true.
Proof.
  induction a as [|c a IH]; simpl; [destruct b; reflexivity|].
  destruct (ascii_dec c c); [exact IH | congruence].
Qed.

Lemma prefix_trans (a b c : string) :
  String.prefix a b = true -> String.prefix b c = true -> String.prefix a c = true.
Proof.
  revert b c. induction a as [|x a IH]; intros b c; [destruct c; reflexivity|].
  destruct b as [|y b]; [discriminate|]. simpl.
  destruct (ascii_dec x y) as [->|]; [|discriminate].
  destruct c as [|z c]; simpl; [discriminate|].
  destruct (ascii_dec y z) as [->|]; [|discriminate].
  apply IH.
Qed.

Lemma prefix_join (d n : string) : String.prefix d (Path.join d n) = true.
Proof.
  unfold Path.join. destruct (Str.endswith "/" d); apply prefix_app.
Qed.

Lemma tree_ind_nested (P : tree -> Prop) :
  P File ->
  (forall es, Forall (fun e => P (snd e)) es -> P (Dir es)) ->
  forall t, P t.
Proof.
  intros HF HD. fix IH 1. intros [|es]; [exact HF|].
  apply HD. induction es as [|[n c] es IHes]; constructor; [apply IH | exact IHes].
Qed.

Lemma os_walk_below (t : tree) (top d : string) (ds fns : list string) :
  In (d, ds, fns) (os_walk top t) -> String.prefix top d = true.
Proof.
  revert top. induction t as [|es IH] using tree_ind_nested; intros top; simpl.
  - intros [].
  - intros [E|Hin].
    + inversion E; subst. replace d with (d +++ EmptyString) at 2.
      * apply prefix_app.
      * clear. induction d as [|c d IHd]; simpl; [reflexivity | now rewrite IHd].
    + induction es as [|[n c] es IHes]; [destruct Hin|].
      inversion IH as [|? ? Hc Hes]; subst.
      apply in_app_or in Hin. destruct Hin as [Hin|Hin].
      * apply prefix_trans with (Path.join top n); [apply prefix_join|].
        exact (Hc _ Hin).
      * exact (IHes Hes Hin).
Qed.

(** X19.  The scan stays below its root: the path of every entry of
    [files] starts with the root, whatever the tree and the world. *)
Theorem files_below_root (sc : Scanner) (H : Hashlib) (w : World) (mt : Meter)
    (root : string) (rep : Report) (f : FileRec.t) :
  scan_directory sc H w mt root = Returned rep -> In f (files rep) ->
  Str.startswith root (FileRec.path f) = true.
Proof.
  intros Hscan Hf.
  destruct (scan_returned _ _ _ _ _ Hscan) as (t & _ & _ & _ & _ & Hfiles & _).
  rewrite Hfiles in Hf. apply in_map_iff in Hf. destruct Hf as (m & <- & Hm).
  destruct (collect_metas_in _ _ _ _ _ Hm) as (dirpath & ds & fns & fn & Hw & _ & Hc).
  destruct (classify_some _ _ Hc) as (E & _).
  simpl. rewrite E. unfold Str.startswith.
  apply prefix_trans with dirpath; [|apply prefix_join].
  exact (os_walk_below _ _ _ _ _ Hw).
Qed.

(** X19, witness: the copy two levels below the root of the lab directory. *)
Lemma files_below_root_witness :
  Str.startswith "/data" "/data/copy/sample.fastq.gz" = true.
Proof.
  apply (@files_below_root default_scanner Examples.ideal Examples.lab Examples.still
           "/data" Examples.lab_report
           (FileRec.mk "/data/copy/sample.fastq.gz" 3 "FASTQ" "FASTQ.GZ" "GZIP" "FASTQ")).
  - vm_compute. reflexivity.
  - simpl. right. right. now left.
Defined.

(** ** Names decide extensions and sample keys *)

Lemma split_nonempty (c : ascii) (s : string) : Str.split c s <> [].
Proof.
  destruct s as [|c' s]; simpl; [discriminate|].
  destruct (Ascii.eqb c' c); [discriminate|].
  destruct (Str.split c s); discriminate.
Qed.

Lemma last_cons_nonempty (A : Type) (x : A) (l : list A) (d : A) :
  l <> [] -> last (x :: l) d = last l d.
Proof. destruct l; [intros Hne; now elim Hne | reflexivity]. Qed.

Lemma last_split_app (c : ascii) (a b : string) :
  last (Str.split c (a +++ String c b)) EmptyString = last (Str.split c b) EmptyString.
Proof.
  induction a as [|x a IH]; cbn [String.append Str.split].
  - rewrite Ascii.eqb_refl. apply last_cons_nonempty, split_nonempty.
  - destruct (Ascii.eqb x c).
    + rewrite last_cons_nonempty by apply split_nonempty. exact IH.
    + destruct (Str.split c (a +++ String c b)) as [|w ws] eqn:E.
      * now elim (split_nonempty c (a +++ String c b)).
      * rewrite <- IH. destruct ws; [|reflexivity].
        exfalso. clear IH. revert w E.
        induction a as [|y a IHa]; intros w E; cbn [String.append Str.split] in E.
        -- rewrite Ascii.eqb_refl in E. inversion E as [[Ew Es]].
           now elim (split_nonempty c b).
        -- destruct (Ascii.eqb y c).
           ++ inversion E as [[Ew Es]]. now elim (split_nonempty c (a +++ String c b)).
           ++ destruct (Str.split c (a +++ String c b)) as [|w' ws'] eqn:E';
                [now elim (split_nonempty c (a +++ String c b))|].
              inversion E; subst. now apply (IHa w').
Qed.

Lemma endswith_slash (d : string) :
  Str.endswith "/" d = true -> exists d', d = d' +++ "/".
Proof.
  unfold Str.endswith. intros E. apply String.eqb_eq in E. simpl String.length in E.
  induction d as [|c d IH].
  - discriminate E.
  - destruct d as [|c' d'].
    + simpl in E. inversion E. now exists EmptyString.
    + destruct IH as (d'' & E').
      * simpl String.length in *. replace (S (S (String.length d')) - 1)%nat
          with (S (String.length d' )) in E by lia.
        replace (S (String.length d') - 1)%nat with (String.length d') by lia.
        exact E.
      * exists (String c d''). simpl. now rewrite <- E'.
Qed.

Lemma name_join (d fn : string) : Path.name (Path.join d fn) = Path.name fn.
Proof.
  unfold Path.name, Path.join.
  destruct (Str.endswith "/" d) eqn:E.
  - destruct (endswith_slash _ E) as (d' & ->).
    replace ((d' +++ "/") +++ fn) with (d' +++ String "/" fn).
    + apply last_split_app.
    + clear. induction d' as [|c d' IH]; simpl; [reflexivity | now rewrite IH].
  - change (d +++ "/" +++ fn) with (d +++ String "/" fn). apply last_split_app.
Qed.

(** X20.  Extensions and sample keys are read off the file name alone:
    two files with one name, in whatever directories, get the same
    extension triple and the same sample key, whatever extension string
    is passed to [_base_stem]. *)
Theorem name_decides_sample (d1 d2 fn e1 e2 : string) :
  _normalize_extensions (Path.join d1 fn) = _normalize_extensions (Path.join d2 fn) /\
  _base_stem (Path.join d1 fn) e1 = _base_stem (Path.join d2 fn) e2.
Proof.
  unfold _normalize_extensions, _base_stem, Path.suffixes.
  rewrite !name_join. split; reflexivity.
Qed.

(** * The legacy scanner *)

(** ** [delete_files] *)

Lemma mem_in (p : string) (l : list string) : Str.mem p l = true <-> In p l.
Proof.
  unfold Str.mem. rewrite existsb_exists. split.
  - intros (x & Hx & E). apply String.eqb_eq in E. now subst.
  - intros Hin. exists p. split; [exact Hin | apply String.eqb_refl].
Qed.

Lemma mem_not_in (p : string) (l : list string) : Str.mem p l = false <-> ~ In p l.
Proof.
  rewrite <- mem_in. destruct (Str.mem p l); split; congruence.
Qed.

Lemma mem_snoc (p q : string) (l : list string) :
  Str.mem p (l ++ [q]) = Str.mem p l || String.eqb p q.
Proof. unfold Str.mem. rewrite existsb_app. simpl. now rewrite orb_false_r. Qed.

Lemma sum_sizes_snoc (l : list (string * Z)) (e : string * Z) :
  FileScanner.sum_sizes (l ++ [e]) = (FileScanner.sum_sizes l + snd e)%Z.
Proof.
  unfold FileScanner.sum_sizes. induction l as [|x l IH]; simpl; [lia|].
  rewrite IH. lia.
Qed.

Lemma deleting_step (disk0 : FileScanner.Disk) (done : list string)
    (st : FileScanner.DeleteState) (filepath : string) :
  FileScanner.deleting disk0 done st ->
  FileScanner.deleting disk0 (done ++ [filepath]) (FileScanner.delete_step st filepath).
Proof.
  intros (Hlock & Hent & Hdel & Hnd & Hperm & Hfreed & Hall).
  assert (Hskip : (FileScanner.regular disk0 filepath = true ->
                   FileScanner.locked disk0 filepath = false ->
                   In filepath (map fst (FileScanner.st_deleted st))) ->
          FileScanner.deleting disk0 (done ++ [filepath])
            (FileScanner.mkDeleteState (FileScanner.st_disk st) (FileScanner.st_deleted st)
               (FileScanner.st_failed st ++ [filepath]) (FileScanner.st_freed st))).
  { intros Hwhy. unfold FileScanner.deleting.
    cbn [FileScanner.st_disk FileScanner.st_deleted FileScanner.st_failed FileScanner.st_freed FileScanner.entries FileScanner.locked].
    split; [exact Hlock|]. split; [exact Hent|]. split; [|split; [exact Hnd|split; [|split]]].
    - intros p s Hin. destruct (Hdel p s Hin) as (H1 & H2 & H3).
      repeat split; try assumption. apply in_or_app. now left.
    - rewrite app_assoc. now apply Permutation_app_tail.
    - exact Hfreed.
    - intros p Hp Hs Hl. apply in_app_or in Hp. destruct Hp as [Hp|[<-|[]]].
      + now apply Hall.
      + now apply Hwhy. }
  pose proof (Hent filepath) as Hfp.
  unfold FileScanner.delete_step, FileScanner.os_remove, FileScanner.sizes.
  destruct (FileScanner.entries disk0 filepath) as [[s|f]|] eqn:E0.
  - destruct (Str.mem filepath (map fst (FileScanner.st_deleted st))) eqn:Em.
    + rewrite Hfp. apply Hskip. intros _ _. now apply mem_in.
    + rewrite Hfp. rewrite Hlock.
      destruct (FileScanner.locked disk0 filepath) eqn:El;
        [apply Hskip; intros _ Hl; discriminate Hl|].
      assert (Hnew : ~ In filepath (map fst (FileScanner.st_deleted st)))
        by now apply mem_not_in.
      unfold FileScanner.deleting.
      cbn [FileScanner.st_disk FileScanner.st_deleted FileScanner.st_failed FileScanner.st_freed FileScanner.entries FileScanner.locked].
      split; [first [exact Hlock | reflexivity]|]. split; [|split; [|split; [|split; [|split]]]].
      * intros p. pose proof (Hent p) as Hp. rewrite map_app. cbn [map fst].
        destruct (FileScanner.entries disk0 p) as [[sp|fp]|] eqn:Ep.
        -- rewrite mem_snoc, Hp.
           destruct (String.eqb p filepath) eqn:Eq.
           ++ now rewrite orb_true_r.
           ++ rewrite orb_false_r.
              destruct (Str.mem p (map fst (FileScanner.st_deleted st))); reflexivity.
        -- unfold FileScanner.directory in *.
           cbn [FileScanner.st_disk FileScanner.st_deleted FileScanner.st_failed FileScanner.st_freed FileScanner.entries FileScanner.locked].
           destruct (String.eqb p filepath) eqn:Eq.
           ++ apply String.eqb_eq in Eq. subst p. congruence.
           ++ destruct (FileScanner.entries (FileScanner.st_disk st) p) as [[sq|fq]|];
                try discriminate Hp. reflexivity.
        -- rewrite Hp. destruct (String.eqb p filepath); reflexivity.
      * intros p s' Hin. apply in_app_or in Hin. destruct Hin as [Hin|[E|[]]].
        -- destruct (Hdel p s' Hin) as (H1 & H2 & H3).
           repeat split; try assumption. apply in_or_app. now left.
        -- inversion E; subst. repeat split; try assumption.
           apply in_or_app. right. now left.
      * rewrite map_app. cbn [map fst].
        apply (Permutation_NoDup (Permutation_cons_append _ _)).
        constructor; assumption.
      * rewrite map_app. cbn [map fst].
        eapply perm_trans; [|apply Permutation_app_tail; exact Hperm].
        rewrite <- !app_assoc. apply Permutation_app_head. apply Permutation_app_comm.
      * rewrite sum_sizes_snoc. cbn [snd]. now rewrite Hfreed.
      * intros p Hp Hs Hl. rewrite map_app. apply in_or_app.
        apply in_app_or in Hp. destruct Hp as [Hp|[<-|[]]].
        -- left. now apply Hall.
        -- right. now left.
  - unfold FileScanner.directory in Hfp.
    destruct (FileScanner.entries (FileScanner.st_disk st) filepath) as [[sq|fq]|];
      try discriminate Hfp.
    apply Hskip. unfold FileScanner.regular. rewrite E0. discriminate.
  - rewrite Hfp. apply Hskip. unfold FileScanner.regular. rewrite E0. discriminate.
Qed.

Lemma deleting_fold (disk0 : FileScanner.Disk) (l done : list string)
    (st : FileScanner.DeleteState) :
  FileScanner.deleting disk0 done st ->
  FileScanner.deleting disk0 (done ++ l) (fold_left FileScanner.delete_step l st).
Proof.
  revert done st. induction l as [|p l IH]; intros done st Hst; simpl.
  - now rewrite app_nil_r.
  - replace (done ++ p :: l) with ((done ++ [p]) ++ l)
      by (rewrite <- app_assoc; reflexivity).
    apply IH. now apply deleting_step.
Qed.

Lemma delete_loop_inv (disk : FileScanner.Disk) (file_paths : list string) :
  FileScanner.deleting disk file_paths (FileScanner.delete_loop disk file_paths).
Proof.
  unfold FileScanner.delete_loop.
  apply (@deleting_fold disk file_paths [] (FileScanner.mkDeleteState disk [] [] 0%Z)).
  unfold FileScanner.deleting.
  cbn [FileScanner.st_disk FileScanner.st_deleted FileScanner.st_failed FileScanner.st_freed FileScanner.entries FileScanner.locked].
  split; [reflexivity|]. split.
  { intros p. unfold FileScanner.directory.
    destruct (FileScanner.entries disk p) as [[s|f]|]; reflexivity. }
  split; [intros p s []|].
  split; [constructor|]. split; [constructor|]. split; [reflexivity|].
  intros p [].
Qed.

(** X21.  [delete_files] accounts for every request: each requested path
    is reported once, as deleted or as failed, so the two counts add up
    to the number of requests, and the size freed is the sum of the sizes
    recorded for the deleted files. *)
Theorem delete_files_accounts (disk : FileScanner.Disk) (file_paths : list string) :
  let r := snd (FileScanner.delete_files disk file_paths) in
  Permutation (map fst (FileScanner.deleted r) ++ FileScanner.failed r) file_paths /\
  (FileScanner.total_deleted r + FileScanner.total_failed r
   = List.length file_paths)%nat /\
  FileScanner.size_freed r = FileScanner.sum_sizes (FileScanner.deleted r).
Proof.
  destruct (delete_loop_inv disk file_paths) as (_ & _ & _ & _ & Hperm & Hfreed & _).
  cbn. split; [exact Hperm|]. split; [|exact Hfreed].
  apply Permutation_length in Hperm. rewrite length_app, length_map in Hperm. exact Hperm.
Qed.

(** X22.  No file is deleted twice, and none that was not requested: the
    deleted entries carry pairwise distinct paths, each was requested,
    existed and could be removed, and each is recorded with the size it
    had before the call. *)
Theorem delete_files_once (disk : FileScanner.Disk) (file_paths : list string) :
  let r := snd (FileScanner.delete_files disk file_paths) in
  NoDup (map fst (FileScanner.deleted r)) /\
  (forall p s, In (p, s) (FileScanner.deleted r) ->
     In p file_paths /\ FileScanner.sizes disk p = Some s /\
     FileScanner.locked disk p = false).
Proof.
  destruct (delete_loop_inv disk file_paths) as (_ & _ & Hdel & Hnd & _).
  cbn. split; [exact Hnd|].
  intros p s Hin. destruct (Hdel p s Hin) as (H1 & H2 & H3).
  split; [exact H3|]. split; [|exact H2].
  unfold FileScanner.sizes. now rewrite H1.
Qed.



(** The size that the directory reports has changed with the removal. *)
Lemma shrinking_directory :
  FileScanner.sizes LegacyCases.shrinking "/d" = Some 4040%Z /\
  FileScanner.sizes (fst (FileScanner.delete_files LegacyCases.shrinking LegacyCases.requests))
                    "/d" = Some 3040%Z /\
  FileScanner.deleted (snd (FileScanner.delete_files LegacyCases.shrinking
                              LegacyCases.requests)) = [("/d/a", 10%Z)] /\
  FileScanner.failed (snd (FileScanner.delete_files LegacyCases.shrinking
                             LegacyCases.requests)) = ["/d/b"; "/d/a"; "/d"; "/d/c"].
Proof. repeat split; vm_compute; reflexivity. Qed.

(** ** [classify_file] *)

Section ClassifyFacts.

Variable re_match : string -> string -> bool.

Lemma claims_extension (filename : string) (entry : string * (list string * list string))
    (ext : string) :
  In ext (fst (snd entry)) -> Str.endswith (Str.lower ext) filename = true ->
  FileScanner.claims re_match filename entry = true.
Proof.
  destruct entry as [category [extensions patterns]]. simpl. intros Hin He.
  apply orb_true_iff. left. apply existsb_exists. now exists ext.
Qed.

Lemma classify_file_cases (filepath : string) :
  let filename := Str.lower (FileScanner.basename filepath) in
  let claimed := fun n => FileScanner.claims re_match filename
                            (nth n FileScanner.file_patterns (EmptyString, ([], []))) in
  (claimed 0%nat = true /\ FileScanner.classify_file re_match filepath = "raw_sequencing")
  \/ (claimed 0%nat = false /\ claimed 1%nat = true /\
      FileScanner.classify_file re_match filepath = "aligned_data")
  \/ (claimed 0%nat = false /\ claimed 1%nat = false /\ claimed 2%nat = true /\
      FileScanner.classify_file re_match filepath = "intermediate_files")
  \/ (claimed 0%nat = false /\ claimed 1%nat = false /\ claimed 2%nat = false /\
      claimed 3%nat = true /\
      FileScanner.classify_file re_match filepath = "final_outputs")
  \/ (claimed 0%nat = false /\ claimed 1%nat = false /\ claimed 2%nat = false /\
      claimed 3%nat = false /\
      FileScanner.classify_file re_match filepath = "unclassified").
Proof.
  intros filename claimed. unfold claimed, FileScanner.classify_file.
  fold filename. unfold FileScanner.file_patterns. cbn [find nth].
  repeat match goal with
         | |- context [FileScanner.claims re_match filename ?e] =>
             destruct (FileScanner.claims re_match filename e) eqn:?
         end; tauto.
Qed.

End ClassifyFacts.

(** X24.  Every file gets one of the five categories, and extensions of
    raw sequencing data win over everything else: a name that ends, in
    any case, in .fastq, .fq, .fastq.gz, .fq.gz, .sra or .cram is
    raw_sequencing whatever the regular expressions match. *)
Theorem classify_file_raw_first (re_match : string -> string -> bool) (filepath : string) :
  In (FileScanner.classify_file re_match filepath) FileScanner.categories /\
  (forall ext, In ext [".fastq"; ".fq"; ".fastq.gz"; ".fq.gz"; ".sra"; ".cram"] ->
     Str.endswith ext (Str.lower (FileScanner.basename filepath)) = true ->
     FileScanner.classify_file re_match filepath = "raw_sequencing").
Proof.
  pose proof (classify_file_cases re_match filepath) as Hc. cbv zeta in Hc.
  split.
  - destruct Hc as [[_ ->]|[(_ & _ & ->)|[(_ & _ & _ & ->)|[(_ & _ & _ & _ & ->)
                   |(_ & _ & _ & _ & ->)]]]]; simpl; tauto.
  - intros ext Hin He.
    assert (Hclaim : FileScanner.claims re_match (Str.lower (FileScanner.basename filepath))
                       (nth 0 FileScanner.file_patterns (EmptyString, ([], []))) = true).
    { apply claims_extension with ext; [exact Hin|].
      simpl in Hin.
      repeat (destruct Hin as [<-|Hin]; [exact He|]). destruct Hin. }
    destruct Hc as [[_ E]|[(E & _)|[(E & _)|[(E & _)|(E & _)]]]];
      [exact E | congruence ..].
Qed.

(** X24, witness: a name in capitals. *)
Lemma classify_file_raw_first_witness :
  FileScanner.classify_file (fun _ _ => false) "/runs/S1_R1.FASTQ.GZ" = "raw_sequencing".
Proof.
  apply (proj2 (classify_file_raw_first (fun _ _ => false) "/runs/S1_R1.FASTQ.GZ")
           ".fastq.gz").
  - simpl. tauto.
  - reflexivity.
Defined.

(** X25.  A VCF is never a final output: a name that ends in .vcf or
    .vcf.gz is claimed by intermediate_files or by a category before it,
    so the two VCF extensions of final_outputs are never reached. *)
Theorem classify_file_vcf_not_final (re_match : string -> string -> bool)
    (filepath : string) :
  Str.endswith ".vcf" (Str.lower (FileScanner.basename filepath)) = true
  \/ Str.endswith ".vcf.gz" (Str.lower (FileScanner.basename filepath)) = true ->
  In (FileScanner.classify_file re_match filepath)
     ["raw_sequencing"; "aligned_data"; "intermediate_files"].
Proof.
  intros Hv.
  pose proof (classify_file_cases re_match filepath) as Hc. cbv zeta in Hc.
  assert (Hclaim : FileScanner.claims re_match (Str.lower (FileScanner.basename filepath))
                     (nth 2 FileScanner.file_patterns (EmptyString, ([], []))) = true).
  { destruct Hv as [Hv|Hv].
    - apply claims_extension with ".vcf"; [simpl; tauto | exact Hv].
    - apply claims_extension with ".vcf.gz"; [simpl; tauto | exact Hv]. }
  destruct Hc as [[_ ->]|[(_ & _ & ->)|[(_ & _ & _ & ->)|[(_ & _ & E & _)
                 |(_ & _ & E & _)]]]]; try (simpl; tauto); congruence.
Qed.

(** X25, witness: the results file of the self-test of the module. *)
Lemma classify_file_vcf_not_final_witness :
  In (FileScanner.classify_file (fun _ _ => false) "/workspace/test_data/final_results.vcf.gz")
     ["raw_sequencing"; "aligned_data"; "intermediate_files"].
Proof.
  apply classify_file_vcf_not_final.
  right. reflexivity.
Defined.

(** ** The legacy scan *)

Lemma insert_desc_perm (A : Type) (key : A -> Z) (x : A) (l : list A) :
  Permutation (FileScanner.insert_desc key x l) (x :: l).
Proof.
  induction l as [|y l IH]; simpl; [apply Permutation_refl|].
  destruct (key y <? key x)%Z; [apply Permutation_refl|].
  eapply perm_trans; [apply perm_skip, IH | apply perm_swap].
Qed.

Lemma sort_desc_perm (A : Type) (key : A -> Z) (l : list A) :
  Permutation (FileScanner.sort_desc key l) l.
Proof.
  unfold FileScanner.sort_desc.
  assert (G : forall l0 acc, Permutation
            (fold_left (fun acc x => FileScanner.insert_desc key x acc) l0 acc) (acc ++ l0)).
  { induction l0 as [|x l0 IH]; intros acc; simpl.
    - rewrite app_nil_r. apply Permutation_refl.
    - eapply perm_trans; [apply IH|].
      eapply perm_trans; [apply Permutation_app_tail, insert_desc_perm|].
      simpl. apply Permutation_middle. }
  apply (G l []).
Qed.

Lemma insert_desc_sorted (A : Type) (key : A -> Z) (x : A) (l : list A) :
  StronglySorted (FileScanner.desc key) l ->
  StronglySorted (FileScanner.desc key) (FileScanner.insert_desc key x l).
Proof.
  induction l as [|y l IH]; simpl; intros Hs.
  - constructor; constructor.
  - apply StronglySorted_inv in Hs. destruct Hs as [Hl Hy].
    destruct (key y <? key x)%Z eqn:E.
    + apply Z.ltb_lt in E. constructor; [now constructor|].
      constructor; [unfold FileScanner.desc; lia|].
      eapply Forall_impl; [|exact Hy]. unfold FileScanner.desc. intros z Hz. lia.
    + apply Z.ltb_ge in E. constructor; [now apply IH|].
      apply Forall_forall. intros z Hz.
      apply (Permutation_in _ (insert_desc_perm key x l)) in Hz.
      destruct Hz as [<-|Hz]; [exact E|].
      rewrite Forall_forall in Hy. now apply Hy.
Qed.

Lemma sort_desc_sorted (A : Type) (key : A -> Z) (l : list A) :
  StronglySorted (FileScanner.desc key) (FileScanner.sort_desc key l).
Proof.
  unfold FileScanner.sort_desc. apply fold_left_inv; [|constructor].
  intros acc x _ Hacc. now apply insert_desc_sorted.
Qed.

Lemma sum_of_app (l l' : list FileScanner.FileInfo.t) :
  FileScanner.sum_of (l ++ l') = (FileScanner.sum_of l + FileScanner.sum_of l')%Z.
Proof.
  unfold FileScanner.sum_of. induction l as [|x l IH]; simpl; [reflexivity|].
  rewrite IH. lia.
Qed.

Lemma sum_of_perm (l l' : list FileScanner.FileInfo.t) :
  Permutation l l' -> FileScanner.sum_of l = FileScanner.sum_of l'.
Proof.
  unfold FileScanner.sum_of. induction 1; simpl; lia.
Qed.

Lemma fold_left_flat_map (A B C : Type) (f : A -> C -> A) (g : B -> list C)
    (l : list B) (a : A) :
  fold_left f (flat_map g l) a = fold_left (fun a x => fold_left f (g x) a) l a.
Proof.
  revert a. induction l as [|x l IH]; intros a; simpl; [reflexivity|].
  now rewrite fold_left_app, IH.
Qed.

Section LegacyScan.

Variables (re_match : string -> string -> bool) (H : Hashlib) (w : World).

Lemma analyze_record (root : string) (st : FileScanner.ScanState) (file : string) :
  FileScanner.analyze re_match H w root st file
  = fold_left (FileScanner.record re_match H w) (FileScanner.info_of w root file) st.
Proof.
  unfold FileScanner.analyze, FileScanner.info_of.
  destruct (w_stat w Classify (Path.join root file)) as [[file_size mt]|]; [|reflexivity].
  cbn [fold_left]. unfold FileScanner.record, FileScanner.hash_key.
  cbn [FileScanner.FileInfo.path FileScanner.FileInfo.size].
  destruct (1024 <? file_size)%Z; [|reflexivity].
  destruct (Legacy.get_file_hash H w (Path.join root file)) as [h|]; [|reflexivity].
  destruct (nonempty h); reflexivity.
Qed.

Lemma analysis_record (root_path : string) :
  FileScanner.analysis re_match H w root_path
  = fold_left (FileScanner.record re_match H w) (FileScanner.recorded w root_path) FileScanner.initial.
Proof.
  unfold FileScanner.analysis, FileScanner.recorded.
  rewrite fold_left_flat_map.
  generalize FileScanner.initial.
  induction (FileScanner.walk w root_path) as [|[[root ds] files] l IH]; intros st;
    [reflexivity|].
  cbn [fold_left]. rewrite <- IH. f_equal.
  unfold FileScanner.analyze_dir. rewrite fold_left_flat_map.
  clear. revert st. induction files as [|file files IH]; intros st; [reflexivity|].
  cbn [fold_left]. rewrite analyze_record. apply IH.
Qed.

(** The three dictionaries after the files [done]. *)
Lemma record_results (l : list FileScanner.FileInfo.t) (st : FileScanner.ScanState) :
  FileScanner.scan_results (fold_left (FileScanner.record re_match H w) l st)
  = fold_left (fun d f => setdefault_append String.eqb (FileScanner.classify_file re_match (FileScanner.FileInfo.path f)) f d) l
              (FileScanner.scan_results st).
Proof. revert st. induction l as [|f l IH]; intros st; [reflexivity | apply IH]. Qed.

Lemma record_sizes (l : list FileScanner.FileInfo.t) (st : FileScanner.ScanState) :
  FileScanner.file_sizes (fold_left (FileScanner.record re_match H w) l st)
  = fold_left (fun d f => FileScanner.add_size (FileScanner.classify_file re_match (FileScanner.FileInfo.path f)) (FileScanner.FileInfo.size f) d)
              l (FileScanner.file_sizes st).
Proof. revert st. induction l as [|f l IH]; intros st; [reflexivity | apply IH]. Qed.

Lemma record_hashes (l : list FileScanner.FileInfo.t) (st : FileScanner.ScanState) :
  FileScanner.hash_to_files (fold_left (FileScanner.record re_match H w) l st)
  = fold_left (fun d f => setdefault_append String.eqb (FileScanner.hash_of H w f) f d)
              (filter (FileScanner.hashed H w) l) (FileScanner.hash_to_files st).
Proof.
  revert st. induction l as [|f l IH]; intros st; [reflexivity|].
  cbn [fold_left filter]. rewrite IH.
  cbn [FileScanner.record FileScanner.hash_to_files].
  destruct (FileScanner.hash_key H w f) as [h|] eqn:E.
  - assert (E1 : FileScanner.hashed H w f = true)
      by (unfold FileScanner.hashed; now rewrite E).
    assert (E2 : FileScanner.hash_of H w f = h)
      by (unfold FileScanner.hash_of; now rewrite E).
    rewrite E1. cbn [fold_left]. now rewrite E2.
  - assert (E1 : FileScanner.hashed H w f = false)
      by (unfold FileScanner.hashed; now rewrite E).
    now rewrite E1.
Qed.

Lemma hash_to_files_group_by (root_path : string) :
  FileScanner.hash_to_files (FileScanner.analysis re_match H w root_path)
  = group_by String.eqb (FileScanner.hash_of H w)
             (filter (FileScanner.hashed H w) (FileScanner.recorded w root_path)).
Proof. rewrite analysis_record, record_hashes. reflexivity. Qed.

End LegacyScan.

Lemma setdefault_append_same_keys (K V : Type) (keqb : K -> K -> bool) (k : K) (v : V)
    (d : list (K * list V)) :
  (forall a b, keqb a b = true <-> a = b) ->
  In k (keys d) -> keys (setdefault_append keqb k v d) = keys d.
Proof.
  intros Heq. induction d as [|[k' vs] d IH]; simpl; [intros []|].
  intros Hin. destruct (keqb k k') eqn:E; [reflexivity|].
  simpl. f_equal. apply IH. destruct Hin as [->|Hin]; [|exact Hin].
  assert (keqb k k = true) by now apply Heq. congruence.
Qed.

Lemma add_size_keys (k : string) (n : Z) (d : list (string * Z)) :
  map fst (FileScanner.add_size k n d) = map fst d.
Proof.
  induction d as [|[k' v] d IH]; simpl; [reflexivity|].
  destruct (String.eqb k k'); simpl; [reflexivity | now rewrite IH].
Qed.

Lemma add_size_get (k c : string) (n : Z) (d : list (string * Z)) :
  In k (map fst d) ->
  FileScanner.get_size c (FileScanner.add_size k n d)
  = (FileScanner.get_size c d + (if String.eqb k c then n else 0))%Z.
Proof.
  unfold FileScanner.get_size.
  induction d as [|[k' v] d IH]; simpl; [intros []|].
  intros Hin. destruct (String.eqb k k') eqn:E.
  - apply String.eqb_eq in E. subst k'. simpl.
    destruct (String.eqb k c); simpl; lia.
  - simpl. destruct (String.eqb k' c) eqn:E'.
    + apply String.eqb_eq in E'. subst k'. rewrite E. simpl. lia.
    + apply IH. destruct Hin as [->|Hin]; [|exact Hin].
      rewrite String.eqb_refl in E. discriminate.
Qed.

Lemma add_size_total (k : string) (n : Z) (d : list (string * Z)) :
  In k (map fst d) ->
  fold_right (fun kv acc => (snd kv + acc)%Z) 0%Z (FileScanner.add_size k n d)
  = (fold_right (fun kv acc => (snd kv + acc)%Z) 0%Z d + n)%Z.
Proof.
  induction d as [|[k' v] d IH]; simpl; [intros []|].
  intros Hin. destruct (String.eqb k k') eqn:E; simpl; [lia|].
  rewrite IH; [lia|]. destruct Hin as [->|Hin]; [|exact Hin].
  rewrite String.eqb_refl in E. discriminate.
Qed.

Lemma partition_count (A : Type) (key : A -> string) (ks : list string) (l : list A) :
  NoDup ks -> (forall x, In x l -> In (key x) ks) ->
  list_sum (map (fun k => List.length (filter (fun x => String.eqb (key x) k) l)) ks)
  = List.length l.
Proof.
  intros Hnd. induction l as [|x l IH]; intros Hall.
  - clear. induction ks as [|k ks IH]; simpl; [reflexivity | exact IH].
  - simpl List.length. rewrite <- IH by (intros y Hy; apply Hall; now right).
    assert (Hx : In (key x) ks) by (apply Hall; now left).
    clear IH Hall. induction ks as [|k ks IHk]; [destruct Hx|].
    inversion Hnd as [|? ? Hout Hnd']; subst. simpl.
    destruct (String.eqb (key x) k) eqn:E.
    + apply String.eqb_eq in E. subst k. simpl. f_equal. f_equal. f_equal.
      apply map_ext_in. intros k Hk.
      destruct (String.eqb (key x) k) eqn:E'; [|reflexivity].
      apply String.eqb_eq in E'. subst k. contradiction.
    + destruct Hx as [->|Hx]; [rewrite String.eqb_refl in E; discriminate|].
      rewrite (IHk Hnd' Hx). lia.
Qed.

Section LegacyFacts.

Variables (re_match : string -> string -> bool) (H : Hashlib) (w : World).

Lemma classify_file_in_categories (filepath : string) :
  In (FileScanner.classify_file re_match filepath) FileScanner.categories.
Proof.
  pose proof (classify_file_cases re_match filepath) as Hc. cbv zeta in Hc.
  destruct Hc as [[_ ->]|[(_ & _ & ->)|[(_ & _ & _ & ->)|[(_ & _ & _ & _ & ->)
                 |(_ & _ & _ & _ & ->)]]]]; simpl; tauto.
Qed.

Lemma categories_nodup : NoDup FileScanner.categories.
Proof.
  unfold FileScanner.categories.
  repeat (constructor; [simpl; intros Hin;
                        repeat (destruct Hin as [Hin|Hin]; [discriminate Hin|]);
                        destruct Hin|]).
  constructor.
Qed.

Lemma in_category_snoc (c : string) (l : list FileScanner.FileInfo.t)
    (f : FileScanner.FileInfo.t) :
  FileScanner.in_category re_match c (l ++ [f])
  = FileScanner.in_category re_match c l
    ++ (if String.eqb (FileScanner.classify_file re_match (FileScanner.FileInfo.path f)) c
        then [f] else []).
Proof. unfold FileScanner.in_category. rewrite filter_app. reflexivity. Qed.

Lemma results_fold (l done : list FileScanner.FileInfo.t)
    (d : list (string * list FileScanner.FileInfo.t)) :
  keys d = FileScanner.categories ->
  (forall c vs, In (c, vs) d -> vs = FileScanner.in_category re_match c done) ->
  let d' := fold_left (fun d f =>
              setdefault_append String.eqb
                (FileScanner.classify_file re_match (FileScanner.FileInfo.path f)) f d) l d in
  keys d' = FileScanner.categories /\
  (forall c vs, In (c, vs) d' -> vs = FileScanner.in_category re_match c (done ++ l)).
Proof.
  revert done d. induction l as [|f l IH]; intros done d Hk Hd; cbn [fold_left].
  - rewrite app_nil_r. now split.
  - replace (done ++ f :: l) with ((done ++ [f]) ++ l)
      by (rewrite <- app_assoc; reflexivity).
    assert (Hin : In (FileScanner.classify_file re_match (FileScanner.FileInfo.path f))
                     (keys d))
      by (rewrite Hk; apply classify_file_in_categories).
    assert (Hnd : NoDup (keys d)) by (rewrite Hk; apply categories_nodup).
    apply IH.
    + rewrite setdefault_append_same_keys; [exact Hk | apply String.eqb_eq | exact Hin].
    + intros c vs Hc.
      apply (@setdefault_append_in _ _ String.eqb String.eqb_eq _ _ _ _ _ Hnd) in Hc.
      rewrite in_category_snoc.
      destruct Hc as [[Hne Hc]|[-> [(vs0 & Hc & ->)|[Hno _]]]].
      * rewrite (Hd _ _ Hc).
        destruct (String.eqb (FileScanner.classify_file re_match
                                (FileScanner.FileInfo.path f)) c) eqn:E.
        -- apply String.eqb_eq in E. congruence.
        -- now rewrite app_nil_r.
      * rewrite String.eqb_refl. now rewrite (Hd _ _ Hc).
      * exfalso. unfold keys in Hin. apply in_map_iff in Hin.
        destruct Hin as ([k vs0] & E & Hin). simpl in E. subst k.
        now apply (Hno vs0).
Qed.

Lemma sizes_fold (l done : list FileScanner.FileInfo.t) (d : list (string * Z)) :
  map fst d = FileScanner.categories ->
  (forall c, FileScanner.get_size c d
             = FileScanner.sum_of (FileScanner.in_category re_match c done)) ->
  fold_right (fun kv acc => (snd kv + acc)%Z) 0%Z d = FileScanner.sum_of done ->
  let d' := fold_left (fun d f =>
              FileScanner.add_size
                (FileScanner.classify_file re_match (FileScanner.FileInfo.path f))
                (FileScanner.FileInfo.size f) d) l d in
  (forall c, FileScanner.get_size c d'
             = FileScanner.sum_of (FileScanner.in_category re_match c (done ++ l))) /\
  fold_right (fun kv acc => (snd kv + acc)%Z) 0%Z d' = FileScanner.sum_of (done ++ l).
Proof.
  revert done d. induction l as [|f l IH]; intros done d Hk Hd Ht; cbn [fold_left].
  - rewrite app_nil_r. now split.
  - replace (done ++ f :: l) with ((done ++ [f]) ++ l)
      by (rewrite <- app_assoc; reflexivity).
    assert (Hin : In (FileScanner.classify_file re_match (FileScanner.FileInfo.path f))
                     (map fst d))
      by (rewrite Hk; apply classify_file_in_categories).
    apply IH.
    + now rewrite add_size_keys.
    + intros c. rewrite add_size_get by exact Hin. rewrite Hd, in_category_snoc, sum_of_app.
      destruct (String.eqb (FileScanner.classify_file re_match
                              (FileScanner.FileInfo.path f)) c);
        unfold FileScanner.sum_of; simpl; lia.
    + rewrite add_size_total by exact Hin. rewrite Ht, sum_of_app.
      unfold FileScanner.sum_of. simpl. lia.
Qed.

Lemma analysis_results (root_path : string) :
  let st := FileScanner.analysis re_match H w root_path in
  let files := FileScanner.recorded w root_path in
  keys (FileScanner.scan_results st) = FileScanner.categories /\
  (forall c vs, In (c, vs) (FileScanner.scan_results st) ->
                vs = FileScanner.in_category re_match c files) /\
  (forall c, FileScanner.get_size c (FileScanner.file_sizes st)
             = FileScanner.sum_of (FileScanner.in_category re_match c files)) /\
  fold_right (fun kv acc => (snd kv + acc)%Z) 0%Z (FileScanner.file_sizes st)
  = FileScanner.sum_of files.
Proof.
  cbv zeta. rewrite analysis_record, record_results, record_sizes.
  destruct (@results_fold (FileScanner.recorded w root_path) []
              (FileScanner.scan_results FileScanner.initial)) as [Hk Hr].
  { reflexivity. }
  { intros c vs Hin. simpl in Hin.
    repeat (destruct Hin as [E|Hin]; [inversion E; reflexivity|]). destruct Hin. }
  destruct (@sizes_fold (FileScanner.recorded w root_path) []
              (FileScanner.file_sizes FileScanner.initial)) as [Hs Ht].
  { reflexivity. }
  { intros c. unfold FileScanner.get_size. simpl.
    repeat match goal with
           | |- context [if ?b then _ else _] => destruct b
           end; reflexivity. }
  { reflexivity. }
  cbv zeta in Hk, Hr, Hs, Ht. simpl app in Hr, Hs, Ht. auto.
Qed.

End LegacyFacts.

Lemma duplicate_group_hash (b : string * list FileScanner.FileInfo.t)
    (g : FileScanner.Duplicate.t) :
  In g (FileScanner.duplicate_group b) ->
  FileScanner.Duplicate.hash g = fst b /\
  FileScanner.Duplicate.files g = snd b /\
  (2 <= List.length (snd b))%nat /\
  FileScanner.Duplicate.total_size g = FileScanner.sum_of (snd b) /\
  FileScanner.Duplicate.duplicate_size g = FileScanner.sum_of (tl (snd b)).
Proof.
  destruct b as [h files]. unfold FileScanner.duplicate_group.
  destruct (1 <? List.length files)%nat eqn:E; [|intros []].
  apply Nat.ltb_lt in E. intros [<-|[]]. simpl. repeat split; try reflexivity. lia.
Qed.

Lemma duplicate_groups_nodup (d : list (string * list FileScanner.FileInfo.t)) :
  NoDup (keys d) ->
  NoDup (map FileScanner.Duplicate.hash (flat_map FileScanner.duplicate_group d)).
Proof.
  induction d as [|[h files] d IH]; simpl; intros Hnd; [constructor|].
  inversion Hnd as [|? ? Hout Hnd']; subst.
  assert (Htail : forall x,
            In x (map FileScanner.Duplicate.hash (flat_map FileScanner.duplicate_group d)) ->
            In x (keys d)).
  { intros x Hx. apply in_map_iff in Hx. destruct Hx as (e & <- & He).
    apply in_flat_map in He. destruct He as (b & Hb & He).
    destruct (duplicate_group_hash _ _ He) as (-> & _). now apply in_map. }
  rewrite map_app.
  destruct (1 <? List.length files)%nat; simpl; [|now apply IH].
  constructor; [|now apply IH]. intros Hin. apply Hout. now apply Htail.
Qed.

(** X26.  The summary of the legacy scan sorts every recorded file into
    one category: the categories are the five of the scanner, each lists
    exactly the recorded files that [classify_file] gives it, the largest
    first, with their number and the sum of their sizes; the numbers add
    up to the number of recorded files and [total_size] is the sum of
    their sizes. *)
Theorem legacy_scan_categories (re_match : string -> string -> bool) (H : Hashlib)
    (w : World) (root_path : string) :
  let S := FileScanner.scan_directory re_match H w root_path in
  let files := FileScanner.recorded w root_path in
  map fst (FileScanner.summary_categories S) = FileScanner.categories /\
  (forall c cs, In (c, cs) (FileScanner.summary_categories S) ->
     Permutation (FileScanner.cat_files cs) (FileScanner.in_category re_match c files) /\
     StronglySorted (FileScanner.desc FileScanner.FileInfo.size) (FileScanner.cat_files cs) /\
     FileScanner.count cs = List.length (FileScanner.in_category re_match c files) /\
     FileScanner.cat_total_size cs
     = FileScanner.sum_of (FileScanner.in_category re_match c files)) /\
  list_sum (map (fun e => FileScanner.count (snd e)) (FileScanner.summary_categories S))
  = List.length files /\
  FileScanner.total_size S = FileScanner.sum_of files.
Proof.
  intros S files.
  destruct (analysis_results re_match H w root_path) as (Hk & Hr & Hs & Ht).
  fold files in Hr, Hs, Ht.
  unfold S, FileScanner.scan_directory, FileScanner.get_summary.
  cbn [FileScanner.summary_categories FileScanner.total_size].
  unfold FileScanner.sorted_results.
  set (st := FileScanner.analysis re_match H w root_path) in *.
  split; [|split; [|split]].
  - rewrite !map_map. cbn [fst]. exact Hk.
  - intros c cs Hin. rewrite map_map in Hin.
    apply in_map_iff in Hin. destruct Hin as ([c0 vs] & E & Hin).
    cbn [fst snd] in E. inversion E; subst c cs. clear E.
    cbn [FileScanner.cat_files FileScanner.count FileScanner.cat_total_size].
    rewrite <- (Hr _ _ Hin).
    split; [apply sort_desc_perm|]. split; [apply sort_desc_sorted|].
    split; [apply Permutation_length, sort_desc_perm|].
    rewrite Hs. now rewrite <- (Hr _ _ Hin).
  - rewrite !map_map. cbn [snd FileScanner.count].
    rewrite <- (@partition_count _
                  (fun f => FileScanner.classify_file re_match (FileScanner.FileInfo.path f))
                  FileScanner.categories files).
    + rewrite <- Hk. unfold keys. rewrite map_map. f_equal.
      apply map_ext_in. intros [c vs] Hin. cbn [fst snd].
      rewrite (Permutation_length (sort_desc_perm _ _)).
      now rewrite (Hr _ _ Hin).
    + apply categories_nodup.
    + intros f _. apply classify_file_in_categories.
  - exact Ht.
Qed.

(** X27.  The duplicate groups of the legacy scan: the groups carry
    pairwise distinct digests and are listed by decreasing duplicate
    size; a group lists, in the order of the walk, exactly the recorded
    files above 1024 bytes whose sampled digest is the one of the group;
    they are two or more; [total_size] is the sum of their sizes and
    [duplicate_size] is that sum without the first file. *)
Theorem legacy_scan_duplicates (re_match : string -> string -> bool) (H : Hashlib)
    (w : World) (root_path : string) :
  let S := FileScanner.scan_directory re_match H w root_path in
  let files := FileScanner.recorded w root_path in
  NoDup (map FileScanner.Duplicate.hash (FileScanner.groups S)) /\
  StronglySorted (FileScanner.desc FileScanner.Duplicate.duplicate_size)
                 (FileScanner.groups S) /\
  (forall g, In g (FileScanner.groups S) ->
     FileScanner.Duplicate.files g
     = filter (fun f => String.eqb (FileScanner.hash_of H w f) (FileScanner.Duplicate.hash g))
              (filter (FileScanner.hashed H w) files) /\
     (2 <= List.length (FileScanner.Duplicate.files g))%nat /\
     (forall f, In f (FileScanner.Duplicate.files g) ->
        In f files /\ (1024 < FileScanner.FileInfo.size f)%Z /\
        Legacy.get_file_hash H w (FileScanner.FileInfo.path f)
        = Some (FileScanner.Duplicate.hash g)) /\
     FileScanner.Duplicate.total_size g = FileScanner.sum_of (FileScanner.Duplicate.files g) /\
     exists first rest,
       FileScanner.Duplicate.files g = first :: rest /\
       FileScanner.Duplicate.duplicate_size g
       = (FileScanner.Duplicate.total_size g - FileScanner.FileInfo.size first)%Z).
Proof.
  intros S files.
  unfold S, FileScanner.scan_directory, FileScanner.get_summary.
  cbn [FileScanner.groups]. unfold FileScanner.duplicates.
  rewrite hash_to_files_group_by. fold files.
  set (d := group_by String.eqb (FileScanner.hash_of H w)
                     (filter (FileScanner.hashed H w) files)).
  split; [|split].
  - eapply Permutation_NoDup.
    + apply Permutation_map, Permutation_sym, sort_desc_perm.
    + apply duplicate_groups_nodup. apply group_by_keys. apply String.eqb_eq.
  - apply sort_desc_sorted.
  - intros g Hg. apply (Permutation_in _ (sort_desc_perm _ _)) in Hg.
    apply in_flat_map in Hg. destruct Hg as ([h fs] & Hb & Hg).
    destruct (duplicate_group_hash _ _ Hg) as (Eh & Ef & Hlen & Et & Ed).
    cbn [fst snd] in *.
    apply (group_by_exact String.eqb (FileScanner.hash_of H w) String.eqb_eq) in Hb.
    destruct Hb as [Hfs _].
    rewrite Ef, Eh. split; [exact Hfs|]. split; [exact Hlen|]. split; [|split].
    + intros f Hf. rewrite Hfs in Hf. apply filter_In in Hf. destruct Hf as [Hf Ek].
      apply filter_In in Hf. destruct Hf as [Hf Ehd].
      apply String.eqb_eq in Ek. split; [exact Hf|].
      unfold FileScanner.hashed in Ehd. unfold FileScanner.hash_of in Ek.
      unfold FileScanner.hash_key in *.
      destruct (1024 <? FileScanner.FileInfo.size f)%Z eqn:E; [|discriminate].
      apply Z.ltb_lt in E. split; [exact E|].
      destruct (Legacy.get_file_hash H w (FileScanner.FileInfo.path f)) as [h'|];
        [|discriminate].
      destruct (nonempty h'); [|discriminate]. now subst.
    + rewrite Et. reflexivity.
    + destruct fs as [|first rest]; [simpl in Hlen; lia|].
      exists first, rest. split; [reflexivity|].
      rewrite Et, Ed. unfold FileScanner.sum_of. simpl. lia.
Qed.

(** X28.  The legacy scan finds its duplicates: two recorded files that
    are not the same entry, both above 1024 bytes and with one sampled
    digest, are listed in one duplicate group, the group of that digest. *)
Theorem legacy_duplicates_reported (re_match : string -> string -> bool) (H : Hashlib)
    (w : World) (root_path : string) (f1 f2 : FileScanner.FileInfo.t) (h : string) :
  In f1 (FileScanner.recorded w root_path) ->
  In f2 (FileScanner.recorded w root_path) -> f1 <> f2 ->
  FileScanner.hash_key H w f1 = Some h -> FileScanner.hash_key H w f2 = Some h ->
  exists g, In g (FileScanner.groups (FileScanner.scan_directory re_match H w root_path)) /\
            FileScanner.Duplicate.hash g = h /\
            In f1 (FileScanner.Duplicate.files g) /\ In f2 (FileScanner.Duplicate.files g).
Proof.
  intros H1 H2 Hne E1 E2.
  unfold FileScanner.scan_directory, FileScanner.get_summary.
  cbn [FileScanner.groups]. unfold FileScanner.duplicates.
  rewrite hash_to_files_group_by.
  set (files := FileScanner.recorded w root_path) in *.
  set (bucket := filter (fun f => String.eqb (FileScanner.hash_of H w f) h)
                        (filter (FileScanner.hashed H w) files)).
  assert (Hin : forall f, In f files -> FileScanner.hash_key H w f = Some h -> In f bucket).
  { intros f Hf E. unfold bucket. apply filter_In. split.
    - apply filter_In. split; [exact Hf|]. unfold FileScanner.hashed. now rewrite E.
    - unfold FileScanner.hash_of. rewrite E. apply String.eqb_refl. }
  assert (Hlen : (2 <= List.length bucket)%nat)
    by (apply (@two_members _ f1 f2); auto).
  exists (FileScanner.Duplicate.mk h bucket (FileScanner.sum_of bucket)
            (FileScanner.sum_of (tl bucket))).
  split; [|split; [reflexivity | split; simpl; auto]].
  apply (Permutation_in _ (Permutation_sym (sort_desc_perm _ _))).
  apply in_flat_map. exists (h, bucket). split.
  - apply (group_by_exact String.eqb (FileScanner.hash_of H w) String.eqb_eq).
    split; [reflexivity|]. intros E. rewrite E in Hlen. simpl in Hlen. lia.
  - unfold FileScanner.duplicate_group.
    assert (E : (1 <? List.length bucket)%nat = true) by (apply Nat.ltb_lt; lia).
    rewrite E. now left.
Qed.

(** X28, witness: two equal files of 1025 bytes. *)
Lemma legacy_duplicates_reported_witness :
  exists g, In g (FileScanner.groups
                    (FileScanner.scan_directory LegacyCases.no_match Examples.ideal
                       LegacyCases.big_twins "/data")) /\
            FileScanner.Duplicate.hash g = LegacyCases.big_digest /\
            In LegacyCases.x1 (FileScanner.Duplicate.files g) /\
            In LegacyCases.x2 (FileScanner.Duplicate.files g).
Proof.
  apply legacy_duplicates_reported.
  - vm_compute. now left.
  - vm_compute. right. now left.
  - discriminate.
  - vm_compute. reflexivity.
  - vm_compute. reflexivity.
Defined.

(** ** Sample keys ignore the letter case *)

Lemma lower_char_idem (c : ascii) : Str.lower_char (Str.lower_char c) = Str.lower_char c.
Proof. destruct c as [[] [] [] [] [] [] [] []]; reflexivity. Qed.

Lemma lower_char_eqb (c x : ascii) :
  Str.is_upper x = false -> Str.is_lower x = false ->
  Ascii.eqb (Str.lower_char c) x = Ascii.eqb c x.
Proof.
  destruct x as [[] [] [] [] [] [] [] []]; try discriminate;
    intros _ _; destruct c as [[] [] [] [] [] [] [] []]; reflexivity.
Qed.

Lemma lower_idem (s : string) : Str.lower (Str.lower s) = Str.lower s.
Proof.
  unfold Str.lower. induction s as [|c s IH]; simpl; [reflexivity|].
  now rewrite lower_char_idem, IH.
Qed.

Lemma lower_length (s : string) : String.length (Str.lower s) = String.length s.
Proof. unfold Str.lower. induction s as [|c s IH]; simpl; [reflexivity | now rewrite IH]. Qed.

Lemma lower_app (a b : string) : Str.lower (a +++ b) = Str.lower a +++ Str.lower b.
Proof.
  unfold Str.lower. induction a as [|c a IH]; simpl; [reflexivity | now rewrite IH].
Qed.

Lemma lower_substring (n m : nat) (s : string) :
  substring n m (Str.lower s) = Str.lower (substring n m s).
Proof.
  unfold Str.lower. revert n m. induction s as [|c s IH]; intros n m; simpl.
  - destruct n, m; reflexivity.
  - destruct n as [|n]; [destruct m as [|m]; simpl; [reflexivity | now rewrite IH]|].
    apply IH.
Qed.

Lemma lower_nonempty (s : string) : nonempty (Str.lower s) = nonempty s.
Proof. destruct s; reflexivity. Qed.

Lemma lower_split (c : ascii) (s : string) :
  Str.is_upper c = false -> Str.is_lower c = false ->
  Str.split c (Str.lower s) = map Str.lower (Str.split c s).
Proof.
  intros Hu Hl. unfold Str.lower. induction s as [|x s IH]; simpl; [reflexivity|].
  rewrite (lower_char_eqb x c Hu Hl).
  destruct (Ascii.eqb x c); simpl; [now rewrite IH|].
  rewrite IH. destruct (Str.split c s); reflexivity.
Qed.

Lemma lower_last (l : list string) :
  last (map Str.lower l) EmptyString = Str.lower (last l EmptyString).
Proof.
  induction l as [|x l IH]; [reflexivity|].
  destruct l as [|y l]; [reflexivity|]. exact IH.
Qed.

Lemma lower_lstrip (c : ascii) (s : string) :
  Str.is_upper c = false -> Str.is_lower c = false ->
  Str.lstrip c (Str.lower s) = Str.lower (Str.lstrip c s).
Proof.
  intros Hu Hl. unfold Str.lower. induction s as [|x s IH]; simpl; [reflexivity|].
  rewrite (lower_char_eqb x c Hu Hl). destruct (Ascii.eqb x c); [exact IH | reflexivity].
Qed.

Lemma lower_eqb_dot (s : string) : String.eqb (Str.lower s) "." = String.eqb s ".".
Proof.
  destruct s as [|c s]; [reflexivity|]. unfold Str.lower. simpl.
  rewrite (lower_char_eqb c "." eq_refl eq_refl).
  destruct (Ascii.eqb c "."); [|reflexivity]. destruct s; reflexivity.
Qed.

Lemma lower_name (p : string) : Path.name (Str.lower p) = Str.lower (Path.name p).
Proof.
  unfold Path.name. rewrite (lower_split "/" p eq_refl eq_refl). apply lower_last.
Qed.

Lemma lower_suffixes (p : string) :
  Path.suffixes (Str.lower p) = map Str.lower (Path.suffixes p).
Proof.
  unfold Path.suffixes. rewrite lower_name.
  assert (E : Str.endswith "." (Str.lower (Path.name p)) = Str.endswith "." (Path.name p)).
  { unfold Str.endswith. rewrite lower_length, lower_substring. apply lower_eqb_dot. }
  rewrite E. destruct (Str.endswith "." (Path.name p)); [reflexivity|].
  rewrite (lower_lstrip "." _ eq_refl eq_refl), (lower_split "." _ eq_refl eq_refl).
  rewrite !map_map.
  destruct (Str.split "." (Str.lstrip "." (Path.name p))) as [|w ws]; [reflexivity|].
  simpl. rewrite map_map. apply map_ext. intros a. unfold Str.lower. reflexivity.
Qed.

Lemma lower_strip_suffixes (sufs : list string) (name : string) :
  fold_left (fun name suf =>
               if nonempty suf then Str.drop_last (String.length suf) name else name)
            (map Str.lower sufs) (Str.lower name)
  = Str.lower
      (fold_left (fun name suf =>
                    if nonempty suf then Str.drop_last (String.length suf) name else name)
                 sufs name).
Proof.
  revert name. induction sufs as [|suf sufs IH]; intros name; [reflexivity|].
  cbn [map fold_left]. rewrite lower_nonempty, lower_length.
  destruct (nonempty suf); [|apply IH].
  unfold Str.drop_last. rewrite lower_length, lower_substring. apply IH.
Qed.

Lemma lower_of_list (cur : list ascii) :
  string_of_list_ascii (rev (map Str.lower_char cur))
  = Str.lower (string_of_list_ascii (rev cur)).
Proof.
  rewrite <- map_rev. generalize (rev cur). clear.
  intros l. unfold Str.lower. induction l as [|c l IH]; simpl; [reflexivity | now rewrite IH].
Qed.

Lemma lower_is_sep (c : ascii) : is_sep (Str.lower_char c) = is_sep c.
Proof.
  unfold is_sep.
  now rewrite (lower_char_eqb c "." eq_refl eq_refl), (lower_char_eqb c "-" eq_refl eq_refl),
    (lower_char_eqb c "_" eq_refl eq_refl).
Qed.

Lemma lower_re_split_from (cur : list ascii) (in_run : bool) (s : string) :
  re_split_from (map Str.lower_char cur) in_run (Str.lower s)
  = map Str.lower (re_split_from cur in_run s).
Proof.
  revert cur in_run. induction s as [|c s IH]; intros cur in_run.
  - simpl. now rewrite lower_of_list.
  - unfold Str.lower. cbn [Str.map_chars re_split_from]. fold (Str.lower s).
    rewrite lower_is_sep. destruct (is_sep c).
    + destruct in_run; [apply IH|].
      cbn [map]. rewrite lower_of_list. f_equal. apply (IH [] true).
    + apply (IH (c :: cur) false).
Qed.

Lemma lower_token_match (w : string) : token_match (Str.lower w) = token_match w.
Proof. unfold token_match. now rewrite lower_idem. Qed.

Lemma lower_join (ws : list string) :
  Str.lower (Str.join "." ws) = Str.join "." (map Str.lower ws).
Proof.
  induction ws as [|x ws IH]; [reflexivity|].
  destruct ws as [|y ws]; [reflexivity|].
  change (Str.join "." (x :: y :: ws)) with (x +++ "." +++ Str.join "." (y :: ws)).
  change (Str.join "." (map Str.lower (x :: y :: ws)))
    with (Str.lower x +++ "." +++ Str.join "." (map Str.lower (y :: ws))).
  rewrite !lower_app, IH. reflexivity.
Qed.

(** X29.  Sample keys ignore the letter case of ASCII names: a path and
    its lower-case form get the same sample key, so files whose names
    differ in case only share one sample group. *)
Theorem sample_key_ignores_case (p e1 e2 : string) :
  _base_stem (Str.lower p) e1 = _base_stem p e2.
Proof.
  unfold _base_stem.
  rewrite lower_suffixes, lower_name, <- map_rev, lower_strip_suffixes.
  unfold re_split.
  rewrite (lower_re_split_from [] false).
  set (parts := re_split_from [] false _).
  rewrite !lower_join. f_equal.
  induction parts as [|x parts IH]; [reflexivity|].
  cbn [map filter]. rewrite lower_nonempty, lower_token_match.
  destruct (nonempty x && negb (token_match x)); cbn [map]; rewrite IH;
    [now rewrite lower_idem | reflexivity].
Qed.
